(** * PL/Proxy remote execution engine (execute.c, query.c, plproxy.h)

    A shallow embedding of the execution logic of PL/Proxy: partition
    tagging, argument splitting, the asynchronous connection driver and the
    final result validation.  The C code is stateful and raises PostgreSQL
    errors (longjmp); it is embedded in a state-and-exception monad over the
    cluster.  Everything the code asks of libpq, SPI, poll(2) and the clock
    is answered by an oracle record [Env], indexed by a tick counter that
    advances on every external call, so a statement quantified over [Env]
    holds for every behaviour of the outside world. *)

From Stdlib Require Import ZArith Lia Bool String Ascii List.
From stdpp Require Import base list.
Import ListNotations.

Local Open Scope string_scope.
Local Open Scope list_scope.
Local Open Scope Z_scope.

(** ** Machine integers *)

(** Conversion to [uint32] and to [int] (32 bits, two's complement). *)
Definition to_uint32 (z : Z) : Z := z mod 2 ^ 32.
Definition to_int32 (z : Z) : Z := (z + 2 ^ 31) mod 2 ^ 32 - 2 ^ 31.
Definition to_int16 (z : Z) : Z := (z + 2 ^ 15) mod 2 ^ 16 - 2 ^ 15.
Definition to_int64 (z : Z) : Z := (z + 2 ^ 63) mod 2 ^ 64 - 2 ^ 63.

(** A [Datum] passed by value is a machine word; the [DatumGetIntN] macros
    cast it to the signed type of that width. *)
Definition Datum := Z.
Definition DatumGetInt16 (d : Datum) : Z := to_int16 d.
Definition DatumGetInt32 (d : Datum) : Z := to_int32 d.
Definition DatumGetInt64 (d : Datum) : Z := to_int64 d.

Definition Oid := Z.
Definition InvalidOid : Oid := 0.
Definition INT8OID : Oid := 20.
Definition INT2OID : Oid := 21.
Definition INT4OID : Oid := 23.

Definition FUNC_MAX_ARGS : nat := 100%nat.
Definition PLPROXY_IDLE_CONN_CHECK : Z := 2.

(** ** Data model (plproxy.h) *)

Inductive RunOnType :=
| R_UNSET   (* zero-initialised, not one of the enumerators *)
| R_HASH
| R_ALL
| R_ANY
| R_EXACT.

Inductive ConnState :=
| C_NONE
| C_CONNECT_WRITE
| C_CONNECT_READ
| C_READY
| C_QUERY_WRITE
| C_QUERY_READ
| C_DONE.

Record ProxyConfig := {
  connect_timeout : Z;
  query_timeout : Z;
  connection_lifetime : Z;
  disable_binary : Z
}.

(** libpq objects.  A [PGconn] is a handle; a [PGresult] carries what the
    code reads from it: its status and its number of tuples. *)
Definition PGconn := nat.

Inductive ExecStatusType :=
| PGRES_EMPTY_QUERY
| PGRES_COMMAND_OK
| PGRES_TUPLES_OK
| PGRES_COPY_OUT
| PGRES_COPY_IN
| PGRES_BAD_RESPONSE
| PGRES_NONFATAL_ERROR
| PGRES_FATAL_ERROR.

Record PGresult := {
  PQresultStatus : ExecStatusType;
  PQntuples : Z
}.

Inductive ConnStatusType :=
| CONNECTION_OK
| CONNECTION_BAD
| CONNECTION_OTHER.

Inductive PostgresPollingStatusType :=
| PGRES_POLLING_FAILED
| PGRES_POLLING_READING
| PGRES_POLLING_WRITING
| PGRES_POLLING_OK
| PGRES_POLLING_ACTIVE.

(** An array value: its number of dimensions, the lower bound of its first
    dimension (the subscript of its first element, 1 unless the caller
    wrote another, as in ['[0:2]={1,5,9}']) and its elements, each a value
    with its null flag. *)
Record ArrayType := {
  ARR_NDIM : Z;
  ARR_LBOUND : Z;
  arr_elems : list (Datum * bool)
}.

(** A function argument or a parameter: a by-value word or an array. *)
Inductive ArgDatum :=
| DWord (d : Datum)
| DArray (a : ArrayType).

(** [ArrayBuildState]: the elements accumulated so far. *)
Definition ArrayBuildState := list (Datum * bool).

(** What [plproxy_send_type] returns through its result and its two out
    parameters. *)
Record SentParam := {
  sp_value : string;
  sp_length : Z;
  sp_format : Z
}.

Record ProxyConnection := {
  connstr : string;
  db : option PGconn;
  res : option PGresult;
  pos : Z;
  state : ConnState;
  connect_time : Z;
  query_time : Z;
  same_ver : bool;
  tuning : bool;
  run_tag : Z;
  split_params : option (list ArgDatum);
  bstate : option (list (option ArrayBuildState));
  param_values : list (option string);
  param_lengths : list Z;
  param_formats : list Z
}.

(** [part_map] holds pointers into [conn_list]: indices here, so that two
    partitions sharing a connection alias the same element.  [conn_count] is
    the length of [conn_list]. *)
Record ProxyCluster := {
  config : ProxyConfig;
  part_count : Z;
  part_mask : Z;
  part_map : list nat;
  conn_list : list ProxyConnection;
  ret_cur_conn : Z;
  ret_cur_pos : Z;
  ret_total : Z;
  busy : bool
}.

Record ProxyType := {
  type_oid : Oid;
  has_send : bool;
  has_recv : bool;
  is_array : bool;
  elem_type : Oid
}.

Record ProxyComposite := {
  use_binary : bool   (* True if all columns support binary recv *)
}.

Record ProxyQuery := {
  sql : string;
  arg_lookup : list nat   (* arg_count is its length *)
}.

Record DatumArray := {
  da_values : list Datum;
  da_nulls : list bool;
  elem_count : Z
}.

Record ProxyFunction := {
  arg_types : list ProxyType;
  arg_count : nat;
  split_args : option (list bool);
  new_split : bool;
  ret_scalar : option ProxyType;
  ret_composite : option ProxyComposite;
  run_type : RunOnType;
  hash_sql : option ProxyQuery;
  exact_nr : Z;
  remote_sql : ProxyQuery
}.

(** The part of [FunctionCallInfo] the code reads: the arguments ([None] is
    SQL NULL) and [flinfo->fn_retset]. *)
Record FunctionCallInfo := {
  fc_args : list (option ArgDatum);
  fn_retset : bool
}.

(** [IS_SPLIT_ARG(func, arg)] *)
Definition IS_SPLIT_ARG (func : ProxyFunction) (arg : nat) : bool :=
  match split_args func with
  | None => false
  | Some sa => default false (sa !! arg)
  end.

Definition PG_ARGISNULL (fcinfo : FunctionCallInfo) (i : nat) : bool :=
  match fc_args fcinfo !! i with
  | Some (Some _) => false
  | _ => true
  end.

(** ** SPI results *)

Definition HeapTuple := list (option Datum).

Record SPITupleTable := {
  tupdesc : list Oid;
  vals : list HeapTuple
}.

(** SPI_processed *)
Definition SPI_processed (t : SPITupleTable) : Z := Z.of_nat (length (vals t)).

(** [SPI_gettypeid(desc, col)], columns numbered from 1. *)
Definition SPI_gettypeid (desc : list Oid) (col : nat) : Oid :=
  default InvalidOid (desc !! pred col).

(** [SPI_getbinval(row, desc, col, &isnull)]: the value and the null flag;
    a column that does not exist reads as null. *)
Definition SPI_getbinval (row : HeapTuple) (col : nat) : Datum * bool :=
  match row !! pred col with
  | Some (Some d) => (d, false)
  | _ => (0, true)
  end.

(** ** Errors, events and the outside world *)

Inductive PgError :=
| ERRCODE_QUERY_CANCELED
| ProxyError (msg : string)
| RemoteError (r : PGresult)
| OtherError (msg : string).

(** What the code does to the outside world, in order. *)
Inductive Event :=
| EvPQsendQuery (h : option PGconn) (q : string)
| EvPQsendQueryParams (h : option PGconn) (q : string) (binary_result : Z)
| EvPQfinish (h : option PGconn)
| EvPQclear (r : PGresult)
| EvPQsetNoticeReceiver (h : option PGconn)
| EvPQcancel (h : option PGconn)
| EvNotice (msg : string).

Inductive SpiResult :=
| SPI_OK_SELECT (t : SPITupleTable)
| SPI_CODE (err : Z)          (* any return code but SPI_OK_SELECT *)
| SPI_RAISE (e : PgError).    (* the query itself raised an error *)

Inductive PollEvents := POLLIN | POLLOUT.

(** The answer of poll(2) on one descriptor with a zero timeout, and on the
    descriptors of the armed connections with the one second tick. *)
Inductive PollResult :=
| PollTimeout                         (* res == 0 *)
| PollEINTR                           (* res < 0, errno == EINTR *)
| PollFailed (errno : Z)              (* res < 0, another errno *)
| PollReady (revents : nat -> bool).  (* res > 0; revents != 0 per slot *)

Record Env := {
  env_gettimeofday : nat -> Z;
  env_PQflush : nat -> option PGconn -> Z;
  env_server_version : nat -> option PGconn -> option string;
  env_client_encoding : nat -> option PGconn -> option string;
  env_database_encoding : string;
  env_PG_VERSION : string;
  env_PQsendQuery : nat -> option PGconn -> Z;
  env_PQsendQueryParams : nat -> option PGconn -> Z;
  env_PQstatus : nat -> option PGconn -> ConnStatusType;
  env_PQconnectStart : nat -> string -> option PGconn;
  env_PQconnectPoll : nat -> option PGconn -> PostgresPollingStatusType;
  env_PQconsumeInput : nat -> option PGconn -> Z;
  env_PQisBusy : nat -> option PGconn -> bool;
  env_PQgetResult : nat -> option PGconn -> option PGresult;
  env_PQgetCancel : nat -> option PGconn -> bool;
  env_PQcancel : nat -> option PGconn -> Z;
  env_poll : nat -> list (option PGconn * PollEvents) -> Z -> PollResult;
  env_interrupt : nat -> option PgError;
  env_random : nat -> Z;
  env_SPI_execute_plan : nat -> ProxyQuery -> list (option ArgDatum) -> SpiResult;
  env_send_type : ProxyType -> ArgDatum -> bool -> SentParam
}.

Record ExecState := {
  st_cluster : ProxyCluster;
  st_tick : nat;
  st_trace : list Event
}.

(** ** The monad: state, PostgreSQL errors, faults and fuel *)

Inductive outcome (A : Type) :=
| Ret (a : A) (s : ExecState)       (* returned normally *)
| Raise (e : PgError) (s : ExecState) (* ereport(ERROR), state at the raise *)
| Crash                             (* undefined behaviour in C *)
| OutOfFuel.                        (* a loop did not finish within the fuel *)

Arguments Ret {A} a s.
Arguments Raise {A} e s.
Arguments Crash {A}.
Arguments OutOfFuel {A}.

Definition M (A : Type) : Type := ExecState -> outcome A.

Definition ret {A} (a : A) : M A := fun s => Ret a s.

Definition bind {A B} (m : M A) (k : A -> M B) : M B :=
  fun s =>
    match m s with
    | Ret a s' => k a s'
    | Raise e s' => Raise e s'
    | Crash => Crash
    | OutOfFuel => OutOfFuel
    end.

Declare Scope exec_scope.
Delimit Scope exec_scope with exec.
Notation "x <- c1 ;; c2" := (bind c1 (fun x => c2))
  (at level 100, c1 at next level, right associativity) : exec_scope.
Notation "c1 ;; c2" := (bind c1 (fun _ => c2))
  (at level 100, right associativity) : exec_scope.
Local Open Scope exec_scope.

Definition raise {A} (e : PgError) : M A := fun s => Raise e s.
Definition crash {A} : M A := fun _ => Crash.
Definition out_of_fuel {A} : M A := fun _ => OutOfFuel.

Definition get_cluster : M ProxyCluster := fun s => Ret (st_cluster s) s.

Definition put_cluster (cl : ProxyCluster) : M unit :=
  fun s => Ret tt {| st_cluster := cl; st_tick := st_tick s; st_trace := st_trace s |}.

(** One external call: read the oracle at the current tick, advance it. *)
Definition ask {A} (f : nat -> A) : M A :=
  fun s => Ret (f (st_tick s))
    {| st_cluster := st_cluster s; st_tick := S (st_tick s); st_trace := st_trace s |}.

Definition emit (ev : Event) : M unit :=
  fun s => Ret tt
    {| st_cluster := st_cluster s; st_tick := st_tick s; st_trace := st_trace s ++ [ev] |}.

Definition when (b : bool) (m : M unit) : M unit := if b then m else ret tt.

Fixpoint for_each {A} (l : list A) (body : A -> M unit) : M unit :=
  match l with
  | [] => ret tt
  | x :: l' => body x ;; for_each l' body
  end.

(** PG_TRY / PG_CATCH with PG_RE_THROW at the end of the handler. *)
Definition try_catch_rethrow (body : M unit) (handler : PgError -> M unit) : M unit :=
  fun s =>
    match body s with
    | Raise e s' =>
        match handler e s' with
        | Ret _ s'' => Raise e s''
        | o => o
        end
    | o => o
    end.

(** Modelled from the spec: plproxy_error (main.c is absent), "the core
    signals failures by raising typed errors back to the host"; it never
    returns. *)
Definition plproxy_error {A} (msg : string) : M A := raise (ProxyError msg).

(** Modelled from the spec: plproxy_remote_error (main.c is absent): a fatal
    remote result "is surfaced as a remote error", a notice is "forwarded to
    the host" and does not abort. *)
Definition plproxy_remote_error {A} (r : PGresult) (iserr : bool) (dflt : A) : M A :=
  if iserr then raise (RemoteError r) else (emit (EvNotice "remote notice") ;; ret dflt).

(** ** Record updates *)

Definition set_db (v : option PGconn) (c : ProxyConnection) : ProxyConnection :=
  {| connstr := connstr c; db := v; res := res c; pos := pos c; state := state c;
     connect_time := connect_time c; query_time := query_time c;
     same_ver := same_ver c; tuning := tuning c; run_tag := run_tag c;
     split_params := split_params c; bstate := bstate c;
     param_values := param_values c; param_lengths := param_lengths c;
     param_formats := param_formats c |}.

Definition set_res (v : option PGresult) (c : ProxyConnection) : ProxyConnection :=
  {| connstr := connstr c; db := db c; res := v; pos := pos c; state := state c;
     connect_time := connect_time c; query_time := query_time c;
     same_ver := same_ver c; tuning := tuning c; run_tag := run_tag c;
     split_params := split_params c; bstate := bstate c;
     param_values := param_values c; param_lengths := param_lengths c;
     param_formats := param_formats c |}.

Definition set_pos (v : Z) (c : ProxyConnection) : ProxyConnection :=
  {| connstr := connstr c; db := db c; res := res c; pos := v; state := state c;
     connect_time := connect_time c; query_time := query_time c;
     same_ver := same_ver c; tuning := tuning c; run_tag := run_tag c;
     split_params := split_params c; bstate := bstate c;
     param_values := param_values c; param_lengths := param_lengths c;
     param_formats := param_formats c |}.

Definition set_state (v : ConnState) (c : ProxyConnection) : ProxyConnection :=
  {| connstr := connstr c; db := db c; res := res c; pos := pos c; state := v;
     connect_time := connect_time c; query_time := query_time c;
     same_ver := same_ver c; tuning := tuning c; run_tag := run_tag c;
     split_params := split_params c; bstate := bstate c;
     param_values := param_values c; param_lengths := param_lengths c;
     param_formats := param_formats c |}.

Definition set_connect_time (v : Z) (c : ProxyConnection) : ProxyConnection :=
  {| connstr := connstr c; db := db c; res := res c; pos := pos c; state := state c;
     connect_time := v; query_time := query_time c;
     same_ver := same_ver c; tuning := tuning c; run_tag := run_tag c;
     split_params := split_params c; bstate := bstate c;
     param_values := param_values c; param_lengths := param_lengths c;
     param_formats := param_formats c |}.

Definition set_query_time (v : Z) (c : ProxyConnection) : ProxyConnection :=
  {| connstr := connstr c; db := db c; res := res c; pos := pos c; state := state c;
     connect_time := connect_time c; query_time := v;
     same_ver := same_ver c; tuning := tuning c; run_tag := run_tag c;
     split_params := split_params c; bstate := bstate c;
     param_values := param_values c; param_lengths := param_lengths c;
     param_formats := param_formats c |}.

Definition set_same_ver (v : bool) (c : ProxyConnection) : ProxyConnection :=
  {| connstr := connstr c; db := db c; res := res c; pos := pos c; state := state c;
     connect_time := connect_time c; query_time := query_time c;
     same_ver := v; tuning := tuning c; run_tag := run_tag c;
     split_params := split_params c; bstate := bstate c;
     param_values := param_values c; param_lengths := param_lengths c;
     param_formats := param_formats c |}.

Definition set_tuning (v : bool) (c : ProxyConnection) : ProxyConnection :=
  {| connstr := connstr c; db := db c; res := res c; pos := pos c; state := state c;
     connect_time := connect_time c; query_time := query_time c;
     same_ver := same_ver c; tuning := v; run_tag := run_tag c;
     split_params := split_params c; bstate := bstate c;
     param_values := param_values c; param_lengths := param_lengths c;
     param_formats := param_formats c |}.

Definition set_run_tag (v : Z) (c : ProxyConnection) : ProxyConnection :=
  {| connstr := connstr c; db := db c; res := res c; pos := pos c; state := state c;
     connect_time := connect_time c; query_time := query_time c;
     same_ver := same_ver c; tuning := tuning c; run_tag := v;
     split_params := split_params c; bstate := bstate c;
     param_values := param_values c; param_lengths := param_lengths c;
     param_formats := param_formats c |}.

Definition set_split_params (v : option (list ArgDatum)) (c : ProxyConnection) : ProxyConnection :=
  {| connstr := connstr c; db := db c; res := res c; pos := pos c; state := state c;
     connect_time := connect_time c; query_time := query_time c;
     same_ver := same_ver c; tuning := tuning c; run_tag := run_tag c;
     split_params := v; bstate := bstate c;
     param_values := param_values c; param_lengths := param_lengths c;
     param_formats := param_formats c |}.

Definition set_bstate (v : option (list (option ArrayBuildState))) (c : ProxyConnection) : ProxyConnection :=
  {| connstr := connstr c; db := db c; res := res c; pos := pos c; state := state c;
     connect_time := connect_time c; query_time := query_time c;
     same_ver := same_ver c; tuning := tuning c; run_tag := run_tag c;
     split_params := split_params c; bstate := v;
     param_values := param_values c; param_lengths := param_lengths c;
     param_formats := param_formats c |}.

Definition set_params (vs : list (option string)) (ls fs : list Z) (c : ProxyConnection) : ProxyConnection :=
  {| connstr := connstr c; db := db c; res := res c; pos := pos c; state := state c;
     connect_time := connect_time c; query_time := query_time c;
     same_ver := same_ver c; tuning := tuning c; run_tag := run_tag c;
     split_params := split_params c; bstate := bstate c;
     param_values := vs; param_lengths := ls; param_formats := fs |}.

Definition set_conn_list (l : list ProxyConnection) (cl : ProxyCluster) : ProxyCluster :=
  {| config := config cl; part_count := part_count cl; part_mask := part_mask cl;
     part_map := part_map cl; conn_list := l; ret_cur_conn := ret_cur_conn cl;
     ret_cur_pos := ret_cur_pos cl; ret_total := ret_total cl; busy := busy cl |}.

Definition set_ret_total (v : Z) (cl : ProxyCluster) : ProxyCluster :=
  {| config := config cl; part_count := part_count cl; part_mask := part_mask cl;
     part_map := part_map cl; conn_list := conn_list cl; ret_cur_conn := ret_cur_conn cl;
     ret_cur_pos := ret_cur_pos cl; ret_total := v; busy := busy cl |}.

Definition set_ret_cur_conn (v : Z) (cl : ProxyCluster) : ProxyCluster :=
  {| config := config cl; part_count := part_count cl; part_mask := part_mask cl;
     part_map := part_map cl; conn_list := conn_list cl; ret_cur_conn := v;
     ret_cur_pos := ret_cur_pos cl; ret_total := ret_total cl; busy := busy cl |}.

Definition set_busy (v : bool) (cl : ProxyCluster) : ProxyCluster :=
  {| config := config cl; part_count := part_count cl; part_mask := part_mask cl;
     part_map := part_map cl; conn_list := conn_list cl; ret_cur_conn := ret_cur_conn cl;
     ret_cur_pos := ret_cur_pos cl; ret_total := ret_total cl; busy := v |}.

(** [&cluster->conn_list[i]]: reading or writing past the array is a fault. *)
Definition get_conn (i : nat) : M ProxyConnection :=
  cl <- get_cluster ;;
  match conn_list cl !! i with
  | Some c => ret c
  | None => crash
  end.

Definition modify_conn (i : nat) (f : ProxyConnection -> ProxyConnection) : M unit :=
  cl <- get_cluster ;;
  match conn_list cl !! i with
  | Some c => put_cluster (set_conn_list (<[i := f c]> (conn_list cl)) cl)
  | None => crash
  end.

Definition modify_cluster (f : ProxyCluster -> ProxyCluster) : M unit :=
  cl <- get_cluster ;; put_cluster (f cl).

(** The indices [0 .. conn_count-1] of a [for] loop over [conn_list]. *)
Definition conn_indices : M (list nat) :=
  cl <- get_cluster ;; ret (seq 0 (length (conn_list cl))).

(** An array read [a[i]] with a C [int] index: out of the array is a fault. *)
Definition lookupZ {A} (l : list A) (i : Z) : option A :=
  if i <? 0 then None else l !! Z.to_nat i.

(** ** execute.c *)

(** [cmp_branch]: do two version strings agree on "MAJ.MIN"?  The loop
    walks both strings with one index; [dot] tells whether a dot was seen.
    A string that has ended reads as NUL at the index. *)
Definition is_dot (c : ascii) : bool := Ascii.eqb c "."%char.

Fixpoint cmp_branch_from (dot : bool) (this that : string) : bool :=
  match this, that with
  | EmptyString, EmptyString => true            (* loop condition fails *)
  | EmptyString, String c2 _ =>
      (* this[i] == 0, that[i] != 0 *)
      if dot && is_dot c2 then true else false
  | String c1 _, EmptyString =>
      (* that[i] == 0, this[i] != 0 *)
      if dot && is_dot c1 then true else false
  | String c1 this', String c2 that' =>
      if negb (Ascii.eqb c1 c2) then false
      else if is_dot c1 then (if dot then true else cmp_branch_from true this' that')
      else cmp_branch_from dot this' that'
  end.

Definition cmp_branch (this that : string) : bool := cmp_branch_from false this that.

Section Exec.

Variable env : Env.
Variable func : ProxyFunction.
Variable fcinfo : FunctionCallInfo.

(** [conn_error]: plproxy_error with the libpq message of the connection
    (the text of that message is not modelled). *)
Definition conn_error {A} (desc : string) : M A := plproxy_error desc.

Definition flush_connection (ci : nat) : M unit :=
  conn <- get_conn ci ;;
  r <- ask (fun t => env_PQflush env t (db conn)) ;;
  if 0 <? r then modify_conn ci (set_state C_QUERY_WRITE)
  else if r =? 0 then modify_conn ci (set_state C_QUERY_READ)
  else conn_error "PQflush".

Definition tune_connection (ci : nat) : M Z :=
  conn <- get_conn ci ;;
  dst_ver <- ask (fun t => env_server_version env t (db conn)) ;;
  same <- match dst_ver with
          | Some v => ret (cmp_branch v (env_PG_VERSION env))
          | None => crash
          end ;;
  modify_conn ci (set_same_ver same) ;;
  let this_enc := env_database_encoding env in
  dst_enc <- ask (fun t => env_client_encoding env t (db conn)) ;;
  let sql :=
    match dst_enc with
    | Some e =>
        if String.eqb this_enc e then None
        else Some ("set client_encoding = '" ++ this_enc ++ "'; ")%string
    | None => None
    end in
  match sql with
  | Some q =>
      when (tuning conn) (conn_error (q ++ "-- does not seem to apply")%string) ;;
      modify_conn ci (fun c => set_state C_QUERY_WRITE (set_tuning true c)) ;;
      emit (EvPQsendQuery (db conn) q) ;;
      r <- ask (fun t => env_PQsendQuery env t (db conn)) ;;
      when (r =? 0) (conn_error "PQsendQuery") ;;
      flush_connection ci ;;
      ret 1
  | None =>
      modify_conn ci (set_tuning false) ;;
      ret 0
  end.

Definition send_query (ci : nat) : M unit :=
  now <- ask (env_gettimeofday env) ;;
  modify_conn ci (set_query_time now) ;;
  _ <- tune_connection ci ;;
  conn <- get_conn ci ;;
  if tuning conn then ret tt
  else
    cl <- get_cluster ;;
    let cf := config cl in
    binary_result <-
      (if (disable_binary cf =? 0) && same_ver conn then
         match ret_scalar func with
         | Some t => ret (if has_recv t then 1 else 0)
         | None =>
             match ret_composite func with
             | Some c => ret (if use_binary c then 1 else 0)
             | None => crash
             end
         end
       else ret 0) ;;
    modify_conn ci (set_state C_QUERY_WRITE) ;;
    emit (EvPQsendQueryParams (db conn) (sql (remote_sql func)) binary_result) ;;
    r <- ask (fun t => env_PQsendQueryParams env t (db conn)) ;;
    when (r =? 0) (conn_error "PQsendQueryParams") ;;
    flush_connection ci.

(** The [intr_loop] of [check_old_conn]: poll again as long as poll idxs
    interrupted. *)
Fixpoint check_old_conn_poll (fuel : nat) (conn : ProxyConnection) : M bool :=
  match fuel with
  | O => out_of_fuel
  | S fuel' =>
      r <- ask (fun t => env_poll env t [(db conn, POLLIN)] 0) ;;
      match r with
      | PollReady _ =>
          emit (EvNotice "PL/Proxy: detected unstable connection") ;; ret false
      | PollEINTR => check_old_conn_poll fuel' conn
      | PollFailed _ => plproxy_error "check_old_conn: select failed"
      | PollTimeout => ret true
      end
  end.

(** returns false if conn should be dropped *)
Definition check_old_conn (fuel : nat) (ci : nat) (now : Z) : M bool :=
  conn <- get_conn ci ;;
  cl <- get_cluster ;;
  let cf := config cl in
  st <- ask (fun t => env_PQstatus env t (db conn)) ;;
  match st with
  | CONNECTION_OK =>
      if (0 <? connection_lifetime cf)
         && (connection_lifetime cf <=? now - connect_time conn)
      then ret false
      else if now - query_time conn <? PLPROXY_IDLE_CONN_CHECK then ret true
      else check_old_conn_poll fuel conn
  | _ => ret false
  end.

(** check existing conn status or launch new conn *)
Definition prepare_conn (fuel : nat) (ci : nat) : M unit :=
  now <- ask (env_gettimeofday env) ;;
  conn <- get_conn ci ;;
  keep <-
    match state conn with
    | C_DONE => modify_conn ci (set_state C_READY) ;; check_old_conn fuel ci now
    | C_READY => check_old_conn fuel ci now
    | _ => ret false
    end ;;
  if (keep : bool) then ret tt
  else
    match state conn with
    | C_NONE => ret tt
    | _ =>
        (* close rotten connection *)
        emit (EvNotice "PL/Proxy: dropping stale conn") ;;
        emit (EvPQfinish (db conn)) ;;
        modify_conn ci (fun c => set_tuning false (set_state C_NONE (set_db None c)))
    end ;;
    modify_conn ci (set_connect_time now) ;;
    (* launch new connection *)
    h <- ask (fun t => env_PQconnectStart env t (connstr conn)) ;;
    modify_conn ci (set_db h) ;;
    match h with
    | None => plproxy_error "No memory for PGconn"
    | Some _ => ret tt
    end ;;
    (* tag connection dirty *)
    modify_conn ci (set_state C_CONNECT_WRITE) ;;
    st <- ask (fun t => env_PQstatus env t h) ;;
    match st with
    | CONNECTION_BAD => conn_error "PQconnectStart"
    | _ => ret tt
    end ;;
    (* override default notice handler *)
    emit (EvPQsetNoticeReceiver h).

(** [PQclear(conn->res)] when a result is held. *)
Definition clear_held (conn : ProxyConnection) : M unit :=
  match res conn with
  | Some old => emit (EvPQclear old)
  | None => ret tt
  end.

(** Connection has a resultset available, fetch it.  Returns true if there
    may be more results coming, false if all done. *)
Definition another_result (ci : nat) : M bool :=
  conn <- get_conn ci ;;
  r <- ask (fun t => env_PQgetResult env t (db conn)) ;;
  match r with
  | None =>
      modify_conn ci (set_state (if tuning conn then C_READY else C_DONE)) ;;
      ret false
  | Some r =>
      match PQresultStatus r with
      | PGRES_TUPLES_OK =>
          match res conn with
          | Some _ => emit (EvPQclear r) ;; conn_error "double result?"
          | None => ret tt
          end ;;
          modify_conn ci (set_res (Some r)) ;;
          ret true
      | PGRES_COMMAND_OK =>
          emit (EvPQclear r) ;;
          ret true
      | PGRES_FATAL_ERROR =>
          clear_held conn ;;
          modify_conn ci (set_res (Some r)) ;;
          plproxy_remote_error r true true
      | _ =>
          clear_held conn ;;
          modify_conn ci (set_res (Some r)) ;;
          plproxy_error "Unexpected result type"
      end
  end.

(** The [while (1)] of [handle_conn]: loop until PQisBusy or until
    PQgetResult returns NULL. *)
Fixpoint drain_results (fuel : nat) (ci : nat) : M unit :=
  match fuel with
  | O => out_of_fuel
  | S fuel' =>
      conn <- get_conn ci ;;
      isbusy <- ask (fun t => env_PQisBusy env t (db conn)) ;;
      if (isbusy : bool) then ret tt
      else
        more <- another_result ci ;;
        if (more : bool) then drain_results fuel' ci else ret tt
  end.

(** Called when poll() told that conn is available for reading/writing. *)
Definition handle_conn (fuel : nat) (ci : nat) : M unit :=
  conn <- get_conn ci ;;
  match state conn with
  | C_CONNECT_READ | C_CONNECT_WRITE =>
      poll_res <- ask (fun t => env_PQconnectPoll env t (db conn)) ;;
      match poll_res with
      | PGRES_POLLING_WRITING => modify_conn ci (set_state C_CONNECT_WRITE)
      | PGRES_POLLING_READING => modify_conn ci (set_state C_CONNECT_READ)
      | PGRES_POLLING_OK => modify_conn ci (set_state C_READY)
      | PGRES_POLLING_ACTIVE | PGRES_POLLING_FAILED => conn_error "PQconnectPoll"
      end
  | C_QUERY_WRITE => flush_connection ci
  | C_QUERY_READ =>
      r <- ask (fun t => env_PQconsumeInput env t (db conn)) ;;
      when (r =? 0) (conn_error "PQconsumeInput") ;;
      drain_results fuel ci
  | C_NONE | C_DONE | C_READY => ret tt
  end.

(** Which readiness [poll_conns] asks for in each state; [None] for the
    states it skips. *)
Definition poll_interest (st : ConnState) : option PollEvents :=
  match st with
  | C_DONE | C_READY | C_NONE => None
  | C_CONNECT_READ | C_QUERY_READ => Some POLLIN
  | C_CONNECT_WRITE | C_QUERY_WRITE => Some POLLOUT
  end.

(** First loop of [poll_conns]: the descriptors of the tagged connections
    that wait for I/O, in connection order. *)
Fixpoint build_pollfds (conns : list ProxyConnection) : list (option PGconn * PollEvents) :=
  match conns with
  | [] => []
  | conn :: rest =>
      if run_tag conn =? 0 then build_pollfds rest
      else
        match poll_interest (state conn) with
        | None => build_pollfds rest
        | Some ev => (db conn, ev) :: build_pollfds rest
        end
  end.

(** Second loop of [poll_conns]: [pf] walks the descriptors in step with
    the connections that were added. *)
Fixpoint recheck_conns (fuel : nat) (revents : nat -> bool) (idxs : list nat) (pf : nat) : M unit :=
  match idxs with
  | [] => ret tt
  | i :: rest =>
      conn <- get_conn i ;;
      if run_tag conn =? 0 then recheck_conns fuel revents rest pf
      else
        match poll_interest (state conn) with
        | None => recheck_conns fuel revents rest pf
        | Some _ =>
            when (revents pf) (handle_conn fuel i) ;;
            recheck_conns fuel revents rest (S pf)
        end
  end.

(** Check if tagged connections have interesting events.  (The allocation
    of the static pollfd cache is not modelled.) *)
Definition poll_conns (fuel : nat) : M Z :=
  cl <- get_cluster ;;
  r <- ask (fun t => env_poll env t (build_pollfds (conn_list cl)) 1000) ;;
  match r with
  | PollTimeout => ret 0
  | PollEINTR => ret 0
  | PollFailed _ => plproxy_error "poll() failed"
  | PollReady revents =>
      idxs <- conn_indices ;;
      recheck_conns fuel revents idxs 0%nat ;;
      ret 1
  end.

(** Check if some operation has gone over limit *)
Definition check_timeouts (ci : nat) (now : Z) : M unit :=
  cl <- get_cluster ;;
  conn <- get_conn ci ;;
  let cf := config cl in
  match state conn with
  | C_CONNECT_READ | C_CONNECT_WRITE =>
      if connect_timeout cf <=? 0 then ret tt
      else if now - connect_time conn <=? connect_timeout cf then ret tt
      else plproxy_error "connect timeout"
  | C_QUERY_READ | C_QUERY_WRITE =>
      if query_timeout cf <=? 0 then ret tt
      else if now - query_time conn <=? query_timeout cf then ret tt
      else plproxy_error "query timeout"
  | _ => ret tt
  end.

(** [CHECK_FOR_INTERRUPTS()] *)
Definition CHECK_FOR_INTERRUPTS : M unit :=
  i <- ask (env_interrupt env) ;;
  match i with
  | Some e => raise e
  | None => ret tt
  end.

(** First loop of [remote_execute]: either launch connection or send
    query; returns [pending]. *)
Fixpoint launch_conns (fuel : nat) (idxs : list nat) (pending : Z) : M Z :=
  match idxs with
  | [] => ret pending
  | i :: rest =>
      conn <- get_conn i ;;
      if run_tag conn =? 0 then launch_conns fuel rest pending
      else
        prepare_conn fuel i ;;
        conn <- get_conn i ;;
        match state conn with
        | C_READY => send_query i
        | _ => ret tt
        end ;;
        launch_conns fuel rest (pending + 1)
  end.

(** The recheck loop inside the [while]: returns the new [pending]. *)
Fixpoint recheck_pending (idxs : list nat) (now : Z) (pending : Z) : M Z :=
  match idxs with
  | [] => ret pending
  | i :: rest =>
      conn <- get_conn i ;;
      if run_tag conn =? 0 then recheck_pending rest now pending
      else
        (* login finished, send query *)
        match state conn with
        | C_READY => send_query i
        | _ => ret tt
        end ;;
        conn <- get_conn i ;;
        let pending' := match state conn with C_DONE => pending | _ => pending + 1 end in
        check_timeouts i now ;;
        recheck_pending rest now pending'
  end.

(** [while (pending)]: now loop until all results are arrived. *)
Fixpoint wait_results (fuel : nat) (pending : Z) : M unit :=
  if pending =? 0 then ret tt
  else
    match fuel with
    | O => out_of_fuel
    | S fuel' =>
        (* allow postgres to cancel processing *)
        CHECK_FOR_INTERRUPTS ;;
        (* wait for events *)
        ev <- poll_conns fuel' ;;
        if ev =? 0 then wait_results fuel' pending
        else
          now <- ask (env_gettimeofday env) ;;
          idxs <- conn_indices ;;
          pending' <- recheck_pending idxs now 0 ;;
          wait_results fuel' pending'
    end.

(** Last loop of [remote_execute]: review results, calculate total.  The
    total is kept in an [int]: the addition wraps around at 32 bits. *)
Fixpoint review_results (idxs : list nat) : M unit :=
  match idxs with
  | [] => ret tt
  | i :: rest =>
      conn <- get_conn i ;;
      let tagged := negb (run_tag conn =? 0) in
      let has_res := match res conn with Some _ => true | None => false end in
      when ((tagged || has_res) && negb (tagged && has_res))
        (plproxy_error "run_tag does not match res") ;;
      if negb tagged then review_results rest
      else
        match state conn with
        | C_DONE => ret tt
        | _ => plproxy_error "Unfinished connection"
        end ;;
        match res conn with
        | None => plproxy_error "Lost result"
        | Some r =>
            match PQresultStatus r with
            | PGRES_TUPLES_OK => ret tt
            | _ => plproxy_error "Remote error"
            end ;;
            (* int ret_total; ret_total += PQntuples(conn->res) *)
            modify_cluster (fun cl => set_ret_total (to_int32 (ret_total cl + PQntuples r)) cl)
        end ;;
        review_results rest
  end.

(** Run the query on all tagged connections in parallel *)
Definition remote_execute (fuel : nat) : M unit :=
  idxs <- conn_indices ;;
  pending <- launch_conns fuel idxs 0 ;;
  wait_results fuel pending ;;
  idxs <- conn_indices ;;
  review_results idxs.

Fixpoint cancel_conns (idxs : list nat) : M unit :=
  match idxs with
  | [] => ret tt
  | i :: rest =>
      conn <- get_conn i ;;
      match state conn with
      | C_NONE | C_READY | C_DONE => cancel_conns rest
      | _ =>
          cancel <- ask (fun t => env_PQgetCancel env t (db conn)) ;;
          (if (cancel : bool) then
             emit (EvPQcancel (db conn)) ;;
             r <- ask (fun t => env_PQcancel env t (db conn)) ;;
             when (r =? 0) (emit (EvNotice "Cancel query failed!"))
           else emit (EvNotice "Invalid connection!")) ;;
          cancel_conns rest
      end
  end.

(** [func->cur_cluster] is the cluster of the state and is never NULL here. *)
Definition remote_cancel : M unit :=
  idxs <- conn_indices ;;
  cancel_conns idxs.

(** ** query.c: local execution of the hash query *)

(** One argument of the local query: NULL, the element [array_row] of a
    split array, or the caller's value.  [None] is a fault (a NULL array
    descriptor or a read past the element arrays). *)
Definition query_arg (array_params : option (list (option DatumArray)))
    (array_row : Z) (idx : nat) : option (option ArgDatum) :=
  if PG_ARGISNULL fcinfo idx then Some None
  else
    match array_params with
    | Some aps =>
        if IS_SPLIT_ARG func idx then
          match aps !! idx with
          | Some (Some ats) =>
              match lookupZ (da_nulls ats) array_row with
              | Some true => Some None
              | Some false =>
                  match lookupZ (da_values ats) array_row with
                  | Some v => Some (Some (DWord v))
                  | None => None
                  end
              | None => None
              end
          | _ => None
          end
        else Some (mjoin (fc_args fcinfo !! idx))
    | None => Some (mjoin (fc_args fcinfo !! idx))
    end.

Fixpoint query_args (array_params : option (list (option DatumArray)))
    (array_row : Z) (lookup : list nat) : option (list (option ArgDatum)) :=
  match lookup with
  | [] => Some []
  | idx :: rest =>
      match query_arg array_params array_row idx, query_args array_params array_row rest with
      | Some a, Some l => Some (a :: l)
      | _, _ => None
      end
  end.

(** Execute ProxyQuery locally.  The result models what SPI leaves in
    SPI_tuptable and SPI_processed. *)
Definition plproxy_query_exec (q : option ProxyQuery)
    (array_params : option (list (option DatumArray))) (array_row : Z) : M SPITupleTable :=
  match q with
  | None => crash
  | Some q =>
      match query_args array_params array_row (arg_lookup q) with
      | None => crash
      | Some args =>
          r <- ask (fun t => env_SPI_execute_plan env t q args) ;;
          match r with
          | SPI_OK_SELECT t => ret t
          | SPI_CODE _ => plproxy_error "query failed"
          | SPI_RAISE e => raise e
          end
      end
  end.

(** ** execute.c: tagging *)

(** The value of an integer hash column, read with the [DatumGetIntN] of
    its type; [None] when the type is not int2, int4 or int8. *)
Definition hash_column (htype : Oid) (val : Datum) : option Z :=
  if htype =? INT4OID then Some (DatumGetInt32 val)
  else if htype =? INT8OID then Some (DatumGetInt64 val)
  else if htype =? INT2OID then Some (DatumGetInt16 val)
  else None.

(** [hashval &= cluster->part_mask] with [uint32 hashval] and [int
    part_mask]: the mask is converted to unsigned. *)
Definition part_index (hashval : Z) (mask : Z) : Z :=
  Z.land hashval (to_uint32 mask).

(** [cluster->part_map[i]->run_tag = tag] *)
Definition tag_partition (i : Z) (tag : Z) : M unit :=
  cl <- get_cluster ;;
  match lookupZ (part_map cl) i with
  | Some ci => modify_conn ci (set_run_tag tag)
  | None => crash
  end.

(** The body of the tagging loop of [tag_hash_partitions] for one row. *)
Definition tag_hash_row (htype : Oid) (tag : Z) (row : HeapTuple) : M unit :=
  let '(val, isnull) := SPI_getbinval row 1 in
  when isnull (plproxy_error "Hash function returned NULL") ;;
  hashval <-
    match hash_column htype val with
    | Some h => ret (to_uint32 h)     (* uint32 hashval = DatumGetIntN(val) *)
    | None => plproxy_error "Hash result must be int2, int4 or int8"
    end ;;
  cl <- get_cluster ;;
  tag_partition (part_index hashval (part_mask cl)) tag.

(** Run hash function and tag connections. *)
Definition tag_hash_partitions (tag : Z)
    (array_params : option (list (option DatumArray))) (array_row : Z) : M unit :=
  (* execute cached plan *)
  tuptable <- plproxy_query_exec (hash_sql func) array_params array_row ;;
  (* get header *)
  let htype := SPI_gettypeid (tupdesc tuptable) 1 in
  (* tag connections *)
  for_each (vals tuptable) (tag_hash_row htype tag) ;;
  (* sanity check *)
  when ((SPI_processed tuptable =? 0) || (1 <? SPI_processed tuptable))
    (when (negb (fn_retset fcinfo))
       (plproxy_error "Only set-returning function allows hashcount <> 1")).

(** Evaluate the run condition.  Tag the matching connections with the
    specified tag. *)
Definition tag_run_on_partitions (tag : Z)
    (array_params : option (list (option DatumArray))) (array_row : Z) : M unit :=
  match run_type func with
  | R_HASH => tag_hash_partitions tag array_params array_row
  | R_ALL =>
      cl <- get_cluster ;;
      for_each (seq 0 (Z.to_nat (part_count cl)))
        (fun i => tag_partition (Z.of_nat i) tag)
  | R_EXACT =>
      cl <- get_cluster ;;
      let i := exact_nr func in
      when ((i <? 0) || (part_count cl <=? i)) (plproxy_error "part number out of range") ;;
      tag_partition i tag
  | R_ANY =>
      cl <- get_cluster ;;
      r <- ask (env_random env) ;;
      tag_partition (to_int32 (Z.land r (part_mask cl))) tag
  | R_UNSET => plproxy_error "uninitialized run_type"
  end.

Definition get_int (row : HeapTuple) (col : nat) (oid : Oid) : M Z :=
  let '(val, isnull) := SPI_getbinval row col in
  when isnull (plproxy_error "expected not-NULL value") ;;
  if oid =? INT4OID then ret (to_int32 (DatumGetInt32 val))
  else if oid =? INT8OID then ret (to_int32 (DatumGetInt64 val))
  else if oid =? INT2OID then ret (to_int32 (DatumGetInt16 val))
  else plproxy_error "expected int arg".

(** ** execute.c: splitting *)

(** [accumArrayResult]: append one element; a NULL state starts a new one. *)
Definition accumArrayResult (astate : option ArrayBuildState) (dvalue : Datum)
    (disnull : bool) : option ArrayBuildState :=
  Some (default [] astate ++ [(dvalue, disnull)]).

(** The column loop of [split_value] on the build states of a connection;
    [None] is a fault (no array descriptor for a split column, or a read
    past its elements). *)
Fixpoint split_columns (arrays_to_split : list (option DatumArray)) (row : Z)
    (cols : list nat) (bs : list (option ArrayBuildState))
    : option (list (option ArrayBuildState)) :=
  match cols with
  | [] => Some bs
  | col :: rest =>
      if negb (IS_SPLIT_ARG func col) then split_columns arrays_to_split row rest bs
      else
        match arrays_to_split !! col, bs !! col with
        | Some (Some da), Some astate =>
            match lookupZ (da_values da) row, lookupZ (da_nulls da) row with
            | Some v, Some n =>
                split_columns arrays_to_split row rest
                  (<[col := accumArrayResult astate v n]> bs)
            | _, _ => None
            end
        | _, _ => None
        end
  end.

(** Add all values on row to per-connection arrays *)
Definition split_value (arrays_to_split : list (option DatumArray)) (ci : nat) (row : Z) : M unit :=
  conn <- get_conn ci ;;
  let bs :=
    match bstate conn with
    | Some bs => bs
    | None => replicate (arg_count func) None   (* palloc0 *)
    end in
  match split_columns arrays_to_split row (seq 0 (arg_count func)) bs with
  | Some bs' => modify_conn ci (set_bstate (Some bs'))
  | None => crash
  end.

(** The body of the loop of [new_split_args] for one row [(idx, hash)]. *)
Definition new_split_row (oid1 oid2 : Oid) (arrays_to_split : list (option DatumArray))
    (row : HeapTuple) : M unit :=
  i <- get_int row 1 oid1 ;;
  let idx := to_uint32 i in
  h <- get_int row 2 oid2 ;;
  let hash := to_uint32 h in
  cl <- get_cluster ;;
  let hash := part_index hash (part_mask cl) in
  match lookupZ (part_map cl) hash with
  | None => crash
  | Some ci =>
      conn <- get_conn ci ;;
      if to_uint32 (run_tag conn) =? idx then ret tt
      else
        modify_conn ci (set_run_tag (to_int32 idx)) ;;
        split_value arrays_to_split ci (to_int32 (to_uint32 (idx - 1)))
  end.

(** Calculate all hashes with single query *)
Definition new_split_args (split_array_count split_array_len : Z)
    (arrays_to_split : list (option DatumArray)) : M unit :=
  (* execute cached plan *)
  tuptable <- plproxy_query_exec (hash_sql func) None 0 ;;
  (* get header *)
  let oid1 := SPI_gettypeid (tupdesc tuptable) 1 in
  let oid2 := SPI_gettypeid (tupdesc tuptable) 2 in
  (* split arrays *)
  for_each (vals tuptable) (new_split_row oid1 oid2 arrays_to_split).

(** The inner loop of [old_split_args]: add the array elements to the
    partitions tagged in the previous step. *)
Definition old_split_add (arrays_to_split : list (option DatumArray)) (row : Z)
    (my_tag : Z) (part : nat) : M unit :=
  conn <- get_conn part ;;
  if negb (run_tag conn =? my_tag) then ret tt
  else split_value arrays_to_split part row.

Definition old_split_row (arrays_to_split : list (option DatumArray)) (row : nat) : M unit :=
  let my_tag := Z.of_nat row + 1 in
  tag_run_on_partitions my_tag (Some arrays_to_split) (Z.of_nat row) ;;
  idxs <- conn_indices ;;
  for_each idxs (old_split_add arrays_to_split (Z.of_nat row) my_tag).

(** Loop over arrays, handle each row separately. *)
Definition old_split_args (split_array_count split_array_len : Z)
    (arrays_to_split : list (option DatumArray)) : M unit :=
  for_each (seq 0 (Z.to_nat split_array_len)) (old_split_row arrays_to_split).

(** Deconstruct an array to its values and null flags; a NULL array gives
    the zeroed descriptor. *)
Definition make_datum_array (v : option ArrayType) : DatumArray :=
  match v with
  | Some a =>
      {| da_values := map fst (arr_elems a);
         da_nulls := map snd (arr_elems a);
         elem_count := Z.of_nat (length (arr_elems a)) |}
  | None => {| da_values := []; da_nulls := []; elem_count := 0 |}
  end.

(** [makeArrayResult]: the one-dimensional array of the accumulated
    elements, with subscripts from 1; it dereferences its state, so a NULL
    state is a fault. *)
Definition makeArrayResult (astate : option ArrayBuildState) : option ArgDatum :=
  match astate with
  | Some elems => Some (DArray {| ARR_NDIM := 1; ARR_LBOUND := 1; arr_elems := elems |})
  | None => None
  end.

(** First loop of [prepare_and_tag_partitions]: the arrays to split, the
    common length (-1 when none was seen) and the number of split arrays. *)
Fixpoint collect_split_arrays (cols : list nat) (arrays : list (option DatumArray))
    (split_array_len split_array_count : Z) : M (list (option DatumArray) * Z * Z) :=
  match cols with
  | [] => ret (arrays, split_array_len, split_array_count)
  | i :: rest =>
      if negb (IS_SPLIT_ARG func i) then
        collect_split_arrays rest (arrays ++ [None]) split_array_len split_array_count
      else
        v <- (if PG_ARGISNULL fcinfo i then ret None
              else
                match mjoin (fc_args fcinfo !! i) with
                | Some (DArray a) =>
                    when (1 <? ARR_NDIM a)
                      (plproxy_error "split multi-dimensional arrays are not supported") ;;
                    ret (Some a)
                | _ => crash
                end) ;;
        let da := make_datum_array v in
        (* Check that the element counts match *)
        len <- (if split_array_len <? 0 then ret (elem_count da)
                else if negb (elem_count da =? split_array_len)
                then plproxy_error "split arrays must be of identical lengths"
                else ret split_array_len) ;;
        collect_split_arrays rest (arrays ++ [Some da]) len (split_array_count + 1)
  end.

(** The split parameters of one tagged connection. *)
Definition make_split_params (conn : ProxyConnection) : option (list ArgDatum) :=
  mapM (fun col =>
          if negb (IS_SPLIT_ARG func col) then Some (DWord 0)   (* PointerGetDatum(NULL) *)
          else
            match bstate conn with
            | Some bs => makeArrayResult (mjoin (bs !! col))
            | None => None
            end)
       (seq 0 (arg_count func)).

Definition copy_split_params (ci : nat) : M unit :=
  conn <- get_conn ci ;;
  if run_tag conn =? 0 then ret tt
  else
    match make_split_params conn with
    | Some ps => modify_conn ci (set_split_params (Some ps))
    | None => crash
    end.

(** Tag the partitions to be run on, if split is requested prepare the
    per-partition split array parameters. *)
Definition prepare_and_tag_partitions : M unit :=
  r <- collect_split_arrays (seq 0 (arg_count func)) [] (-1) 0 ;;
  let '(arrays_to_split, split_array_len, split_array_count) := r in
  (* If nothing to split, just tag the partitions and be done with it *)
  if split_array_count =? 0 then tag_run_on_partitions 1 None 0
  else
    (if new_split func
     then new_split_args split_array_count split_array_len arrays_to_split
     else old_split_args split_array_count split_array_len arrays_to_split) ;;
    (* Finally, copy the accumulated arrays to the actual connections *)
    idxs <- conn_indices ;;
    for_each idxs copy_split_params.

(** [a[i] = v] on one of the parameter arrays of FUNC_MAX_ARGS entries. *)
Definition store {A} (l : list A) (i : nat) (v : A) : option (list A) :=
  if (i <? length l)%nat then Some (<[i := v]> l) else None.

Definition set_param (i : nat) (v : option string) (len fmt : Z) (ci : nat) : M unit :=
  conn <- get_conn ci ;;
  match store (param_values conn) i v, store (param_lengths conn) i len,
        store (param_formats conn) i fmt with
  | Some vs, Some ls, Some fs => modify_conn ci (set_params vs ls fs)
  | _, _, _ => crash
  end.

(** The body of the partition loop of [prepare_query_parameters]. *)
Definition add_param (i idx : nat) (bin : bool) (fixed : option SentParam) (part : nat) : M unit :=
  conn <- get_conn part ;;
  if run_tag conn =? 0 then ret tt
  else if PG_ARGISNULL fcinfo idx then set_param i None 0 0 part
  else if IS_SPLIT_ARG func idx then
    match arg_types func !! idx, split_params conn ≫= (fun ps => ps !! idx) with
    | Some ty, Some d =>
        let p := env_send_type env ty d bin in
        set_param i (Some (sp_value p)) (sp_length p) (sp_format p) part
    | _, _ => crash
    end
  else
    match fixed with
    | Some p => set_param i (Some (sp_value p)) (sp_length p) (sp_format p) part
    | None => crash
    end.

Fixpoint bind_params (lookup : list nat) (i : nat) : M unit :=
  match lookup with
  | [] => ret tt
  | idx :: rest =>
      cl <- get_cluster ;;
      let bin := if disable_binary (config cl) =? 0 then true else false in
      (* Avoid doing multiple conversions for fixed parameters *)
      fixed <-
        (if negb (IS_SPLIT_ARG func idx) && negb (PG_ARGISNULL fcinfo idx) then
           match arg_types func !! idx, mjoin (fc_args fcinfo !! idx) with
           | Some ty, Some d => ret (Some (env_send_type env ty d bin))
           | _, _ => crash
           end
         else ret None) ;;
      (* Add the parameters to partitions *)
      idxs <- conn_indices ;;
      for_each idxs (add_param i idx bin fixed) ;;
      bind_params rest (S i)
  end.

(** Prepare parameters for the query. *)
Definition prepare_query_parameters : M unit :=
  bind_params (arg_lookup (remote_sql func)) 0%nat.

Definition clean_conn (ci : nat) : M unit :=
  conn <- get_conn ci ;;
  clear_held conn ;;
  modify_conn ci (fun c => set_bstate None (set_run_tag 0 (set_pos 0 (set_res None c)))).

(** Clean old results and prepare for new one *)
Definition plproxy_clean_results : M unit :=
  modify_cluster (fun cl => set_ret_cur_conn 0 (set_ret_total 0 cl)) ;;
  idxs <- conn_indices ;;
  for_each idxs clean_conn.

Definition is_query_canceled (e : PgError) : bool :=
  match e with
  | ERRCODE_QUERY_CANCELED => true
  | _ => false
  end.

(** Select partitions and execute query on them *)
Definition plproxy_exec (fuel : nat) : M unit :=
  try_catch_rethrow
    (modify_cluster (set_busy true) ;;
     (* clean old results *)
     plproxy_clean_results ;;
     (* tag the partitions and prepare per-partition parameters *)
     prepare_and_tag_partitions ;;
     (* prepare the target query parameters *)
     prepare_query_parameters ;;
     remote_execute fuel ;;
     modify_cluster (set_busy false))
    (fun e =>
       modify_cluster (set_busy false) ;;
       when (is_query_canceled e) remote_cancel ;;
       (* plproxy_remote_error() cannot clean itself, do it here *)
       plproxy_clean_results).

End Exec.

(** ** The shape of a cluster

    [part_count] is a power of two, [part_mask] is [part_count - 1], the
    partition map has [part_count] slots and every slot points into
    [conn_list]. *)
Definition cluster_ok (cl : ProxyCluster) : Prop :=
  (exists k, 0 <= k <= 30 /\ part_count cl = 2 ^ k) /\
  part_mask cl = part_count cl - 1 /\
  length (part_map cl) = Z.to_nat (part_count cl) /\
  Forall (fun ci => (ci < length (conn_list cl))%nat) (part_map cl).

(** ** Vocabulary of the statements *)

(** The state with its connection list replaced. *)
Definition with_conns (l : list ProxyConnection) (s : ExecState) : ExecState :=
  {| st_cluster := set_conn_list l (st_cluster s);
     st_tick := st_tick s;
     st_trace := st_trace s |}.

Definition conns (s : ExecState) : list ProxyConnection := conn_list (st_cluster s).

(** The hash value of a row of the hash query: column 1, when it is not
    NULL and of an integer type. *)
Definition hash_of_row (htype : Oid) (row : HeapTuple) : option Z :=
  let '(val, isnull) := SPI_getbinval row 1 in
  if isnull then None else hash_column htype val.

(** Tagging the connections [targets], one after the other. *)
Definition tag_all (tag : Z) (targets : list nat) (l : list ProxyConnection)
    : list ProxyConnection :=
  foldl (fun l ci => alter (set_run_tag tag) ci l) l targets.

(** ** A concrete cluster and world

    The four-partition cluster of the end-to-end scenarios:
    [part_map = [p0, p1, p2, p3]], [part_mask = 3], and the hash function
    [h(x) := x]. *)

Definition blank_conn (name : string) : ProxyConnection :=
  {| connstr := name; db := None; res := None; pos := 0; state := C_NONE;
     connect_time := 0; query_time := 0; same_ver := false; tuning := false;
     run_tag := 0; split_params := None; bstate := None;
     param_values := replicate FUNC_MAX_ARGS None;
     param_lengths := replicate FUNC_MAX_ARGS 0;
     param_formats := replicate FUNC_MAX_ARGS 0 |}.

Definition config0 : ProxyConfig :=
  {| connect_timeout := 0; query_timeout := 0; connection_lifetime := 0;
     disable_binary := 0 |}.

Definition cluster4 : ProxyCluster :=
  {| config := config0; part_count := 4; part_mask := 3;
     part_map := [0; 1; 2; 3]%nat;
     conn_list := [blank_conn "p0"; blank_conn "p1"; blank_conn "p2"; blank_conn "p3"];
     ret_cur_conn := 0; ret_cur_pos := 0; ret_total := 0; busy := false |}.

Definition state_of (cl : ProxyCluster) : ExecState :=
  {| st_cluster := cl; st_tick := 0; st_trace := [] |}.

Definition int4_type : ProxyType :=
  {| type_oid := INT4OID; has_send := true; has_recv := true; is_array := false;
     elem_type := InvalidOid |}.

Definition int4_array_type : ProxyType :=
  {| type_oid := 1007; has_send := true; has_recv := true; is_array := true;
     elem_type := INT4OID |}.

(** The rows [(i, a[i])] of the split hash query over an array, one per
    subscript, from the subscript [i] of the first element on. *)
Fixpoint subscript_rows (i : Z) (elems : list (Datum * bool)) : list HeapTuple :=
  match elems with
  | [] => []
  | (v, isnull) :: rest =>
      [Some i; if (isnull : bool) then None else Some v] :: subscript_rows (i + 1) rest
  end.

(** The identity hash: on a word the single row holding it, on an array one
    row [(i, a[i])] per subscript of the array, as [generate_subscripts]
    lists them: from the lower bound of the array on. *)
Definition identity_hash (args : list (option ArgDatum)) : SpiResult :=
  match args with
  | Some (DWord x) :: _ =>
      SPI_OK_SELECT {| tupdesc := [INT4OID]; vals := [[Some x]] |}
  | Some (DArray a) :: _ =>
      SPI_OK_SELECT {| tupdesc := [INT4OID; INT4OID];
                       vals := subscript_rows (ARR_LBOUND a) (arr_elems a) |}
  | _ => SPI_OK_SELECT {| tupdesc := [INT4OID]; vals := [[None]] |}
  end.

Definition tuples_result (n : Z) : PGresult :=
  {| PQresultStatus := PGRES_TUPLES_OK; PQntuples := n |}.

(** A world in which every connection attempt succeeds and the server has
    the local version and encoding; [results t] is what PQgetResult returns
    at tick [t], [interrupts t] what CHECK_FOR_INTERRUPTS finds, [polls]
    what poll(2) answers and [isbusy] what PQisBusy answers.  The clock
    advances one second per tick. *)
Definition world (results : nat -> option PGresult) (interrupts : nat -> option PgError)
    (polls : PollResult) (isbusy : bool) : Env :=
  {| env_gettimeofday := fun t => Z.of_nat t;
     env_PQflush := fun _ _ => 0;
     env_server_version := fun _ _ => Some "9.1.4";
     env_client_encoding := fun _ _ => Some "UTF8";
     env_database_encoding := "UTF8";
     env_PG_VERSION := "9.1.9";
     env_PQsendQuery := fun _ _ => 1;
     env_PQsendQueryParams := fun _ _ => 1;
     env_PQstatus := fun _ _ => CONNECTION_OK;
     env_PQconnectStart := fun _ _ => Some 7%nat;
     env_PQconnectPoll := fun _ _ => PGRES_POLLING_OK;
     env_PQconsumeInput := fun _ _ => 1;
     env_PQisBusy := fun _ _ => isbusy;
     env_PQgetResult := fun t _ => results t;
     env_PQgetCancel := fun _ _ => true;
     env_PQcancel := fun _ _ => 1;
     env_poll := fun _ _ _ => polls;
     env_interrupt := interrupts;
     env_random := fun _ => 0;
     env_SPI_execute_plan := fun _ _ args => identity_hash args;
     env_send_type := fun _ _ bin =>
       {| sp_value := "v"; sp_length := 1; sp_format := if (bin : bool) then 1 else 0 |} |}.

(** The world where, besides, every socket is ready at every poll and
    nothing interrupts. *)
Definition friendly_env (results : nat -> option PGresult) : Env :=
  world results (fun _ => None) (PollReady (fun _ => true)) false.

(** The server answers the query with one result of three tuples: it is
    what the first PQgetResult of the call returns (tick 17 of the run on
    [cluster4]), and PQgetResult returns NULL afterwards. *)
Definition served_env : Env :=
  friendly_env (fun t => if (t =? 17)%nat then Some (tuples_result 3) else None).

(** [create function f(x int) returns int ... run on h(x)] *)
Definition hash_func : ProxyFunction :=
  {| arg_types := [int4_type]; arg_count := 1; split_args := None;
     new_split := false; ret_scalar := Some int4_type; ret_composite := None;
     run_type := R_HASH;
     hash_sql := Some {| sql := "select * from h($1)"; arg_lookup := [0%nat] |};
     exact_nr := 0;
     remote_sql := {| sql := "select r::int4 from f($1) r"; arg_lookup := [0%nat] |} |}.

Definition call_with (x : Z) : FunctionCallInfo :=
  {| fc_args := [Some (DWord x)]; fn_retset := false |}.

(** The hash column of a row is NULL. *)
Definition hash_is_null (row : HeapTuple) : bool := snd (SPI_getbinval row 1).

Definition is_int_type (htype : Oid) : Prop :=
  htype = INT4OID \/ htype = INT8OID \/ htype = INT2OID.

(** The state in which a call ended, when it returned or raised. *)
Definition outcome_state {A} (o : outcome A) : option ExecState :=
  match o with
  | Ret _ s => Some s
  | Raise _ s => Some s
  | Crash => None
  | OutOfFuel => None
  end.

Definition final_state {A} (o : outcome A) (dflt : ExecState) : ExecState :=
  default dflt (outcome_state o).


(** What is claimed of [prepare_conn]: on return the connection is either
    ready, or freshly started with its connect time set to now, its tuning
    flag cleared and the notice receiver installed. *)
Definition prepare_conn_claim (env : Env) (fuel : nat) (ci : nat) (s : ExecState) : Prop :=
  forall s' conn',
    prepare_conn env fuel ci s = Ret tt s' ->
    conns s' !! ci = Some conn' ->
    state conn' = C_READY \/
    (state conn' = C_CONNECT_WRITE /\
     connect_time conn' = env_gettimeofday env (st_tick s) /\
     tuning conn' = false /\
     last (st_trace s') = Some (EvPQsetNoticeReceiver (db conn'))).

(** A cluster of one partition whose connection has no handle yet but still
    carries the tuning flag. *)
Definition tuned_cluster : ProxyCluster :=
  {| config := config0; part_count := 1; part_mask := 0;
     part_map := [0%nat];
     conn_list := [set_tuning true (blank_conn "p0")];
     ret_cur_conn := 0; ret_cur_pos := 0; ret_total := 0; busy := false |}.

(** The pairing of armed connections and results that the final pass of
    [remote_execute] checks: an armed connection is done and holds a
    TUPLES_OK result, and a connection that holds a result is armed. *)
Definition paired (conn : ProxyConnection) : Prop :=
  (run_tag conn <> 0 ->
   state conn = C_DONE /\
   exists r, res conn = Some r /\ PQresultStatus r = PGRES_TUPLES_OK) /\
  (res conn <> None -> run_tag conn <> 0).

(** [run_tag] and the presence of a result disagree. *)
Definition mismatched (conn : ProxyConnection) : Prop :=
  (run_tag conn <> 0 /\ res conn = None) \/ (run_tag conn = 0 /\ res conn <> None).



(** A world where the server never answers: every poll(2) times out with no
    descriptor ready, nothing interrupts, and the clock runs. *)
Definition silent_env : Env := world (fun _ => None) (fun _ => None) PollTimeout true.

(** A world where the answer never completes but the socket keeps reporting
    events: poll(2) returns at once and PQisBusy stays true. *)
Definition noisy_env : Env :=
  world (fun _ => None) (fun _ => None) (PollReady (fun _ => true)) true.

(** One partition with a healthy cached connection and a query timeout of
    one second. *)
Definition waiting_cluster : ProxyCluster :=
  {| config := {| connect_timeout := 0; query_timeout := 1; connection_lifetime := 0;
                  disable_binary := 0 |};
     part_count := 1; part_mask := 0;
     part_map := [0%nat];
     conn_list := [set_state C_READY (set_db (Some 7%nat) (blank_conn "p0"))];
     ret_cur_conn := 0; ret_cur_pos := 0; ret_total := 0; busy := false |}.

(** ** Vocabulary of the split planner *)

(** [split_value] on one connection: the column loop on its build states,
    allocated on first use. *)
Definition split_conn (func : ProxyFunction) (arrays : list (option DatumArray))
    (row : Z) (c : ProxyConnection) : option ProxyConnection :=
  let bs :=
    match bstate c with
    | Some bs => bs
    | None => replicate (arg_count func) None
    end in
  match split_columns func arrays row (seq 0 (arg_count func)) bs with
  | Some bs' => Some (set_bstate (Some bs') c)
  | None => None
  end.

(** Routing element [r] (counted from 0) whose hash value is [h]: the
    connection [part_map[h & part_mask]] gets the tag [r + 1] and the
    elements of row [r].  [None] is a fault. *)
Definition route_row (func : ProxyFunction) (arrays : list (option DatumArray))
    (pmap : list nat) (mask : Z) (r : nat) (h : Z)
    (l : list ProxyConnection) : option (list ProxyConnection) :=
  match lookupZ pmap (part_index (to_uint32 h) mask) with
  | None => None
  | Some ci =>
      match l !! ci with
      | None => None
      | Some c =>
          match split_conn func arrays (Z.of_nat r) (set_run_tag (Z.of_nat r + 1) c) with
          | Some c' => Some (<[ci := c']> l)
          | None => None
          end
      end
  end.

Fixpoint route_rows (func : ProxyFunction) (arrays : list (option DatumArray))
    (pmap : list nat) (mask : Z) (hash : nat -> Z) (rows : list nat)
    (l : list ProxyConnection) : option (list ProxyConnection) :=
  match rows with
  | [] => Some l
  | r :: rest =>
      match route_row func arrays pmap mask r (hash r) l with
      | Some l' => route_rows func arrays pmap mask hash rest l'
      | None => None
      end
  end.

(** The row [(i, hash)] that the split hash query returns for element [r]
    of an array whose subscripts start at 1. *)
Definition subscript_row (hd : nat -> Datum) (r : nat) : HeapTuple :=
  [Some (Z.of_nat r + 1); Some (hd r)].

(** Every tag lies between 0 and [a]. *)
Definition tags_le (a : Z) (l : list ProxyConnection) : Prop :=
  forall c, c ∈ l -> 0 <= run_tag c <= a.

Definition with_tick (n : nat) (s : ExecState) : ExecState :=
  {| st_cluster := st_cluster s; st_tick := n; st_trace := st_trace s |}.

(** Every split array has [len] elements. *)
Definition arrays_ok (func : ProxyFunction) (arrays : list (option DatumArray))
    (len : nat) : Prop :=
  forall col, IS_SPLIT_ARG func col = true ->
    exists da, arrays !! col = Some (Some da) /\
               length (da_values da) = len /\ length (da_nulls da) = len.

(** The build states of a connection, when allocated, have one slot per
    argument. *)
Definition bstate_ok (func : ProxyFunction) (c : ProxyConnection) : Prop :=
  match bstate c with
  | None => True
  | Some bs => length bs = arg_count func
  end.

(** The connection that element [r] is routed to. *)
Definition routed_to (pmap : list nat) (mask : Z) (hash : nat -> Z) (r : nat) : option nat :=
  lookupZ pmap (part_index (to_uint32 (hash r)) mask).



(** [create function f(xs int[]) ... split xs; run on h(xs)], compiled for
    the single split query and for one hash query per element. *)
Definition split_func_new : ProxyFunction :=
  {| arg_types := [int4_array_type]; arg_count := 1; split_args := Some [true];
     new_split := true; ret_scalar := Some int4_type; ret_composite := None;
     run_type := R_HASH;
     hash_sql := Some {| sql := "select i, h($1[i]) from generate_subscripts($1, 1) i";
                         arg_lookup := [0%nat] |};
     exact_nr := 0;
     remote_sql := {| sql := "select r::int4 from f($1) r"; arg_lookup := [0%nat] |} |}.

Definition split_func_old : ProxyFunction :=
  {| arg_types := [int4_array_type]; arg_count := 1; split_args := Some [true];
     new_split := false; ret_scalar := Some int4_type; ret_composite := None;
     run_type := R_HASH;
     hash_sql := Some {| sql := "select * from h($1)"; arg_lookup := [0%nat] |};
     exact_nr := 0;
     remote_sql := {| sql := "select r::int4 from f($1) r"; arg_lookup := [0%nat] |} |}.

(** The split array [{1,5,9}] of scenario 3. *)
Definition xs159 : ArrayType :=
  {| ARR_NDIM := 1; ARR_LBOUND := 1; arr_elems := [(1, false); (5, false); (9, false)] |}.

Definition split_call : FunctionCallInfo :=
  {| fc_args := [Some (DArray xs159)]; fn_retset := false |}.

Definition split_arrays : list (option DatumArray) :=
  [Some (make_datum_array (Some xs159))].

Definition xs159_elem (r : nat) : Z := nth r [1; 5; 9] 0.

(** The same elements under subscripts that start at [lb]: the array
    ['[0:2]={1,5,9}'] for [lb = 0], ['[2:4]={1,5,9}'] for [lb = 2]. *)
Definition xs159_from (lb : Z) : ArrayType :=
  {| ARR_NDIM := 1; ARR_LBOUND := lb; arr_elems := [(1, false); (5, false); (9, false)] |}.

Definition split_call_from (lb : Z) : FunctionCallInfo :=
  {| fc_args := [Some (DArray (xs159_from lb))]; fn_retset := false |}.

(** An array of the elements [elems], as [makeArrayResult] builds it. *)
Definition built_array (elems : list Datum) : ArgDatum :=
  DArray {| ARR_NDIM := 1; ARR_LBOUND := 1; arr_elems := map (fun v => (v, false)) elems |}.


(** * Further vocabulary *)

(** ** The branch of a version *)

(** The part of a version string before its second dot ("MAJ.MIN"); [dot]
    tells whether one dot was already passed. *)
Fixpoint branch_from (dot : bool) (s : string) : string :=
  match s with
  | EmptyString => EmptyString
  | String c rest =>
      if is_dot c then (if dot then EmptyString else String c (branch_from true rest))
      else String c (branch_from dot rest)
  end.

Definition branch (s : string) : string := branch_from false s.

(** ** Frames

    What a stretch of code leaves alone.  [frame]: everything of the
    cluster but the contents of [conn_list].  [call_fields_eq]: the
    per-call tagging and parameters of a connection, its connect string and
    its cursor. *)
Definition frame (s s' : ExecState) : Prop :=
  config (st_cluster s') = config (st_cluster s) /\
  part_count (st_cluster s') = part_count (st_cluster s) /\
  part_mask (st_cluster s') = part_mask (st_cluster s) /\
  part_map (st_cluster s') = part_map (st_cluster s) /\
  ret_cur_conn (st_cluster s') = ret_cur_conn (st_cluster s) /\
  ret_cur_pos (st_cluster s') = ret_cur_pos (st_cluster s) /\
  ret_total (st_cluster s') = ret_total (st_cluster s) /\
  busy (st_cluster s') = busy (st_cluster s) /\
  length (conns s') = length (conns s).

Definition call_fields_eq (c c' : ProxyConnection) : Prop :=
  connstr c' = connstr c /\ pos c' = pos c /\ run_tag c' = run_tag c /\
  split_params c' = split_params c /\ bstate c' = bstate c /\
  param_values c' = param_values c /\ param_lengths c' = param_lengths c /\
  param_formats c' = param_formats c.

(** Only connection [ci] changed, and not in its per-call fields. *)
Definition only_conn (ci : nat) (s s' : ExecState) : Prop :=
  frame s s' /\
  (forall j, j <> ci -> conns s' !! j = conns s !! j) /\
  (forall c, conns s !! ci = Some c ->
     exists c', conns s' !! ci = Some c' /\ call_fields_eq c c').

(** No connection changed in its per-call fields, and the connections that
    are not armed did not change at all. *)
Definition driver_rel (s s' : ExecState) : Prop :=
  frame s s' /\
  forall i c, conns s !! i = Some c ->
    exists c', conns s' !! i = Some c' /\ call_fields_eq c c' /\
               (run_tag c = 0 -> c' = c).

(** [R] holds between the state before and the state in which the
    computation returned or raised. *)
Definition post {A} (R : ExecState -> ExecState -> Prop) (m : M A) : Prop :=
  forall s,
    match m s with
    | Ret _ s' => R s s'
    | Raise _ s' => R s s'
    | Crash => True
    | OutOfFuel => True
    end.

(** Relations that compose and that a question to the outside world
    keeps. *)
Class WorldRel (R : ExecState -> ExecState -> Prop) : Prop := {
  wr_refl : forall s, R s s;
  wr_trans : forall s1 s2 s3, R s1 s2 -> R s2 s3 -> R s1 s3;
  wr_tick : forall s t, R s (with_tick t s)
}.

(** Relations that an event sent to the outside world keeps. *)
Class TraceRel (R : ExecState -> ExecState -> Prop) : Prop := {
  wr_trace : forall s tr,
    R s {| st_cluster := st_cluster s; st_tick := st_tick s; st_trace := tr |}
}.

(** The configuration and the partition map, and the number of
    connections. *)
Definition shape (s s' : ExecState) : Prop :=
  config (st_cluster s') = config (st_cluster s) /\
  part_count (st_cluster s') = part_count (st_cluster s) /\
  part_mask (st_cluster s') = part_mask (st_cluster s) /\
  part_map (st_cluster s') = part_map (st_cluster s) /\
  length (conns s') = length (conns s).

(** What [remote_execute] as a whole keeps: the shape, the busy flag and
    the result cursor, the per-call fields of every connection and all of
    the connections that are not armed. *)
Definition exec_rel (s s' : ExecState) : Prop :=
  shape s s' /\
  busy (st_cluster s') = busy (st_cluster s) /\
  ret_cur_conn (st_cluster s') = ret_cur_conn (st_cluster s) /\
  forall i c, conns s !! i = Some c ->
    exists c', conns s' !! i = Some c' /\ call_fields_eq c c' /\
               (run_tag c = 0 -> c' = c).

Definition armed (ci : nat) (s : ExecState) : Prop :=
  exists c, conns s !! ci = Some c /\ run_tag c <> 0.

Definition post_at {A} (R : ExecState -> ExecState -> Prop) (m : M A)
    (s : ExecState) : Prop :=
  match m s with
  | Ret _ s' => R s s'
  | Raise _ s' => R s s'
  | Crash => True
  | OutOfFuel => True
  end.

(** The rows held by a connection. *)
Definition rows_of (c : ProxyConnection) : Z :=
  match res c with
  | Some r => PQntuples r
  | None => 0
  end.

Fixpoint sum_rows (l : list ProxyConnection) : Z :=
  match l with
  | [] => 0
  | c :: rest => rows_of c + sum_rows rest
  end.

(** The shape and the busy flag. *)
Definition shape_busy (s s' : ExecState) : Prop :=
  shape s s' /\ busy (st_cluster s') = busy (st_cluster s).

(** The lifecycle of a connection: its handle, its result, its state and
    what was learnt about the server. *)
Definition lifecycle_eq (c c' : ProxyConnection) : Prop :=
  connstr c' = connstr c /\ db c' = db c /\ res c' = res c /\ pos c' = pos c /\
  state c' = state c /\ connect_time c' = connect_time c /\
  query_time c' = query_time c /\ same_ver c' = same_ver c /\ tuning c' = tuning c.

(** What the planning stages keep: the frame and the lifecycle of every
    connection. *)
Definition plan_rel (s s' : ExecState) : Prop :=
  frame s s' /\
  st_trace s' = st_trace s /\
  forall i c, conns s !! i = Some c ->
    exists c', conns s' !! i = Some c' /\ lifecycle_eq c c'.

(** The rows held at the indices [idxs] of a connection list. *)
Definition rows_at (l : list ProxyConnection) (i : nat) : Z :=
  match l !! i with
  | Some c => rows_of c
  | None => 0
  end.

Fixpoint sum_rows_at (l : list ProxyConnection) (idxs : list nat) : Z :=
  match idxs with
  | [] => 0
  | i :: rest => rows_at l i + sum_rows_at l rest
  end.

(** Two partitions that are done, each holding a result of two thousand
    million rows. *)
Definition counted_cluster : ProxyCluster :=
  let done name :=
    set_res (Some (tuples_result 2000000000))
      (set_state C_DONE (set_run_tag 1 (blank_conn name))) in
  {| config := config0; part_count := 2; part_mask := 1;
     part_map := [0; 1]%nat;
     conn_list := [done "p0"; done "p1"];
     ret_cur_conn := 0; ret_cur_pos := 0; ret_total := 0; busy := false |}.

(** ** Vocabulary of the connection driver *)

(** The edges of the connection state machine that [handle_conn] follows;
    a query that was a tuning query ends in [C_READY], the function's query
    in [C_DONE]. *)
Definition conn_edge (tuning : bool) (st st' : ConnState) : bool :=
  match st, st' with
  | C_CONNECT_READ, (C_CONNECT_READ | C_CONNECT_WRITE | C_READY) => true
  | C_CONNECT_WRITE, (C_CONNECT_READ | C_CONNECT_WRITE | C_READY) => true
  | C_QUERY_WRITE, (C_QUERY_WRITE | C_QUERY_READ) => true
  | C_QUERY_READ, C_QUERY_READ => true
  | C_QUERY_READ, C_READY => tuning
  | C_QUERY_READ, C_DONE => negb tuning
  | C_NONE, C_NONE => true
  | C_DONE, C_DONE => true
  | C_READY, C_READY => true
  | _, _ => false
  end.

(** The connection is as it was, or it held no result and now holds one
    tuple result. *)
Definition fetched (c c' : ProxyConnection) : Prop :=
  c' = c \/
  (res c = None /\ exists r, PQresultStatus r = PGRES_TUPLES_OK /\ c' = set_res (Some r) c).

(** The events that a stretch of code added to the trace. *)
Definition new_events (s s' : ExecState) : list Event :=
  drop (length (st_trace s)) (st_trace s').

(** The connection is in the middle of connecting or of a query. *)
Definition in_flight (st : ConnState) : bool :=
  match st with
  | C_NONE | C_READY | C_DONE => false
  | _ => true
  end.

(** The cancel requests for the connections of [l] that are in flight, in
    connection order. *)
Definition cancel_events (l : list ProxyConnection) : list Event :=
  flat_map (fun c => if in_flight (state c) then [EvPQcancel (db c)] else []) l.

(** The connection is being established, or a query runs on it. *)
Definition connecting (c : ProxyConnection) : Prop :=
  state c = C_CONNECT_READ \/ state c = C_CONNECT_WRITE.

Definition querying (c : ProxyConnection) : Prop :=
  state c = C_QUERY_READ \/ state c = C_QUERY_WRITE.

(** ** Vocabulary of the split contents *)

(** Element [r] of a deconstructed array, with its null flag. *)
Definition elem_at (da : DatumArray) (r : nat) : option (Datum * bool) :=
  match da_values da !! r, da_nulls da !! r with
  | Some v, Some n => Some (v, n)
  | _, _ => None
  end.

(** The elements of the rows [rows] of the split column [col], in that
    order. *)
Definition col_elems (arrays : list (option DatumArray)) (col : nat)
    (rows : list nat) : ArrayBuildState :=
  match arrays !! col with
  | Some (Some da) => omap (elem_at da) rows
  | _ => []
  end.

(** The build states of a connection that was given the rows [rows]: not
    allocated when it was given none; else one slot per argument, every
    split column holding the elements of these rows and every other column
    empty. *)
Definition holds_rows (func : ProxyFunction) (arrays : list (option DatumArray))
    (rows : list nat) (c : ProxyConnection) : Prop :=
  match rows with
  | [] => bstate c = None
  | _ :: _ =>
      exists bs, bstate c = Some bs /\ length bs = arg_count func /\
        forall col, (col < arg_count func)%nat ->
          bs !! col = Some (if IS_SPLIT_ARG func col
                            then Some (col_elems arrays col rows) else None)
  end.

(** The rows among [rows] whose hash routes them to connection [ci]. *)
Definition rows_of_conn (pmap : list nat) (mask : Z) (hash : nat -> Z) (ci : nat)
    (rows : list nat) : list nat :=
  filter (fun r => routed_to pmap mask hash r = Some ci) rows.

(** ** Vocabulary of the split arguments *)

(** The array passed as argument [i]; [None] for SQL NULL. *)
Definition arg_array (fcinfo : FunctionCallInfo) (i : nat) : option ArrayType :=
  match mjoin (fc_args fcinfo !! i) with
  | Some (DArray a) => Some a
  | _ => None
  end.

(** The deconstructed array of split argument [i]. *)
Definition split_array (func : ProxyFunction) (fcinfo : FunctionCallInfo) (i : nat)
    : option DatumArray :=
  if IS_SPLIT_ARG func i then Some (make_datum_array (arg_array fcinfo i)) else None.

(** The number of elements of split argument [i]; a NULL array has none. *)
Definition split_len (fcinfo : FunctionCallInfo) (i : nat) : Z :=
  elem_count (make_datum_array (arg_array fcinfo i)).

(** The split arguments among [cols]. *)
Definition split_cols (func : ProxyFunction) (cols : list nat) : list nat :=
  filter (fun i => IS_SPLIT_ARG func i = true) cols.

(** Argument [i] is passed a by-value word where an array is expected. *)
Definition not_an_array (fcinfo : FunctionCallInfo) (i : nat) : Prop :=
  exists d, mjoin (fc_args fcinfo !! i) = Some (DWord d).

(** Argument [i] is passed an array of more than one dimension. *)
Definition multi_dim (fcinfo : FunctionCallInfo) (i : nat) : Prop :=
  exists a, mjoin (fc_args fcinfo !! i) = Some (DArray a) /\ 1 < ARR_NDIM a.

(** The [split_args] flags name arguments of the function only. *)
Definition split_args_ok (func : ProxyFunction) : Prop :=
  forall col, IS_SPLIT_ARG func col = true -> (col < arg_count func)%nat.

(** ** Vocabulary of the query parameters *)

(** The value of argument [idx] as connection [c] is to send it: its split
    array for a split argument, the caller's value for any other. *)
Definition arg_datum (func : ProxyFunction) (fcinfo : FunctionCallInfo)
    (c : ProxyConnection) (idx : nat) : option ArgDatum :=
  if IS_SPLIT_ARG func idx then split_params c ≫= (fun ps => ps !! idx)
  else mjoin (fc_args fcinfo !! idx).

(** [(v, l, f)] is the wire form of argument [idx] on connection [c]: NULL
    with length and format zero, or what [plproxy_send_type] makes of the
    value. *)
Definition bound_to (env : Env) (func : ProxyFunction) (fcinfo : FunctionCallInfo)
    (bin : bool) (c : ProxyConnection) (idx : nat)
    (v : option string) (l f : Z) : Prop :=
  if PG_ARGISNULL fcinfo idx then v = None /\ l = 0 /\ f = 0
  else
    exists ty d,
      arg_types func !! idx = Some ty /\
      arg_datum func fcinfo c idx = Some d /\
      v = Some (sp_value (env_send_type env ty d bin)) /\
      l = sp_length (env_send_type env ty d bin) /\
      f = sp_format (env_send_type env ty d bin).

(** Slot [i] of the three parameter arrays of a connection. *)
Definition slot (c : ProxyConnection) (i : nat) : option (option string * Z * Z) :=
  match param_values c !! i, param_lengths c !! i, param_formats c !! i with
  | Some v, Some l, Some f => Some (v, l, f)
  | _, _, _ => None
  end.

(** [c'] is [c] but for its three parameter arrays. *)
Definition same_but_params (c c' : ProxyConnection) : Prop :=
  c' = set_params (param_values c') (param_lengths c') (param_formats c') c.

(** One round of the partition loop of [prepare_query_parameters] on a
    connection: untouched when it is not tagged, else slot [i] of its
    parameter arrays is overwritten with the wire form of argument [idx]. *)
Definition param_set (env : Env) (func : ProxyFunction) (fcinfo : FunctionCallInfo)
    (bin : bool) (i idx : nat) (c c' : ProxyConnection) : Prop :=
  if run_tag c =? 0 then c' = c
  else
    exists v l f,
      bound_to env func fcinfo bin c idx v l f /\
      store (param_values c) i v = Some (param_values c') /\
      store (param_lengths c) i l = Some (param_lengths c') /\
      store (param_formats c) i f = Some (param_formats c') /\
      same_but_params c c'.

(** The tag that the split leaves on a connection that was given the rows
    [rows]: the 1-based index of the last of them, 0 when there is none. *)
Definition tag_of_rows (rows : list nat) : Z :=
  match last rows with
  | Some r => Z.of_nat r + 1
  | None => 0
  end.

(** The split parameters made of the rows [rows]: for every split argument
    the one-dimensional array of its elements at these rows, for any other
    argument the NULL pointer. *)
Definition params_of_rows (func : ProxyFunction) (arrays : list (option DatumArray))
    (rows : list nat) (ps : list ArgDatum) : Prop :=
  length ps = arg_count func /\
  forall col, (col < arg_count func)%nat ->
    ps !! col = Some (if IS_SPLIT_ARG func col
                      then DArray {| ARR_NDIM := 1; ARR_LBOUND := 1;
                                      arr_elems := col_elems arrays col rows |}
                      else DWord 0).

(** ** Vocabulary of the poll loop *)

(** The connection gets a descriptor in [poll_conns]: it is tagged and
    waits for reading or writing. *)
Definition registered (c : ProxyConnection) : bool :=
  negb (run_tag c =? 0) &&
  match poll_interest (state c) with
  | Some _ => true
  | None => false
  end.

(** The slot of connection [i] in the descriptor array: the number of
    descriptors of the connections before it. *)
Definition pollfd_index (l : list ProxyConnection) (i : nat) : nat :=
  length (build_pollfds (take i l)).

(** poll(2) reported an event on the descriptor of connection [i]. *)
Definition has_event (l : list ProxyConnection) (revents : nat -> bool) (i : nat) : bool :=
  match l !! i with
  | Some c => registered c && revents (pollfd_index l i)
  | None => false
  end.

(** ** Further scenarios *)

(** The four-partition cluster after the hash tagging of the call [f(6)]:
    partition 2 carries the tag. *)
Definition tagged_state : ExecState :=
  {| st_cluster :=
       set_conn_list (<[2%nat := set_run_tag 1 (blank_conn "p2")]> (conn_list cluster4)) cluster4;
     st_tick := 1;
     st_trace := [] |}.

(** One partition whose connection reads the answer to its query, with a
    query timeout of one second. *)
Definition reading_cluster : ProxyCluster :=
  {| config := {| connect_timeout := 0; query_timeout := 1; connection_lifetime := 0;
                  disable_binary := 0 |};
     part_count := 1; part_mask := 0;
     part_map := [0%nat];
     conn_list := [set_run_tag 1 (set_state C_QUERY_READ
                                    (set_db (Some 7%nat) (blank_conn "p0")))];
     ret_cur_conn := 0; ret_cur_pos := 0; ret_total := 0; busy := false |}.

(** The server's answer arrives with the first PQgetResult of
    [handle_conn] (tick 2), and PQgetResult returns NULL afterwards. *)
Definition answering_env : Env :=
  friendly_env (fun t => if (t =? 2)%nat then Some (tuples_result 3) else None).

(** [create function f(x int) returns int ... run on all / any / <nr>] *)
Definition run_on (rt : RunOnType) (nr : Z) : ProxyFunction :=
  {| arg_types := [int4_type]; arg_count := 1; split_args := None;
     new_split := false; ret_scalar := Some int4_type; ret_composite := None;
     run_type := rt; hash_sql := None; exact_nr := nr;
     remote_sql := {| sql := "select r::int4 from f($1) r"; arg_lookup := [0%nat] |} |}.

(** * query.c: SQL statement generation

    The buffer functions are pure: they are embedded as functions from the
    buffer to a result that is a value, an [elog(ERROR)] or a fault (a read
    or write outside an array, a NULL dereference). *)

Inductive qresult (A : Type) :=
| QRet (a : A)
| QRaise (msg : string)
| QFault.

Arguments QRet {A} a.
Arguments QRaise {A} msg.
Arguments QFault {A}.

(** [struct ArgRef] *)
Record ArgRef := {
  ref_end : nat;
  ref_sql_idx : nat
}.

(** [struct QueryBuffer].  [arg_lookup] is allocated for [func->arg_count]
    entries and [refs] has FUNC_MAX_ARGS entries; the lists hold the
    [arg_count] and [ref_count] entries written so far. *)
Record QueryBuffer := {
  qb_sql : string;
  qb_arg_lookup : list nat;
  qb_add_types : bool;
  qb_track_refs : bool;
  qb_refs : list ArgRef
}.

(** The names that query.c prints.  In plproxy.h they are fields of
    [ProxyFunction], [ProxyType] and [ProxyComposite]; execute.c reads none
    of them, and they are kept here beside the records above. *)
Record QueryNames := {
  func_name : string;                    (* func->name *)
  arg_type_names : list string;          (* func->arg_types[i]->name *)
  ret_scalar_name : string;              (* func->ret_scalar->name *)
  ret_columns : list (string * string);  (* t->name_list[i], t->type_list[i]->name *)
  dynamic_record : bool                  (* func->dynamic_record *)
}.

(** PostgreSQL's NAMEDATALEN (pg_config_manual.h). *)
Definition NAMEDATALEN : nat := 64%nat.

(** [printf("%d")] of a number that is not negative. *)
Fixpoint decimal_from (fuel n : nat) (acc : string) : string :=
  match fuel with
  | O => acc
  | S fuel' =>
      let acc' := String (ascii_of_nat (48 + n mod 10)) acc in
      if (n / 10 =? 0)%nat then acc' else decimal_from fuel' (n / 10) acc'
  end.

Definition decimal (n : nat) : string := decimal_from (S n) n "".

(** [snprintf(tmp, size, ...)]: at most [size - 1] characters are kept. *)
Definition snprintf (size : nat) (text : string) : string :=
  String.substring 0 (size - 1) text.

(** [ident[0] == '$'] *)
Definition starts_with_dollar (ident : string) : bool :=
  match ident with
  | String c _ => Ascii.eqb c "$"%char
  | EmptyString => false
  end.

(** The search loop of [plproxy_query_add_ident]: the first [i] with
    [arg_lookup[i] == fn_idx], counted from [i]. *)
Fixpoint lookup_pos (fn_idx : nat) (l : list nat) (i : nat) : option nat :=
  match l with
  | [] => None
  | x :: rest => if (x =? fn_idx)%nat then Some i else lookup_pos fn_idx rest (S i)
  end.

(** The search loop of [plproxy_split_query]: the first [i] with
    [split_args[i]], counted from [i]. *)
Fixpoint first_true (l : list bool) (i : nat) : option nat :=
  match l with
  | [] => None
  | b :: rest => if b then Some i else first_true rest (S i)
  end.

Section Query.

Variable func : ProxyFunction.
Variable names : QueryNames.

(** function.c is absent: [plproxy_get_parameter_index] is any function
    from identifiers to argument numbers, negative for an identifier that
    is no argument. *)
Variable plproxy_get_parameter_index : string -> Z.

(** Prepare temporary structure for query generation. *)
Definition plproxy_query_start (add_types track_refs : bool) : QueryBuffer :=
  {| qb_sql := ""; qb_arg_lookup := []; qb_add_types := add_types;
     qb_track_refs := track_refs; qb_refs := [] |}.

(** Add string fragment to query. *)
Definition plproxy_query_add_const (q : QueryBuffer) (data : string) : bool * QueryBuffer :=
  (true,
   {| qb_sql := (qb_sql q ++ data)%string; qb_arg_lookup := qb_arg_lookup q;
      qb_add_types := qb_add_types q; qb_track_refs := qb_track_refs q;
      qb_refs := qb_refs q |}).

(** Helper for adding a parameter reference to the query; [None] when
    [func->arg_types[fn_idx]] is read past the array. *)
Definition add_ref (buf : string) (sql_idx fn_idx : nat) (add_type : bool) : option string :=
  let size := (1 + 3 + 2 + NAMEDATALEN * 2 + 1)%nat in
  if add_type then
    match arg_type_names names !! fn_idx with
    | Some name =>
        Some (buf ++ snprintf size ("$" ++ decimal (sql_idx + 1) ++ "::" ++ name))%string
    | None => None
    end
  else Some (buf ++ snprintf size ("$" ++ decimal (sql_idx + 1)))%string.

(** [sql_idx = q->arg_count++; q->arg_lookup[sql_idx] = fn_idx]; [None]
    when the write is past the allocated entries. *)
Definition push_arg (lookup : list nat) (fn_idx : nat) : option (nat * list nat) :=
  if (length lookup <? arg_count func)%nat
  then Some (length lookup, lookup ++ [fn_idx])
  else None.

(** Add a SQL identifier to the query that may possibly be a parameter
    reference. *)
Definition plproxy_query_add_ident (q : QueryBuffer) (ident : string)
    : qresult (bool * QueryBuffer) :=
  let fn_idx := plproxy_get_parameter_index ident in
  if 0 <=? fn_idx then
    let fn_idx := Z.to_nat fn_idx in
    let found :=
      match lookup_pos fn_idx (qb_arg_lookup q) 0 with
      | Some i => Some (i, qb_arg_lookup q)
      | None => push_arg (qb_arg_lookup q) fn_idx
      end in
    match found with
    | None => QFault
    | Some (sql_idx, lookup) =>
        match add_ref (qb_sql q) sql_idx fn_idx (qb_add_types q) with
        | None => QFault
        | Some sql' =>
            if qb_track_refs q then
              if (FUNC_MAX_ARGS <=? length (qb_refs q))%nat
              then QRaise "too many args to hash func"
              else
                QRet (true,
                      {| qb_sql := sql'; qb_arg_lookup := lookup;
                         qb_add_types := qb_add_types q; qb_track_refs := qb_track_refs q;
                         qb_refs := qb_refs q ++
                                    [{| ref_end := String.length sql';
                                        ref_sql_idx := sql_idx |}] |})
            else
              QRet (true,
                    {| qb_sql := sql'; qb_arg_lookup := lookup;
                       qb_add_types := qb_add_types q; qb_track_refs := qb_track_refs q;
                       qb_refs := qb_refs q |})
        end
    end
  else if starts_with_dollar ident then QRet (false, q)
  else
    QRet (true,
          {| qb_sql := (qb_sql q ++ ident)%string; qb_arg_lookup := qb_arg_lookup q;
             qb_add_types := qb_add_types q; qb_track_refs := qb_track_refs q;
             qb_refs := qb_refs q |}).

(** Create a ProxyQuery based on temporary QueryBuffer. *)
Definition plproxy_query_finish (q : QueryBuffer) : ProxyQuery :=
  {| sql := qb_sql q; arg_lookup := qb_arg_lookup q |}.

(** The column loops of [plproxy_standard_query]: [name sep type] for
    every column, after the first with a leading [", "]. *)
Fixpoint column_list (sep : string) (cols : list (string * string)) (i : nat) : string :=
  match cols with
  | [] => ""
  | (name, type) :: rest =>
      ((if (0 <? i)%nat then ", " else "") ++ name ++ sep ++ type
       ++ column_list sep rest (S i))%string
  end.

(** The argument loop of [plproxy_standard_query] from argument [i] on. *)
Fixpoint standard_args (n i : nat) (add_types : bool) (sql : string) (lookup : list nat)
    : option (string * list nat) :=
  match n with
  | O => Some (sql, lookup)
  | S n' =>
      let sql := if (0 <? i)%nat then (sql ++ ",")%string else sql in
      match add_ref sql i i add_types with
      | Some sql' => standard_args n' (S i) add_types sql' (lookup ++ [i])
      | None => None
      end
  end.

(** Generate a function call based on own signature. *)
Definition plproxy_standard_query (add_types : bool) : qresult ProxyQuery :=
  let sql := "select " in
  (* try to fill in all result column names *)
  let sql1 :=
    match ret_composite func with
    | Some _ => Some (sql ++ column_list "::" (ret_columns names) 0)%string
    | None =>
        (* names not available, do a simple query *)
        match ret_scalar func with
        | Some _ => Some (sql ++ "r::" ++ ret_scalar_name names)%string
        | None => None
        end
    end in
  match sql1 with
  | None => QFault
  | Some sql1 =>
      (* function call *)
      let sql2 := (sql1 ++ " from " ++ func_name names ++ "(")%string in
      (* fill in function arguments *)
      match standard_args (arg_count func) 0 add_types sql2 [] with
      | None => QFault
      | Some (sql3, lookup) =>
          let sql4 := (sql3 ++ ")")%string in
          (* Untyped RECORD needs types specified in AS (..) clause. *)
          let sql5 :=
            if dynamic_record names then
              match ret_composite func with
              | Some _ =>
                  Some (sql4 ++ " as (" ++ column_list " " (ret_columns names) 0 ++ ")")%string
              | None => None
              end
            else Some sql4 in
          match sql5 with
          | None => QFault
          | Some sql5 =>
              let sql6 :=
                match ret_scalar func with
                | Some _ => (sql5 ++ " r")%string
                | None => sql5
                end in
              QRet {| sql := sql6; arg_lookup := lookup |}
          end
      end
  end.

(** [func->split_args[i]], read without the NULL test of IS_SPLIT_ARG. *)
Definition split_arg_at (i : nat) : option bool :=
  match split_args func with
  | Some sa => sa !! i
  | None => None
  end.

(** The loop of [plproxy_split_query] over the references: copies the text
    up to each reference and marks the references to split arguments. *)
Fixpoint split_refs (sql : string) (lookup : list nat) (refs : list ArgRef)
    (pos : nat) (buf : string) (first_split : option nat)
    : option (string * nat * option nat) :=
  match refs with
  | [] => Some (buf, pos, first_split)
  | ref :: rest =>
      if (pos <=? ref_end ref)%nat && (ref_end ref <=? String.length sql)%nat then
        let buf := (buf ++ String.substring pos (ref_end ref - pos) sql)%string in
        match lookup !! ref_sql_idx ref with
        | None => None
        | Some fn_idx =>
            match split_arg_at fn_idx with
            | None => None
            | Some true =>
                split_refs sql lookup rest (ref_end ref) (buf ++ "[i]")%string
                  (match first_split with
                   | Some k => Some k
                   | None => Some (ref_sql_idx ref)
                   end)
            | Some false => split_refs sql lookup rest (ref_end ref) buf first_split
            end
        end
      else None
  end.

(** Hack to calculate split hashes with one sql (the text for
    PG_VERSION_NUM >= 80400). *)
Definition plproxy_split_query (q : QueryBuffer) : qresult ProxyQuery :=
  if negb (qb_track_refs q) then QRaise "split hack needs refs"
  else
    let s := "select * from " in
    let pos :=
      if String.prefix s (qb_sql q) then String.length s else String.length "select " in
    match split_refs (qb_sql q) (qb_arg_lookup q) (qb_refs q) pos "select i, " None with
    | None => QFault
    | Some (buf, pos, first_split) =>
        (* if no arrays go to hash func, add it *)
        let added :=
          match first_split with
          | Some k => QRet (k, qb_arg_lookup q)
          | None =>
              match split_args func with
              | None =>
                  (* the loop reads [split_args[0]] unless there is no argument *)
                  if (arg_count func =? 0)%nat then QRaise "some problem" else QFault
              | Some sa =>
                  match first_true (take (arg_count func) sa) 0 with
                  | None =>
                      if (length sa <? arg_count func)%nat then QFault
                      else QRaise "some problem"
                  | Some fn_idx =>
                      match push_arg (qb_arg_lookup q) fn_idx with
                      | Some r => QRet r
                      | None => QFault
                      end
                  end
              end
          end in
        match added with
        | QRaise msg => QRaise msg
        | QFault => QFault
        | QRet (first_split, lookup) =>
            if (pos <=? String.length (qb_sql q))%nat then
              QRet (plproxy_query_finish
                      {| qb_sql :=
                           (buf
                            ++ String.substring pos (String.length (qb_sql q) - pos) (qb_sql q)
                            ++ " from generate_subscripts($" ++ decimal (first_split + 1)
                            ++ ", 1) i")%string;
                         qb_arg_lookup := lookup;
                         qb_add_types := qb_add_types q; qb_track_refs := qb_track_refs q;
                         qb_refs := qb_refs q |})
            else QFault
        end
    end.

End Query.

(** ** Vocabulary of the query buffer *)

(** A buffer as [plproxy_query_add_ident] keeps it: every argument has one
    number and the numbers name arguments of the function; the references
    end inside the text, one after the other, each naming a number that
    was given, and there are at most FUNC_MAX_ARGS of them; when references
    are tracked, every number is named by a reference. *)
Definition qb_ok (func : ProxyFunction) (q : QueryBuffer) : Prop :=
  NoDup (qb_arg_lookup q) /\
  Forall (fun fn => (fn < arg_count func)%nat) (qb_arg_lookup q) /\
  Forall (fun r => (ref_sql_idx r < length (qb_arg_lookup q))%nat /\
                   (ref_end r <= String.length (qb_sql q))%nat) (qb_refs q) /\
  (forall i j r1 r2, (i <= j)%nat -> qb_refs q !! i = Some r1 -> qb_refs q !! j = Some r2 ->
     (ref_end r1 <= ref_end r2)%nat) /\
  (length (qb_refs q) <= FUNC_MAX_ARGS)%nat /\
  (qb_track_refs q = true ->
   forall k, (k < length (qb_arg_lookup q))%nat ->
     exists r, r ∈ qb_refs q /\ ref_sql_idx r = k).

(** Where [plproxy_split_query] starts to copy: after ["select * from "]
    or after ["select "]. *)
Definition split_start (sql : string) : nat :=
  if String.prefix "select * from " sql
  then String.length "select * from " else String.length "select ".

(** ** The queries of the split scenario

    [create function f(xs int[]) returns int ... split xs; run on h(xs)]:
    the names of [split_func_new], the parser's answer for the identifiers
    of its body, and the buffer of the hash query [select * from h(xs)] as
    the parser fills it. *)
Definition split_names : QueryNames :=
  {| func_name := "f"; arg_type_names := ["int4[]"]; ret_scalar_name := "int4";
     ret_columns := []; dynamic_record := false |}.

Definition xs_index (ident : string) : Z :=
  if String.eqb ident "xs" then 0 else -1.

Definition hash_buffer0 : QueryBuffer :=
  snd (plproxy_query_add_const (plproxy_query_start false true) "select * from h(").

Definition hash_buffer1 : QueryBuffer :=
  match plproxy_query_add_ident split_func_new split_names xs_index hash_buffer0 "xs" with
  | QRet (_, q) => q
  | _ => hash_buffer0
  end.

Definition hash_buffer : QueryBuffer :=
  snd (plproxy_query_add_const hash_buffer1 ")").

(** * Verification *)

(** ** Machine integers *)

Lemma to_uint32_range z : 0 <= to_uint32 z < 2 ^ 32.
Proof. unfold to_uint32. apply Z.mod_pos_bound. lia. Qed.

Lemma to_uint32_small z : 0 <= z < 2 ^ 32 -> to_uint32 z = z.
Proof. intros H. unfold to_uint32. apply Z.mod_small. exact H. Qed.

Lemma to_int32_small z : - 2 ^ 31 <= z < 2 ^ 31 -> to_int32 z = z.
Proof. intros H. unfold to_int32. rewrite Z.mod_small; lia. Qed.

Lemma to_int32_range z : - 2 ^ 31 <= to_int32 z < 2 ^ 31.
Proof. unfold to_int32. pose proof (Z.mod_pos_bound (z + 2 ^ 31) (2 ^ 32)). lia. Qed.

Lemma to_int32_add_l a b : to_int32 (to_int32 a + b) = to_int32 (a + b).
Proof.
  unfold to_int32. f_equal.
  replace ((a + 2 ^ 31) mod 2 ^ 32 - 2 ^ 31 + b + 2 ^ 31)
    with ((a + 2 ^ 31) mod 2 ^ 32 + b) by lia.
  rewrite Zplus_mod_idemp_l. f_equal. lia.
Qed.

Lemma to_uint32_to_int32 z : to_uint32 (to_int32 z) = to_uint32 z.
Proof.
  unfold to_uint32, to_int32.
  rewrite <- Zminus_mod_idemp_l.
  rewrite Z.mod_mod by lia.
  rewrite Zminus_mod_idemp_l.
  f_equal. lia.
Qed.

(** Masking the low 32 bits of [h] first does not change [h & m] when the
    mask fits in 32 bits. *)
Lemma land_to_uint32 h m : 0 <= m < 2 ^ 32 -> Z.land (to_uint32 h) m = Z.land h m.
Proof.
  intros Hm. unfold to_uint32.
  rewrite <- Z.land_ones by lia.
  rewrite <- Z.land_assoc.
  f_equal.
  rewrite Z.land_comm, Z.land_ones by lia.
  apply Z.mod_small. exact Hm.
Qed.

Lemma part_index_land h mask :
  0 <= mask < 2 ^ 31 -> part_index (to_uint32 h) mask = Z.land h mask.
Proof.
  intros Hm. unfold part_index.
  rewrite (to_uint32_small mask) by lia.
  apply land_to_uint32. lia.
Qed.

(** With a mask [2^k - 1] the index is the hash modulo [2^k]. *)
Lemma part_index_pow2 hv k :
  0 <= k <= 30 -> part_index hv (2 ^ k - 1) = hv mod 2 ^ k.
Proof.
  intros Hk. unfold part_index.
  assert (Hp : 0 < 2 ^ k) by (apply Z.pow_pos_nonneg; lia).
  assert (Hle : 2 ^ k <= 2 ^ 30) by (apply Z.pow_le_mono_r; lia).
  rewrite to_uint32_small by lia.
  replace (2 ^ k - 1) with (Z.ones k) by (rewrite Z.ones_equiv; lia).
  apply Z.land_ones. lia.
Qed.

Lemma lookupZ_Some {A} (l : list A) i :
  0 <= i < Z.of_nat (length l) -> exists x, lookupZ l i = Some x.
Proof.
  intros Hi. unfold lookupZ.
  destruct (Z.ltb_spec i 0); [lia|].
  destruct (lookup_lt_is_Some_2 l (Z.to_nat i)) as [x Hx]; [lia|].
  exists x. exact Hx.
Qed.

Lemma lookupZ_inv {A} (l : list A) i x :
  lookupZ l i = Some x -> 0 <= i /\ l !! Z.to_nat i = Some x.
Proof.
  unfold lookupZ. destruct (Z.ltb_spec i 0); [discriminate|]. intros Hx. split; [lia|exact Hx].
Qed.

Lemma hash_column_int htype val h :
  hash_column htype val = Some h ->
  htype = INT4OID \/ htype = INT8OID \/ htype = INT2OID.
Proof.
  unfold hash_column.
  destruct (Z.eqb_spec htype INT4OID); [auto|].
  destruct (Z.eqb_spec htype INT8OID); [auto|].
  destruct (Z.eqb_spec htype INT2OID); [auto|discriminate].
Qed.

Lemma part_index_ok (cl : ProxyCluster) (h : Z) :
  cluster_ok cl ->
  exists ci, lookupZ (part_map cl) (part_index (to_uint32 h) (part_mask cl)) = Some ci /\
             (ci < length (conn_list cl))%nat.
Proof.
  intros ((k & Hk & Hpc) & Hmask & Hlen & Hall).
  assert (Hp : 0 < 2 ^ k) by (apply Z.pow_pos_nonneg; lia).
  rewrite Hmask, Hpc, part_index_pow2 by exact Hk.
  pose proof (Z.mod_pos_bound (to_uint32 h) (2 ^ k) Hp) as Hb.
  destruct (lookupZ_Some (part_map cl) (to_uint32 h mod 2 ^ k)) as [ci Hci].
  { rewrite Hlen, Hpc. lia. }
  exists ci. split; [exact Hci|].
  apply lookupZ_inv in Hci as [_ Hci].
  rewrite Forall_lookup in Hall. exact (Hall _ _ Hci).
Qed.

(** C9: for every hash value of type int2, int4 or int8, negative ones
    included, the index computed by the tagging step (the value converted to
    uint32 and masked with [part_mask = part_count - 1], [part_count] a power
    of two) lies in [0, part_count) and is the hash modulo [part_count], so
    the read of [part_map] at that index is in bounds. *)
Theorem C9_hash_index_in_bounds (cl : ProxyCluster) (htype : Oid) (val : Datum) (h : Z) :
  cluster_ok cl ->
  hash_column htype val = Some h ->
  let idx := part_index (to_uint32 h) (part_mask cl) in
  0 <= idx < part_count cl /\
  idx = h mod part_count cl /\
  exists ci, lookupZ (part_map cl) idx = Some ci /\ (ci < length (conn_list cl))%nat.
Proof.
  intros ((k & Hk & Hpc) & Hmask & Hlen & Hall) _ idx. subst idx.
  assert (Hp : 0 < 2 ^ k) by (apply Z.pow_pos_nonneg; lia).
  rewrite Hmask, Hpc, part_index_pow2 by exact Hk.
  assert (Hmod : to_uint32 h mod 2 ^ k = h mod 2 ^ k).
  { unfold to_uint32.
    replace (2 ^ 32) with (2 ^ k * 2 ^ (32 - k)) by (rewrite <- Z.pow_add_r by lia; f_equal; lia).
    rewrite Z.rem_mul_r by (try lia; apply Z.pow_nonzero; lia).
    rewrite Z.mul_comm, Z.mod_add by lia. apply Z.mod_mod. lia. }
  pose proof (Z.mod_pos_bound h (2 ^ k) Hp) as Hb.
  rewrite Hmod. split; [exact Hb|]. split; [reflexivity|].
  destruct (lookupZ_Some (part_map cl) (h mod 2 ^ k)) as [ci Hci].
  { rewrite Hlen, Hpc. lia. }
  exists ci. split; [exact Hci|].
  apply lookupZ_inv in Hci as [_ Hci].
  rewrite Forall_lookup in Hall. exact (Hall _ _ Hci).
Qed.

(** ** The monad *)

Lemma bind_Ret_inv {A B} (m : M A) (k : A -> M B) s b s' :
  bind m k s = Ret b s' -> exists a s1, m s = Ret a s1 /\ k a s1 = Ret b s'.
Proof.
  unfold bind. destruct (m s) as [a s1| | |]; try discriminate.
  intros H. exists a, s1. split; [reflexivity|exact H].
Qed.

Lemma bind_Raise_inv {A B} (m : M A) (k : A -> M B) s e s' :
  bind m k s = Raise e s' ->
  m s = Raise e s' \/ exists a s1, m s = Ret a s1 /\ k a s1 = Raise e s'.
Proof.
  unfold bind. destruct (m s) as [a s1|e1 s1| |]; try discriminate.
  - intros H. right. exists a, s1. split; [reflexivity|exact H].
  - intros [= -> ->]. left. reflexivity.
Qed.

Lemma bind_Ret_eq {A B} (m : M A) (k : A -> M B) s a s1 :
  m s = Ret a s1 -> bind m k s = k a s1.
Proof. intros H. unfold bind. rewrite H. reflexivity. Qed.

Lemma get_conn_eq i s c :
  conns s !! i = Some c -> get_conn i s = Ret c s.
Proof.
  unfold conns, get_conn, bind, get_cluster. intros ->. reflexivity.
Qed.

Lemma get_conn_inv i s c s' :
  get_conn i s = Ret c s' -> s' = s /\ conns s !! i = Some c.
Proof.
  unfold conns, get_conn, bind, get_cluster.
  destruct (conn_list (st_cluster s) !! i); [|discriminate].
  unfold ret. intros [= -> ->]. split; reflexivity.
Qed.

Lemma modify_conn_eq i f s c :
  conns s !! i = Some c ->
  modify_conn i f s = Ret tt (with_conns (<[i := f c]> (conns s)) s).
Proof.
  unfold conns, modify_conn, bind, get_cluster. intros ->. reflexivity.
Qed.

Lemma modify_conn_inv i f s u s' :
  modify_conn i f s = Ret u s' ->
  exists c, conns s !! i = Some c /\ s' = with_conns (<[i := f c]> (conns s)) s.
Proof.
  unfold conns, modify_conn, bind, get_cluster.
  destruct (conn_list (st_cluster s) !! i) as [c|]; [|discriminate].
  unfold put_cluster. intros [= _ <-]. exists c. split; reflexivity.
Qed.

Lemma insert_as_alter (l : list ProxyConnection) i f c :
  l !! i = Some c -> <[i := f c]> l = alter f i l.
Proof.
  intros H. apply list_eq. intros j.
  destruct (decide (i = j)) as [->|Hne].
  - rewrite list_lookup_alter_eq, H, list_lookup_insert_eq; [reflexivity|].
    eapply lookup_lt_Some. exact H.
  - rewrite list_lookup_alter_ne, list_lookup_insert_ne by exact Hne. reflexivity.
Qed.

(** ** Hash routing *)

Lemma lookup_tag_all tag targets : forall l c,
  tag_all tag targets l !! c =
  if decide (c ∈ targets) then set_run_tag tag <$> l !! c else l !! c.
Proof.
  unfold tag_all.
  induction targets as [|ci rest IH]; intros l c; simpl.
  - destruct (decide (c ∈ [])) as [Hin|]; [|reflexivity].
    apply elem_of_nil in Hin. destruct Hin.
  - rewrite IH, list_lookup_alter.
    destruct (decide (c ∈ rest)) as [Hr|Hr];
      destruct (decide (c ∈ ci :: rest)) as [Hc|Hc];
      destruct (decide (ci = c)) as [->|Hne]; try reflexivity;
      try (destruct (l !! c); reflexivity);
      exfalso; rewrite elem_of_cons in Hc; intuition congruence.
Qed.

Lemma length_tag_all tag targets : forall l, length (tag_all tag targets l) = length l.
Proof.
  unfold tag_all. induction targets as [|ci rest IH]; intros l; simpl; [reflexivity|].
  rewrite IH. apply length_alter.
Qed.

Lemma tag_partition_inv i tag s u s' :
  tag_partition i tag s = Ret u s' ->
  exists ci, lookupZ (part_map (st_cluster s)) i = Some ci /\
             (ci < length (conns s))%nat /\
             s' = with_conns (alter (set_run_tag tag) ci (conns s)) s.
Proof.
  unfold tag_partition, bind, get_cluster.
  destruct (lookupZ (part_map (st_cluster s)) i) as [ci|]; [|discriminate].
  intros H. apply modify_conn_inv in H as (c & Hc & ->).
  exists ci. split; [reflexivity|]. split.
  - eapply lookup_lt_Some. exact Hc.
  - rewrite (insert_as_alter _ _ _ _ Hc). reflexivity.
Qed.

Lemma tag_hash_row_inv htype tag row s u s' :
  0 <= part_mask (st_cluster s) < 2 ^ 31 ->
  tag_hash_row htype tag row s = Ret u s' ->
  exists h ci,
    hash_of_row htype row = Some h /\
    lookupZ (part_map (st_cluster s)) (Z.land h (part_mask (st_cluster s))) = Some ci /\
    (ci < length (conns s))%nat /\
    s' = with_conns (alter (set_run_tag tag) ci (conns s)) s.
Proof.
  intros Hm. unfold tag_hash_row, hash_of_row.
  destruct (SPI_getbinval row 1) as [val isnull].
  destruct isnull; [discriminate|].
  unfold when, bind at 1, ret.
  destruct (hash_column htype val) as [h|]; [|discriminate].
  unfold bind, ret, get_cluster.
  intros H. apply tag_partition_inv in H as (ci & Hci & Hlt & ->).
  rewrite part_index_land in Hci by exact Hm.
  exists h, ci. repeat split; assumption.
Qed.

Lemma tag_hash_rows_inv htype tag rows : forall s u s',
  0 <= part_mask (st_cluster s) < 2 ^ 31 ->
  for_each rows (tag_hash_row htype tag) s = Ret u s' ->
  exists targets,
    Forall2 (fun row ci =>
               exists h, hash_of_row htype row = Some h /\
                 lookupZ (part_map (st_cluster s)) (Z.land h (part_mask (st_cluster s))) = Some ci /\
                 (ci < length (conns s))%nat) rows targets /\
    s' = with_conns (tag_all tag targets (conns s)) s.
Proof.
  induction rows as [|row rows IH]; intros s u s' Hm; simpl.
  - unfold ret. intros [= _ <-]. exists []. split; [constructor|].
    destruct s as [cl t tr]. destruct cl. reflexivity.
  - intros H. apply bind_Ret_inv in H as (u1 & s1 & H1 & H2).
    apply tag_hash_row_inv in H1 as (h & ci & Hh & Hci & Hlt & ->); [|exact Hm].
    apply IH in H2 as (targets & HF & ->); [|exact Hm].
    exists (ci :: targets). split.
    + constructor.
      * exists h. repeat split; assumption.
      * eapply Forall2_impl; [exact HF|].
        simpl. intros r c (h' & Hh' & Hc' & Hlt').
        exists h'. repeat split; try assumption.
        unfold conns in *. simpl in Hlt'. rewrite length_alter in Hlt'. exact Hlt'.
    + reflexivity.
Qed.

Lemma plproxy_query_exec_inv env func fcinfo q ap arow s t s1 :
  plproxy_query_exec env func fcinfo q ap arow s = Ret t s1 ->
  st_cluster s1 = st_cluster s /\ st_trace s1 = st_trace s /\
  exists q0 args,
    q = Some q0 /\
    query_args func fcinfo ap arow (arg_lookup q0) = Some args /\
    env_SPI_execute_plan env (st_tick s) q0 args = SPI_OK_SELECT t.
Proof.
  unfold plproxy_query_exec.
  destruct q as [q0|]; [|discriminate].
  destruct (query_args func fcinfo ap arow (arg_lookup q0)) as [args|] eqn:Ea; [|discriminate].
  unfold bind, ask.
  destruct (env_SPI_execute_plan env (st_tick s) q0 args) as [t0| |] eqn:E; try discriminate.
  unfold ret. intros [= <- <-]. simpl.
  split; [reflexivity|]. split; [reflexivity|].
  exists q0, args. split; [reflexivity|]. split; [exact Ea|exact E].
Qed.

(** C2: in a RUN ON HASH call, every integer value [h] returned by the
    hash query tags the connection [part_map[h & part_mask]] with the given
    tag (nothing else of that connection changes), and a connection that no
    returned hash value selects is left as it was. *)
Theorem C2_hash_routing (env : Env) (func : ProxyFunction) (fcinfo : FunctionCallInfo)
    (tag : Z) (array_params : option (list (option DatumArray))) (array_row : Z)
    (s s' : ExecState) :
  run_type func = R_HASH ->
  0 <= part_mask (st_cluster s) < 2 ^ 31 ->
  tag_run_on_partitions env func fcinfo tag array_params array_row s = Ret tt s' ->
  exists t s1,
    plproxy_query_exec env func fcinfo (hash_sql func) array_params array_row s = Ret t s1 /\
    let htype := SPI_gettypeid (tupdesc t) 1 in
    let cl := st_cluster s in
    (forall row, row ∈ vals t ->
       exists h ci c0,
         hash_of_row htype row = Some h /\
         lookupZ (part_map cl) (Z.land h (part_mask cl)) = Some ci /\
         conns s !! ci = Some c0 /\
         conns s' !! ci = Some (set_run_tag tag c0) /\
         run_tag (set_run_tag tag c0) = tag) /\
    (forall c,
       (forall row h, row ∈ vals t -> hash_of_row htype row = Some h ->
          lookupZ (part_map cl) (Z.land h (part_mask cl)) <> Some c) ->
       conns s' !! c = conns s !! c) /\
    part_map (st_cluster s') = part_map cl /\
    part_mask (st_cluster s') = part_mask cl.
Proof.
  intros Hrun Hm H.
  unfold tag_run_on_partitions in H. rewrite Hrun in H.
  unfold tag_hash_partitions in H.
  apply bind_Ret_inv in H as (t & s1 & Hq & H).
  exists t, s1. split; [exact Hq|].
  apply plproxy_query_exec_inv in Hq as (Hcl & Htr & _).
  apply bind_Ret_inv in H as (u & s2 & Hloop & Hcheck).
  assert (s' = s2) as ->.
  { unfold when in Hcheck.
    destruct (_ || _); [destruct (negb _)|]; simpl in Hcheck;
      try discriminate; unfold ret in Hcheck; congruence. }
  apply tag_hash_rows_inv in Hloop as (targets & HF & ->); [|rewrite Hcl; exact Hm].
  rewrite Hcl in HF. unfold conns in HF. rewrite Hcl in HF.
  unfold conns. simpl. rewrite Hcl.
  split; [|split; [|split; reflexivity]].
  - intros row Hrow.
    apply list_elem_of_lookup_1 in Hrow as [i Hi].
    destruct (Forall2_lookup_l _ _ _ _ _ HF Hi) as (ci & Hci & h & Hh & Hmap & Hlt).
    destruct (lookup_lt_is_Some_2 _ _ Hlt) as [c0 Hc0].
    exists h, ci, c0. repeat split; try assumption.
    rewrite lookup_tag_all.
    destruct (decide (ci ∈ targets)) as [|Hn].
    + rewrite Hc0. reflexivity.
    + exfalso. apply Hn. eapply list_elem_of_lookup_2. exact Hci.
  - intros c Hc.
    rewrite lookup_tag_all.
    destruct (decide (c ∈ targets)) as [Hin|]; [|reflexivity].
    exfalso.
    apply list_elem_of_lookup_1 in Hin as [i Hi].
    destruct (Forall2_lookup_r _ _ _ _ _ HF Hi) as (row & Hrow & h & Hh & Hmap & _).
    apply (Hc row h); [|exact Hh|exact Hmap].
    eapply list_elem_of_lookup_2. exact Hrow.
Qed.

Lemma C2_hash_routing_witness :
  exists s',
    tag_run_on_partitions (friendly_env (fun _ => None)) hash_func (call_with 6)
      1 None 0 (state_of cluster4) = Ret tt s' /\
    conns s' !! 2%nat = Some (set_run_tag 1 (blank_conn "p2")) /\
    conns s' !! 1%nat = conns (state_of cluster4) !! 1%nat.
Proof.
  pose (E := friendly_env (fun _ => None)).
  pose (s' := final_state (tag_run_on_partitions E hash_func (call_with 6) 1 None 0
                             (state_of cluster4)) (state_of cluster4)).
  assert (H1 : tag_run_on_partitions E hash_func (call_with 6) 1 None 0 (state_of cluster4)
               = Ret tt s') by (vm_compute; reflexivity).
  destruct (C2_hash_routing E hash_func (call_with 6) 1 None 0 (state_of cluster4) s'
              eq_refl ltac:(simpl; lia) H1) as (t & s1 & Hq & Hrows & Hother & _).
  assert (Ht : vals t = [[Some 6]]) by (injection Hq as <- _; reflexivity).
  assert (Hty : SPI_gettypeid (tupdesc t) 1 = INT4OID) by (injection Hq as <- _; reflexivity).
  exists s'. split; [exact H1|]. split.
  - destruct (Hrows [Some 6]) as (h & ci & c0 & Hh & Hci & Hc0 & Hc' & _).
    { rewrite Ht. left. }
    rewrite Hty in Hh. injection Hh as <-.
    injection Hci as <-. injection Hc0 as <-. exact Hc'.
  - apply Hother. intros row h Hrow Hh.
    rewrite Ht in Hrow. apply list_elem_of_singleton in Hrow as ->.
    rewrite Hty in Hh. injection Hh as <-. discriminate.
Defined.

(** ** Errors of the hash routing *)

Lemma cluster_ok_with_conns l s :
  length l = length (conns s) ->
  cluster_ok (st_cluster s) -> cluster_ok (st_cluster (with_conns l s)).
Proof.
  intros Hl (Hk & Hm & Hlen & Hall). unfold cluster_ok. simpl.
  repeat split; try assumption.
  rewrite Hl. exact Hall.
Qed.

Lemma hash_column_is_Some htype val :
  is_int_type htype -> exists h, hash_column htype val = Some h.
Proof.
  unfold hash_column. intros [-> | [-> | ->]]; simpl; eauto.
Qed.

Lemma tag_hash_row_null htype tag row s :
  hash_is_null row = true ->
  tag_hash_row htype tag row s = Raise (ProxyError "Hash function returned NULL") s.
Proof.
  unfold hash_is_null, tag_hash_row.
  destruct (SPI_getbinval row 1) as [val isnull]. simpl. intros ->. reflexivity.
Qed.

Lemma tag_hash_row_ok htype tag row s :
  cluster_ok (st_cluster s) ->
  is_int_type htype ->
  hash_is_null row = false ->
  exists ci, tag_hash_row htype tag row s
             = Ret tt (with_conns (alter (set_run_tag tag) ci (conns s)) s).
Proof.
  intros Hok Hty. unfold hash_is_null, tag_hash_row.
  destruct (SPI_getbinval row 1) as [val isnull]. simpl. intros ->.
  destruct (hash_column_is_Some htype val Hty) as [h Hh].
  unfold when, bind at 1, ret. rewrite Hh.
  unfold bind, ret, get_cluster.
  destruct (part_index_ok (st_cluster s) h Hok) as (ci & Hci & Hlt).
  unfold tag_partition, bind, get_cluster. rewrite Hci.
  destruct (lookup_lt_is_Some_2 _ _ Hlt) as [c Hc].
  rewrite (modify_conn_eq _ _ _ _ Hc), (insert_as_alter _ _ _ _ Hc).
  exists ci. reflexivity.
Qed.

Lemma tag_hash_rows_ok htype tag rows : forall s,
  cluster_ok (st_cluster s) ->
  is_int_type htype ->
  Forall (fun row => hash_is_null row = false) rows ->
  exists s', for_each rows (tag_hash_row htype tag) s = Ret tt s'.
Proof.
  induction rows as [|row rows IH]; intros s Hok Hty Hall; simpl.
  - eexists. reflexivity.
  - apply Forall_cons in Hall as [Hrow Hall].
    destruct (tag_hash_row_ok htype tag row s Hok Hty Hrow) as [ci Hci].
    rewrite (bind_Ret_eq _ _ _ _ _ Hci).
    apply IH; [|exact Hty|exact Hall].
    apply cluster_ok_with_conns; [|exact Hok]. apply length_alter.
Qed.

Lemma tag_hash_rows_null htype tag rows : forall s,
  cluster_ok (st_cluster s) ->
  is_int_type htype ->
  Exists (fun row => hash_is_null row = true) rows ->
  exists s', for_each rows (tag_hash_row htype tag) s
             = Raise (ProxyError "Hash function returned NULL") s'.
Proof.
  induction rows as [|row rows IH]; intros s Hok Hty Hex; simpl.
  - apply Exists_nil in Hex. destruct Hex.
  - destruct (hash_is_null row) eqn:Hrow.
    + exists s. unfold bind. rewrite tag_hash_row_null by exact Hrow. reflexivity.
    + apply Exists_cons in Hex as [Hex|Hex]; [congruence|].
      destruct (tag_hash_row_ok htype tag row s Hok Hty Hrow) as [ci Hci].
      rewrite (bind_Ret_eq _ _ _ _ _ Hci).
      apply IH; [|exact Hty|exact Hex].
      apply cluster_ok_with_conns; [|exact Hok]. apply length_alter.
Qed.

Lemma cluster_ok_mask cl : cluster_ok cl -> 0 <= part_mask cl < 2 ^ 31.
Proof.
  intros ((k & Hk & Hpc) & Hmask & _). rewrite Hmask, Hpc.
  assert (0 < 2 ^ k) by (apply Z.pow_pos_nonneg; lia).
  assert (2 ^ k <= 2 ^ 30) by (apply Z.pow_le_mono_r; lia).
  lia.
Qed.

(** What a run of the tagging loop leaves: the connection of every row
    carries the tag, and a connection that no row selects is as before. *)
Lemma tag_all_rows htype tag cl rows targets (l : list ProxyConnection) :
  Forall2 (fun row ci =>
             exists h, hash_of_row htype row = Some h /\
               lookupZ (part_map cl) (Z.land h (part_mask cl)) = Some ci /\
               (ci < length l)%nat) rows targets ->
  (forall row, row ∈ rows ->
     exists h ci c0,
       hash_of_row htype row = Some h /\
       lookupZ (part_map cl) (Z.land h (part_mask cl)) = Some ci /\
       l !! ci = Some c0 /\
       tag_all tag targets l !! ci = Some (set_run_tag tag c0)) /\
  (forall c,
     (forall row h, row ∈ rows -> hash_of_row htype row = Some h ->
        lookupZ (part_map cl) (Z.land h (part_mask cl)) <> Some c) ->
     tag_all tag targets l !! c = l !! c).
Proof.
  intros HF. split.
  - intros row Hrow.
    apply list_elem_of_lookup_1 in Hrow as [i Hi].
    destruct (Forall2_lookup_l _ _ _ _ _ HF Hi) as (ci & Hci & h & Hh & Hmap & Hlt).
    destruct (lookup_lt_is_Some_2 _ _ Hlt) as [c0 Hc0].
    exists h, ci, c0. repeat split; try assumption.
    rewrite lookup_tag_all, Hc0.
    destruct (decide (ci ∈ targets)) as [|Hn]; [reflexivity|].
    exfalso. apply Hn. eapply list_elem_of_lookup_2. exact Hci.
  - intros c Hc.
    rewrite lookup_tag_all.
    destruct (decide (c ∈ targets)) as [Hin|]; [|reflexivity].
    exfalso.
    apply list_elem_of_lookup_1 in Hin as [i Hi].
    destruct (Forall2_lookup_r _ _ _ _ _ HF Hi) as (row & Hrow & h & Hh & Hmap & _).
    apply (Hc row h); [|exact Hh|exact Hmap].
    eapply list_elem_of_lookup_2. exact Hrow.
Qed.

(** C7: in hash-routed tagging, a NULL hash value fails the call; without
    NULLs, a function that is not set-returning fails the call unless the
    hash query returned exactly one row, and a set-returning function
    accepts any number of rows, each tagging its partition: the call
    returns, the connection [part_map[h & part_mask]] of every returned
    hash value [h] then carries the tag, nothing else of it changed, and a
    connection that no returned value selects is as it was. *)
Theorem C7_hash_cardinality (env : Env) (func : ProxyFunction) (fcinfo : FunctionCallInfo)
    (tag : Z) (array_params : option (list (option DatumArray))) (array_row : Z)
    (s s1 : ExecState) (t : SPITupleTable) :
  cluster_ok (st_cluster s) ->
  plproxy_query_exec env func fcinfo (hash_sql func) array_params array_row s = Ret t s1 ->
  is_int_type (SPI_gettypeid (tupdesc t) 1) ->
  (Exists (fun row => hash_is_null row = true) (vals t) ->
   exists s', tag_hash_partitions env func fcinfo tag array_params array_row s
              = Raise (ProxyError "Hash function returned NULL") s') /\
  (Forall (fun row => hash_is_null row = false) (vals t) ->
   (fn_retset fcinfo = false -> length (vals t) <> 1%nat ->
    exists s', tag_hash_partitions env func fcinfo tag array_params array_row s
               = Raise (ProxyError "Only set-returning function allows hashcount <> 1") s') /\
   (fn_retset fcinfo = true \/ length (vals t) = 1%nat ->
    exists s',
      tag_hash_partitions env func fcinfo tag array_params array_row s = Ret tt s' /\
      let htype := SPI_gettypeid (tupdesc t) 1 in
      let cl := st_cluster s in
      (forall row, row ∈ vals t ->
         exists h ci c0,
           hash_of_row htype row = Some h /\
           lookupZ (part_map cl) (Z.land h (part_mask cl)) = Some ci /\
           conns s !! ci = Some c0 /\
           conns s' !! ci = Some (set_run_tag tag c0)) /\
      (forall c,
         (forall row h, row ∈ vals t -> hash_of_row htype row = Some h ->
            lookupZ (part_map cl) (Z.land h (part_mask cl)) <> Some c) ->
         conns s' !! c = conns s !! c))).
Proof.
  intros Hok Hq Hty.
  pose proof (plproxy_query_exec_inv _ _ _ _ _ _ _ _ _ Hq) as (Hcl & _ & _).
  assert (Hok1 : cluster_ok (st_cluster s1)) by (rewrite Hcl; exact Hok).
  unfold tag_hash_partitions. rewrite (bind_Ret_eq _ _ _ _ _ Hq).
  split.
  - intros Hex.
    destruct (tag_hash_rows_null _ tag _ s1 Hok1 Hty Hex) as [s' Hs'].
    exists s'. unfold bind. rewrite Hs'. reflexivity.
  - intros Hall.
    destruct (tag_hash_rows_ok _ tag _ s1 Hok1 Hty Hall) as [s' Hs'].
    rewrite (bind_Ret_eq _ _ _ _ _ Hs').
    unfold SPI_processed, when.
    split.
    + intros Hset Hlen. exists s'. rewrite Hset. simpl.
      destruct (Z.eqb_spec (Z.of_nat (length (vals t))) 0); simpl; [reflexivity|].
      destruct (Z.ltb_spec 1 (Z.of_nat (length (vals t)))); [reflexivity|lia].
    + intros Hperm. exists s'. split.
      * destruct Hperm as [Hset|Hlen].
        -- rewrite Hset. simpl. destruct (_ || _); reflexivity.
        -- rewrite Hlen. simpl. reflexivity.
      * apply tag_hash_rows_inv in Hs' as (targets & HF & ->);
          [|apply cluster_ok_mask; exact Hok1].
        rewrite Hcl in HF. unfold conns in HF. rewrite Hcl in HF.
        unfold conns. simpl. rewrite Hcl.
        exact (tag_all_rows _ tag _ _ _ _ HF).
Qed.

Lemma C7_hash_cardinality_witness :
  exists s',
    tag_hash_partitions (friendly_env (fun _ => None)) hash_func (call_with 6) 1 None 0
      (state_of cluster4) = Ret tt s' /\
    conns s' !! 2%nat = Some (set_run_tag 1 (blank_conn "p2")) /\
    conns s' !! 1%nat = Some (blank_conn "p1").
Proof.
  assert (Hok : cluster_ok (st_cluster (state_of cluster4))).
  { split; [exists 2; split; [lia|reflexivity]|].
    split; [reflexivity|]. split; [reflexivity|]. repeat constructor. }
  destruct (proj2 (proj2 (C7_hash_cardinality (friendly_env (fun _ => None)) hash_func
              (call_with 6) 1 None 0 (state_of cluster4) _ _
              Hok eq_refl (or_introl eq_refl))
            ltac:(repeat constructor)) (or_intror eq_refl))
    as (s' & Hret & Hrows & Hother).
  exists s'. split; [exact Hret|]. split.
  - destruct (Hrows [Some 6]) as (h & ci & c0 & Hh & Hci & Hc0 & Hc').
    { left. }
    injection Hh as <-. injection Hci as <-. injection Hc0 as <-. exact Hc'.
  - rewrite Hother; [reflexivity|].
    intros row h Hrow Hh.
    apply list_elem_of_singleton in Hrow as ->.
    injection Hh as <-. discriminate.
Defined.

(** ** Symbolic execution of straight-line code *)

(** Case analysis on the innermost [match] of a hypothesis. *)
Ltac step H :=
  match type of H with
  | context [match ?x with _ => _ end] =>
      lazymatch x with
      | context [match _ with _ => _ end] => fail
      | _ => destruct x eqn:?
      end
  end.

(** Reads of the connection that was just written. *)
Ltac norm H Hlt :=
  repeat (progress (simpl in H) ||
          rewrite list_insert_insert_eq in H ||
          rewrite list_lookup_insert_eq in H by (rewrite ?length_insert; exact Hlt)).

Ltac unfold_monad H :=
  unfold conn_error, plproxy_error, plproxy_remote_error, when, raise, crash, ret in H;
  unfold bind, ask, emit, modify_conn, get_conn, get_cluster, put_cluster,
    bind, ret, crash, raise in H.

(** ** The result format *)



(** ** Preparing a connection *)

Lemma check_old_conn_poll_inv env fuel conn : forall s b s',
  check_old_conn_poll env fuel conn s = Ret b s' ->
  st_cluster s' = st_cluster s /\ (b = true -> st_trace s' = st_trace s).
Proof.
  induction fuel as [|fuel IH]; intros s b s' H; simpl in H; [discriminate|].
  unfold bind at 1, ask in H.
  destruct (env_poll env (st_tick s) [(db conn, POLLIN)] 0) eqn:E.
  - unfold ret in H. injection H as <- <-. simpl. auto.
  - apply IH in H. simpl in H. exact H.
  - discriminate.
  - unfold_monad H. injection H as <- <-. simpl. split; [reflexivity|discriminate].
Qed.

Lemma check_old_conn_inv env fuel ci now s b s' :
  check_old_conn env fuel ci now s = Ret b s' ->
  st_cluster s' = st_cluster s /\ (b = true -> st_trace s' = st_trace s).
Proof.
  unfold check_old_conn. intros H.
  apply bind_Ret_inv in H as (conn & s1 & H1 & H).
  apply get_conn_inv in H1 as [-> _].
  unfold bind at 1, get_cluster in H.
  unfold bind at 1, ask in H.
  destruct (env_PQstatus env (st_tick s) (db conn)).
  - destruct (_ && _).
    + unfold ret in H. injection H as <- <-. simpl. split; [reflexivity|discriminate].
    + destruct (_ <? _).
      * unfold ret in H. injection H as <- <-. simpl. auto.
      * apply check_old_conn_poll_inv in H. simpl in H. exact H.
  - unfold ret in H. injection H as <- <-. simpl. split; [reflexivity|discriminate].
  - unfold ret in H. injection H as <- <-. simpl. split; [reflexivity|discriminate].
Qed.

Lemma prepare_conn_inv env fuel ci s s' :
  prepare_conn env fuel ci s = Ret tt s' ->
  exists conn conn',
    conns s !! ci = Some conn /\
    conns s' !! ci = Some conn' /\
    ((state conn' = C_READY /\
      (state conn = C_READY \/ state conn = C_DONE) /\
      conn' = set_state C_READY conn /\
      st_trace s' = st_trace s)
     \/
     (state conn' = C_CONNECT_WRITE /\
      connect_time conn' = env_gettimeofday env (st_tick s) /\
      (state conn <> C_NONE -> tuning conn' = false) /\
      (state conn = C_NONE -> tuning conn' = tuning conn) /\
      (exists h, db conn' = Some h) /\
      last (st_trace s') = Some (EvPQsetNoticeReceiver (db conn')))).
Proof.
  intros H. unfold prepare_conn in H.
  unfold bind at 1, ask in H.
  apply bind_Ret_inv in H as (conn & s0 & H0 & H).
  apply get_conn_inv in H0 as [-> Hc]. unfold conns in Hc. simpl in Hc.
  assert (Hlt : (ci < length (conn_list (st_cluster s)))%nat)
    by (eapply lookup_lt_Some; exact Hc).
  apply bind_Ret_inv in H as (keep & s1 & Hk & H).
  exists conn.
  assert (Hcase :
    (keep = true /\ (state conn = C_READY \/ state conn = C_DONE) /\
     st_trace s1 = st_trace s /\
     conn_list (st_cluster s1) !! ci = Some (set_state C_READY conn)) \/
    (keep = false /\ exists c1, conn_list (st_cluster s1) !! ci = Some c1 /\
       connstr c1 = connstr conn /\ db c1 = db conn /\ tuning c1 = tuning conn /\
       length (conn_list (st_cluster s1)) = length (conn_list (st_cluster s)))).
  { destruct (state conn) eqn:Hst.
    all: try (unfold ret in Hk; injection Hk as <- <-; right; split; [reflexivity|];
              exists conn; simpl; auto).
    - apply check_old_conn_inv in Hk as Hk'. destruct Hk' as [Hcl Htr]. simpl in Hcl.
      destruct keep.
      + left. split; [reflexivity|]. split; [auto|]. split; [exact (Htr eq_refl)|].
        rewrite Hcl, Hc. f_equal. destruct conn; simpl in *. subst. reflexivity.
      + right. split; [reflexivity|]. exists conn. rewrite Hcl. auto.
    - apply bind_Ret_inv in Hk as (u & s2 & Hm & Hk).
      apply modify_conn_inv in Hm as (c & Hc' & ->).
      unfold conns in Hc'. simpl in Hc'. rewrite Hc in Hc'. injection Hc' as <-.
      apply check_old_conn_inv in Hk as [Hcl Htr]. unfold conns in Hcl. simpl in Hcl.
      destruct keep.
      + left. split; [reflexivity|]. split; [auto|]. split; [exact (Htr eq_refl)|].
        rewrite Hcl. simpl. apply list_lookup_insert_eq. exact Hlt.
      + right. split; [reflexivity|]. exists (set_state C_READY conn).
        rewrite Hcl. simpl. rewrite length_insert.
        rewrite list_lookup_insert_eq by exact Hlt. auto. }
  destruct Hcase as [(-> & Hst & Htr & Hl) | (-> & c1 & Hl & Hcs & Hdb & Htu & Hlen)].
  - unfold ret in H. injection H as <-.
    exists (set_state C_READY conn). split; [exact Hc|]. split; [exact Hl|].
    left. auto.
  - rewrite <- Hlen in Hlt. clear Hk.
    destruct s1 as [cl1 t1 tr1]. simpl in *.
    destruct (state conn) eqn:Hst.
    all: unfold_monad H; simpl in H; rewrite ?Hl in H.
    all: repeat (norm H Hlt; try discriminate; try step H).
    all: try discriminate.
    all: injection H as <-; unfold conns; simpl.
    all: rewrite ?list_insert_insert_eq, ?list_lookup_insert_eq
           by (rewrite ?length_insert; exact Hlt).
    all: eexists; split; [exact Hc|]; split; [reflexivity|]; right; simpl.
    all: rewrite ?last_snoc.
    all: repeat split; try congruence; eauto.
Qed.

(** C10 (amended): when [prepare_conn] returns, the connection is either
    in C_READY (it was C_READY or C_DONE, passed the staleness check and
    nothing but its state changed) or in C_CONNECT_WRITE with a new handle,
    [connect_time] set to now and the notice receiver installed; the tuning
    flag is cleared when an old connection was dropped and is left as it
    was when the connection was in C_NONE. *)
Theorem C10_prepare_conn (env : Env) (fuel : nat) (ci : nat) (s s' : ExecState) :
  prepare_conn env fuel ci s = Ret tt s' ->
  exists conn conn',
    conns s !! ci = Some conn /\
    conns s' !! ci = Some conn' /\
    ((state conn' = C_READY /\
      (state conn = C_READY \/ state conn = C_DONE) /\
      conn' = set_state C_READY conn /\
      st_trace s' = st_trace s)
     \/
     (state conn' = C_CONNECT_WRITE /\
      connect_time conn' = env_gettimeofday env (st_tick s) /\
      (state conn <> C_NONE -> tuning conn' = false) /\
      (state conn = C_NONE -> tuning conn' = tuning conn) /\
      (exists h, db conn' = Some h) /\
      last (st_trace s') = Some (EvPQsetNoticeReceiver (db conn')))).
Proof. apply prepare_conn_inv. Qed.

Lemma C10_prepare_conn_witness :
  exists s' conn',
    prepare_conn (friendly_env (fun _ => None)) 1 0 (state_of cluster4) = Ret tt s' /\
    conns s' !! 0%nat = Some conn' /\
    (state conn' = C_READY \/ state conn' = C_CONNECT_WRITE).
Proof.
  pose (E := friendly_env (fun _ => None)).
  pose (s' := final_state (prepare_conn E 1 0 (state_of cluster4)) (state_of cluster4)).
  assert (H1 : prepare_conn E 1 0 (state_of cluster4) = Ret tt s')
    by (vm_compute; reflexivity).
  destruct (C10_prepare_conn E 1 0 (state_of cluster4) s' H1)
    as (conn & conn' & _ & Hc' & Hcases).
  exists s', conn'. split; [exact H1|]. split; [exact Hc'|].
  destruct Hcases as [(Hr & _)|(Hw & _)]; [left; exact Hr|right; exact Hw].
Defined.

(** C10 as stated fails: a connection in C_NONE whose tuning flag is set
    comes back in C_CONNECT_WRITE with the flag still set. *)
Lemma C10_counterexample :
  ~ prepare_conn_claim (friendly_env (fun _ => None)) 1 0 (state_of tuned_cluster).
Proof.
  intros Hclaim.
  pose (E := friendly_env (fun _ => None)).
  pose (s' := final_state (prepare_conn E 1 0 (state_of tuned_cluster)) (state_of tuned_cluster)).
  pose (c' := default (blank_conn "") (conns s' !! 0%nat)).
  assert (H1 : prepare_conn E 1 0 (state_of tuned_cluster) = Ret tt s')
    by (vm_compute; reflexivity).
  assert (H2 : conns s' !! 0%nat = Some c') by (vm_compute; reflexivity).
  destruct (Hclaim s' c' H1 H2) as [Hr|(_ & _ & Ht & _)].
  - vm_compute in Hr. discriminate.
  - vm_compute in Ht. discriminate.
Qed.

Lemma C9_hash_index_in_bounds_witness :
  0 <= part_index (to_uint32 (-3)) (part_mask cluster4) < part_count cluster4 /\
  part_index (to_uint32 (-3)) (part_mask cluster4) = (-3) mod part_count cluster4.
Proof.
  assert (Hok : cluster_ok cluster4).
  { split; [exists 2; split; [lia|reflexivity]|].
    split; [reflexivity|]. split; [reflexivity|]. repeat constructor. }
  assert (Hh : hash_column INT4OID (2 ^ 32 - 3) = Some (-3)) by reflexivity.
  destruct (C9_hash_index_in_bounds cluster4 INT4OID (2 ^ 32 - 3) (-3) Hok Hh)
    as (Hb & Hm & _).
  split; [exact Hb|exact Hm].
Defined.

(** ** The final validation pass *)

Lemma review_results_inv idxs : forall s s',
  review_results idxs s = Ret tt s' ->
  conns s' = conns s /\
  forall i conn, i ∈ idxs -> conns s !! i = Some conn -> paired conn.
Proof.
  induction idxs as [|i rest IH]; intros s s' H; simpl in H.
  - unfold ret in H. injection H as <-. split; [reflexivity|].
    intros i conn Hin. apply elem_of_nil in Hin. destruct Hin.
  - apply bind_Ret_inv in H as (conn & s0 & H0 & H).
    apply get_conn_inv in H0 as [-> Hc].
    assert (Hstep : exists s1, conns s1 = conns s /\ paired conn /\
                               review_results rest s1 = Ret tt s').
    { unfold paired. unfold_monad H. unfold modify_cluster in H. unfold_monad H.
      destruct (Z.eqb_spec (run_tag conn) 0) as [Hz|Hz]; simpl in H.
      - destruct (res conn) eqn:Hr; simpl in H; [discriminate|].
        exists s. split; [reflexivity|]. split; [|exact H].
        split; [intros Hn; contradiction|intros Hn; contradiction].
      - destruct (res conn) as [r|] eqn:Hr; simpl in H; [|discriminate].
        destruct (state conn) eqn:Hst; try discriminate.
        destruct (PQresultStatus r) eqn:Hrs; try discriminate.
        eexists. split; [|split; [|exact H]]; [reflexivity|].
        split; [intros _; split; [reflexivity|eauto]|intros _; exact Hz]. }
    destruct Hstep as (s1 & Hs1 & Hp & Hrest).
    apply IH in Hrest as [Heq Hall].
    split; [congruence|].
    intros j cj Hin Hj.
    apply elem_of_cons in Hin as [->|Hin].
    + rewrite Hc in Hj. injection Hj as <-. exact Hp.
    + apply (Hall j cj Hin). rewrite Hs1. exact Hj.
Qed.


Lemma review_results_total idxs : forall s,
  Forall (fun j => (j < length (conns s))%nat) idxs ->
  (exists e s', review_results idxs s = Raise e s') \/
  (exists s', review_results idxs s = Ret tt s').
Proof.
  induction idxs as [|j rest IH]; intros s Hall; simpl.
  - right. eexists. reflexivity.
  - apply Forall_cons in Hall as [Hj Hall].
    destruct (lookup_lt_is_Some_2 _ _ Hj) as [cj Hcj].
    rewrite (bind_Ret_eq _ _ _ _ _ (get_conn_eq _ _ _ Hcj)).
    unfold when, plproxy_error, raise, modify_cluster.
    unfold bind at 1.
    destruct (run_tag cj =? 0); simpl.
    + destruct (res cj); simpl; [left; eauto|]. apply IH. exact Hall.
    + destruct (res cj) as [r|]; simpl; [|left; eauto].
      unfold bind, ret, get_cluster, put_cluster.
      destruct (state cj); try (left; eauto; fail).
      destruct (PQresultStatus r); try (left; eauto; fail).
      apply IH. exact Hall.
Qed.

Lemma review_results_mismatch idxs s i conn :
  Forall (fun j => (j < length (conns s))%nat) idxs ->
  i ∈ idxs -> conns s !! i = Some conn -> mismatched conn ->
  exists e s', review_results idxs s = Raise e s'.
Proof.
  intros Hall Hin Hc Hmis.
  destruct (review_results_total idxs s Hall) as [Hr|[s' Hs']]; [exact Hr|].
  exfalso.
  apply review_results_inv in Hs' as [_ Hp].
  destruct (Hp i conn Hin Hc) as [Htag Hres].
  destruct Hmis as [[Ht Hn]|[Ht Hn]].
  - destruct (Htag Ht) as (_ & r & Hr & _). congruence.
  - apply (Hres Hn). exact Ht.
Qed.

Lemma try_catch_Ret_inv body handler s s' :
  try_catch_rethrow body handler s = Ret tt s' -> body s = Ret tt s'.
Proof.
  unfold try_catch_rethrow.
  destruct (body s) as [[] s1|e s1| |]; try discriminate.
  - intros H. exact H.
  - destruct (handler e s1); discriminate.
Qed.

Lemma plproxy_exec_Ret_inv env func fcinfo fuel s s' :
  plproxy_exec env func fcinfo fuel s = Ret tt s' ->
  exists s1 s2,
    review_results (seq 0 (length (conns s1))) s1 = Ret tt s2 /\
    conns s' = conns s2.
Proof.
  intros H. apply try_catch_Ret_inv in H.
  apply bind_Ret_inv in H as (u1 & a1 & _ & H).
  apply bind_Ret_inv in H as (u2 & a2 & _ & H).
  apply bind_Ret_inv in H as (u3 & a3 & _ & H).
  apply bind_Ret_inv in H as (u4 & a4 & _ & H).
  apply bind_Ret_inv in H as (u5 & a5 & Hexec & H).
  unfold modify_cluster, bind, get_cluster, put_cluster in H.
  injection H as <-.
  unfold remote_execute in Hexec.
  apply bind_Ret_inv in Hexec as (i1 & b1 & _ & Hexec).
  apply bind_Ret_inv in Hexec as (p & b2 & _ & Hexec).
  apply bind_Ret_inv in Hexec as (u6 & b3 & _ & Hexec).
  apply bind_Ret_inv in Hexec as (i2 & b4 & Hidx & Hexec).
  unfold conn_indices, bind, get_cluster, ret in Hidx. injection Hidx as <- <-.
  destruct u5. exists b3, a5. split; [exact Hexec|reflexivity].
Qed.


(** ** Cleaning up *)





Lemma try_catch_Raise_inv body handler s e s' :
  try_catch_rethrow body handler s = Raise e s' ->
  exists e0 s0, body s = Raise e0 s0 /\
    ((e = e0 /\ handler e0 s0 = Ret tt s') \/ handler e0 s0 = Raise e s').
Proof.
  unfold try_catch_rethrow.
  destruct (body s) as [[] s1|e0 s0| |] eqn:Hb; try discriminate.
  destruct (handler e0 s0) as [[] s2|e2 s2| |] eqn:Hh; try discriminate.
  - intros [= <- <-]. exists e0, s0. split; [reflexivity|]. left. auto.
  - intros [= <- <-]. exists e0, s0. split; [reflexivity|]. right. exact Hh.
Qed.


(** C1: when [plproxy_exec] returns normally, every connection is paired:
    an armed connection is in C_DONE and holds a result whose status is
    PGRES_TUPLES_OK, and a connection holding a result is armed.  A
    connection on which [run_tag] and the presence of a result disagree
    makes the validation pass raise an error, and a second tuple result on
    a connection that already holds one raises an error as well. *)
Theorem C1_result_pairing (env : Env) (func : ProxyFunction) (fcinfo : FunctionCallInfo)
    (fuel : nat) (s s' : ExecState) :
  plproxy_exec env func fcinfo fuel s = Ret tt s' ->
  (forall conn, conn ∈ conns s' -> paired conn) /\
  (forall s0 conn, conn ∈ conns s0 -> mismatched conn ->
     exists e s1, review_results (seq 0 (length (conns s0))) s0 = Raise e s1) /\
  (forall s0 ci conn r0 r,
     conns s0 !! ci = Some conn -> res conn = Some r0 ->
     env_PQgetResult env (st_tick s0) (db conn) = Some r ->
     PQresultStatus r = PGRES_TUPLES_OK ->
     exists s1, another_result env ci s0 = Raise (ProxyError "double result?") s1).
Proof.
  intros H. split; [|split].
  - apply plproxy_exec_Ret_inv in H as (s1 & s2 & Hrev & Heq).
    apply review_results_inv in Hrev as [Hsame Hall].
    intros conn Hin. rewrite Heq, Hsame in Hin.
    apply list_elem_of_lookup_1 in Hin as [i Hi].
    apply (Hall i conn); [|exact Hi].
    apply elem_of_seq. apply lookup_lt_Some in Hi. lia.
  - intros s0 conn Hin Hmis.
    apply list_elem_of_lookup_1 in Hin as [i Hi].
    apply (review_results_mismatch _ s0 i conn); try assumption.
    + apply Forall_forall. intros j Hj. apply elem_of_seq in Hj. lia.
    + apply elem_of_seq. apply lookup_lt_Some in Hi. lia.
  - intros s0 ci conn r0 r Hc Hres Hget Hst.
    unfold another_result.
    rewrite (bind_Ret_eq _ _ _ _ _ (get_conn_eq _ _ _ Hc)).
    unfold bind at 1, ask. rewrite Hget, Hst, Hres.
    eexists. reflexivity.
Qed.

Lemma C1_result_pairing_witness :
  exists s',
    plproxy_exec served_env hash_func (call_with 6) 20 (state_of cluster4) = Ret tt s' /\
    forall conn, conn ∈ conns s' -> paired conn.
Proof.
  pose (s' := final_state (plproxy_exec served_env hash_func (call_with 6) 20 (state_of cluster4))
                (state_of cluster4)).
  assert (H1 : plproxy_exec served_env hash_func (call_with 6) 20 (state_of cluster4) = Ret tt s')
    by (vm_compute; reflexivity).
  exists s'. split; [exact H1|].
  exact (proj1 (C1_result_pairing served_env hash_func (call_with 6) 20 (state_of cluster4) s' H1)).
Defined.




(** ** Timeouts *)

(** As long as poll(2) reports nothing, the loop of [remote_execute] goes
    round without reaching the timeout check. *)
Lemma silent_wait_results func fuel : forall pending s,
  pending <> 0 -> wait_results silent_env func fuel pending s = OutOfFuel.
Proof.
  induction fuel as [|fuel IH]; intros pending s Hp; simpl.
  - destruct (Z.eqb_spec pending 0); [contradiction|reflexivity].
  - destruct (Z.eqb_spec pending 0); [contradiction|].
    unfold CHECK_FOR_INTERRUPTS, poll_conns.
    unfold bind at 1 2. unfold ask at 1. simpl.
    unfold bind at 1 2 3. unfold get_cluster, ask. simpl.
    apply IH. exact Hp.
Qed.

(** What [check_timeouts] does for a connection in a query state, once it
    is reached. *)
Lemma check_timeouts_query ci now s conn :
  conns s !! ci = Some conn ->
  state conn = C_QUERY_READ \/ state conn = C_QUERY_WRITE ->
  check_timeouts ci now s =
  if (0 <? query_timeout (config (st_cluster s)))
     && (query_timeout (config (st_cluster s)) <? now - query_time conn)
  then Raise (ProxyError "query timeout") s
  else Ret tt s.
Proof.
  intros Hc Hst. unfold check_timeouts.
  unfold bind at 1. unfold get_cluster.
  rewrite (bind_Ret_eq _ _ _ _ _ (get_conn_eq _ _ _ Hc)).
  destruct Hst as [-> | ->].
  all: destruct (Z.leb_spec (query_timeout (config (st_cluster s))) 0);
       destruct (Z.ltb_spec 0 (query_timeout (config (st_cluster s)))); try lia;
       simpl; try reflexivity.
  all: destruct (Z.leb_spec (now - query_time conn) (query_timeout (config (st_cluster s))));
       destruct (Z.ltb_spec (query_timeout (config (st_cluster s))) (now - query_time conn));
       try lia; reflexivity.
Qed.

(** C8 (the code at the failing input): with [query_timeout = 1] and a
    server that never answers, the query is sent and the call then loops on
    poll(2) for ever: whatever the fuel, it neither returns nor raises the
    query timeout, although the clock passes [query_time + 2].  When the
    socket reports events instead, the same call does raise the query
    timeout: the check is only reached after a poll(2) that found events. *)
Theorem C8_idle_connection_never_times_out (fuel : nat) :
  plproxy_exec silent_env hash_func (call_with 6) fuel (state_of waiting_cluster) = OutOfFuel /\
  exists s', plproxy_exec noisy_env hash_func (call_with 6) 5 (state_of waiting_cluster)
             = Raise (ProxyError "query timeout") s'.
Proof.
  split; [|eexists; vm_compute; reflexivity].
  unfold plproxy_exec, try_catch_rethrow.
  erewrite bind_Ret_eq by (vm_compute; reflexivity).
  erewrite bind_Ret_eq by (vm_compute; reflexivity).
  erewrite bind_Ret_eq by (vm_compute; reflexivity).
  erewrite bind_Ret_eq by (vm_compute; reflexivity).
  unfold remote_execute.
  unfold bind at 1.
  erewrite bind_Ret_eq by (vm_compute; reflexivity).
  erewrite bind_Ret_eq by (vm_compute; reflexivity).
  unfold bind at 1.
  rewrite silent_wait_results by discriminate.
  reflexivity.
Qed.

(** ** The split planner *)

Lemma with_conns_id s : with_conns (conns s) s = s.
Proof. destruct s as [cl t tr]. destruct cl. reflexivity. Qed.

Lemma split_value_eq func arrays ci row s :
  split_value func arrays ci row s =
  match conns s !! ci with
  | None => Crash
  | Some c =>
      match split_conn func arrays row c with
      | Some c' => Ret tt (with_conns (<[ci := c']> (conns s)) s)
      | None => Crash
      end
  end.
Proof.
  unfold split_value, split_conn, conns.
  unfold bind at 1. unfold get_conn, bind, get_cluster.
  destruct (conn_list (st_cluster s) !! ci) as [c|] eqn:Hc; [|reflexivity].
  unfold ret.
  destruct (split_columns func arrays row (seq 0 (arg_count func)) _); [|reflexivity].
  unfold modify_conn, bind, get_cluster. rewrite Hc. reflexivity.
Qed.

Lemma split_conn_run_tag func arrays row c c' :
  split_conn func arrays row c = Some c' -> run_tag c' = run_tag c.
Proof.
  unfold split_conn.
  destruct (split_columns _ _ _ _ _); [|discriminate].
  intros [= <-]. reflexivity.
Qed.

Lemma get_int_index r hd s :
  Z.of_nat r + 1 < 2 ^ 31 ->
  get_int (subscript_row hd r) 1 INT4OID s = Ret (Z.of_nat r + 1) s.
Proof.
  intros Hr. unfold get_int, subscript_row. simpl.
  unfold when, bind, ret. f_equal.
  unfold DatumGetInt32.
  rewrite (to_int32_small (Z.of_nat r + 1)) by lia.
  apply to_int32_small. lia.
Qed.

Lemma get_int_hash htype r hd h s :
  hash_column htype (hd r) = Some h ->
  get_int (subscript_row hd r) 2 htype s = Ret (to_int32 h) s.
Proof.
  unfold hash_column, get_int, subscript_row. simpl.
  unfold when, bind, ret.
  destruct (htype =? INT4OID); [intros [= <-]; reflexivity|].
  destruct (htype =? INT8OID); [intros [= <-]; reflexivity|].
  destruct (htype =? INT2OID); [intros [= <-]; reflexivity|discriminate].
Qed.

Lemma new_split_row_eq func arrays htype hd h r s :
  hash_column htype (hd r) = Some h ->
  Z.of_nat r + 1 < 2 ^ 31 ->
  tags_le (Z.of_nat r) (conns s) ->
  new_split_row func INT4OID htype arrays (subscript_row hd r) s =
  match route_row func arrays (part_map (st_cluster s)) (part_mask (st_cluster s))
          r h (conns s) with
  | Some l' => Ret tt (with_conns l' s)
  | None => Crash
  end.
Proof.
  intros Hh Hr Htags. unfold new_split_row.
  rewrite (bind_Ret_eq _ _ _ _ _ (get_int_index r hd s Hr)).
  rewrite (bind_Ret_eq _ _ _ _ _ (get_int_hash htype r hd h s Hh)).
  unfold bind at 1. unfold get_cluster.
  rewrite to_uint32_to_int32.
  rewrite (to_uint32_small (Z.of_nat r + 1)) by lia.
  unfold route_row.
  destruct (lookupZ _ _) as [ci|]; [|reflexivity].
  unfold bind at 1. unfold get_conn, bind, get_cluster. unfold conns.
  destruct (conn_list (st_cluster s) !! ci) as [c|] eqn:Hc; [|reflexivity].
  unfold ret.
  assert (Hlt : (ci < length (conn_list (st_cluster s)))%nat)
    by (eapply lookup_lt_Some; exact Hc).
  destruct (Htags c) as [Hlo Hhi]; [eapply list_elem_of_lookup_2; exact Hc|].
  rewrite (to_uint32_small (run_tag c)) by lia.
  destruct (Z.eqb_spec (run_tag c) (Z.of_nat r + 1)); [lia|].
  fold (conns s) in Hc.
  rewrite (modify_conn_eq _ _ _ _ Hc).
  rewrite split_value_eq.
  replace (Z.of_nat r + 1 - 1) with (Z.of_nat r) by lia.
  rewrite (to_uint32_small (Z.of_nat r)) by lia.
  rewrite (to_int32_small (Z.of_nat r + 1)), (to_int32_small (Z.of_nat r)) by lia.
  unfold conns at 1. simpl.
  rewrite list_lookup_insert_eq by exact Hlt.
  destruct (split_conn _ _ _ _) as [c'|]; [|reflexivity].
  unfold with_conns, conns. simpl. rewrite list_insert_insert_eq. reflexivity.
Qed.

Lemma plproxy_query_exec_eq env func fcinfo q ap arow s args t :
  query_args func fcinfo ap arow (arg_lookup q) = Some args ->
  env_SPI_execute_plan env (st_tick s) q args = SPI_OK_SELECT t ->
  plproxy_query_exec env func fcinfo (Some q) ap arow s
  = Ret t (with_tick (S (st_tick s)) s).
Proof.
  intros Ha Hq. unfold plproxy_query_exec. rewrite Ha.
  unfold bind, ask. rewrite Hq. reflexivity.
Qed.

Lemma old_inner_loop func arrays row my_tag ci : forall idxs s,
  NoDup idxs ->
  (forall j, j ∈ idxs -> (j < length (conns s))%nat) ->
  (forall j c, j ∈ idxs -> j <> ci -> conns s !! j = Some c -> run_tag c <> my_tag) ->
  (forall c, conns s !! ci = Some c -> run_tag c = my_tag) ->
  for_each idxs (old_split_add func arrays row my_tag) s =
  if decide (ci ∈ idxs) then split_value func arrays ci row s else Ret tt s.
Proof.
  induction idxs as [|j rest IH]; intros s Hnd Hlen Hother Hci; simpl.
  - destruct (decide (ci ∈ [])) as [Hin|]; [|reflexivity].
    apply elem_of_nil in Hin. destruct Hin.
  - apply NoDup_cons in Hnd as [Hj Hnd].
    destruct (lookup_lt_is_Some_2 (conns s) j) as [cj Hcj]; [apply Hlen; left|].
    unfold bind at 1. unfold old_split_add at 1.
    rewrite (bind_Ret_eq _ _ _ _ _ (get_conn_eq _ _ _ Hcj)).
    destruct (decide (j = ci)) as [->|Hne].
    + rewrite (Hci _ Hcj), Z.eqb_refl. simpl.
      destruct (decide (ci ∈ ci :: rest)) as [_|Hn]; [|exfalso; apply Hn; left].
      rewrite split_value_eq, Hcj.
      destruct (split_conn func arrays row cj) as [c'|] eqn:Hs; [|reflexivity].
      rewrite IH.
      * destruct (decide (ci ∈ rest)); [contradiction|reflexivity].
      * exact Hnd.
      * intros k Hk. unfold conns. simpl. rewrite length_insert. apply Hlen. right. exact Hk.
      * intros k c Hk Hkne. unfold conns. simpl.
        rewrite list_lookup_insert_ne by congruence.
        apply Hother; [right; exact Hk|exact Hkne].
      * intros c. unfold conns. simpl.
        rewrite list_lookup_insert_eq by (eapply lookup_lt_Some; exact Hcj).
        intros [= <-]. rewrite (split_conn_run_tag _ _ _ _ _ Hs). apply Hci. exact Hcj.
    + destruct (Z.eqb_spec (run_tag cj) my_tag) as [He|_].
      * exfalso. apply (Hother j cj); [left|exact Hne|exact Hcj|exact He].
      * simpl.
        rewrite IH.
        -- destruct (decide (ci ∈ rest)) as [Hr|Hr];
             destruct (decide (ci ∈ j :: rest)) as [Hc|Hc]; try reflexivity.
           ++ exfalso. apply Hc. right. exact Hr.
           ++ exfalso. apply elem_of_cons in Hc as [->|Hc]; [apply Hne; reflexivity|contradiction].
        -- exact Hnd.
        -- intros k Hk. apply Hlen. right. exact Hk.
        -- intros k c Hk. apply Hother. right. exact Hk.
        -- exact Hci.
Qed.

Lemma old_split_row_eq env func fcinfo arrays q htype hd h r s args :
  run_type func = R_HASH ->
  hash_sql func = Some q ->
  query_args func fcinfo (Some arrays) (Z.of_nat r) (arg_lookup q) = Some args ->
  env_SPI_execute_plan env (st_tick s) q args
    = SPI_OK_SELECT {| tupdesc := [htype]; vals := [[Some (hd r)]] |} ->
  hash_column htype (hd r) = Some h ->
  tags_le (Z.of_nat r) (conns s) ->
  old_split_row env func fcinfo arrays r s =
  match route_row func arrays (part_map (st_cluster s)) (part_mask (st_cluster s))
          r h (conns s) with
  | Some l' => Ret tt (with_tick (S (st_tick s)) (with_conns l' s))
  | None => Crash
  end.
Proof.
  intros Hrun Hsql Hargs Hspi Hh Htags.
  unfold old_split_row, tag_run_on_partitions. rewrite Hrun.
  unfold tag_hash_partitions. rewrite Hsql.
  unfold bind at 1 2.
  rewrite (plproxy_query_exec_eq _ _ _ _ _ _ _ _ _ Hargs Hspi).
  simpl for_each. unfold tag_hash_row at 1.
  change (SPI_getbinval [Some (hd r)] 1) with (hd r, false). cbv beta iota.
  change (SPI_gettypeid [htype] 1) with htype.
  rewrite Hh.
  change (SPI_processed {| tupdesc := [htype]; vals := [[Some (hd r)]] |}) with 1.
  change ((1 =? 0) || (1 <? 1)) with false.
  unfold when, tag_partition, conn_indices, route_row.
  unfold bind, ret, get_cluster.
  change (st_cluster (with_tick (S (st_tick s)) s)) with (st_cluster s).
  destruct (lookupZ _ _) as [ci|]; [|reflexivity].
  destruct (conns s !! ci) as [c|] eqn:Hc.
  2:{ unfold modify_conn, bind, get_cluster. simpl. unfold conns in Hc. rewrite Hc. reflexivity. }
  assert (Hlt : (ci < length (conns s))%nat) by (eapply lookup_lt_Some; exact Hc).
  rewrite (modify_conn_eq ci _ (with_tick (S (st_tick s)) s) c Hc).
  rewrite (old_inner_loop func arrays (Z.of_nat r) (Z.of_nat r + 1) ci).
  - match goal with |- context [decide (ci ∈ ?l)] =>
      destruct (decide (ci ∈ l)) as [_|Hn] end.
    2:{ exfalso. apply Hn. apply elem_of_seq. unfold conns in Hlt |- *. simpl.
        rewrite length_insert. lia. }
    rewrite split_value_eq. unfold conns at 1. simpl.
    unfold conns in Hlt. rewrite list_lookup_insert_eq by exact Hlt.
    destruct (split_conn _ _ _ _) as [c'|]; [|reflexivity].
    unfold with_conns, with_tick, conns. simpl. rewrite list_insert_insert_eq. reflexivity.
  - apply NoDup_seq.
  - intros j Hj. apply elem_of_seq in Hj. unfold conns in *. simpl in *. lia.
  - intros j cj _ Hne. unfold conns. simpl.
    rewrite list_lookup_insert_ne by congruence.
    intros Hcj. destruct (Htags cj) as [_ Hhi]; [eapply list_elem_of_lookup_2; exact Hcj|]. lia.
  - intros c0. unfold conns. simpl. unfold conns in Hlt.
    rewrite list_lookup_insert_eq by exact Hlt. intros [= <-]. reflexivity.
Qed.

Lemma route_row_inv func arrays pmap mask r h l l' :
  route_row func arrays pmap mask r h l = Some l' ->
  exists ci c c',
    lookupZ pmap (part_index (to_uint32 h) mask) = Some ci /\
    l !! ci = Some c /\
    split_conn func arrays (Z.of_nat r) (set_run_tag (Z.of_nat r + 1) c) = Some c' /\
    run_tag c' = Z.of_nat r + 1 /\
    l' = <[ci := c']> l.
Proof.
  unfold route_row.
  destruct (lookupZ _ _) as [ci|]; [|discriminate].
  destruct (l !! ci) as [c|] eqn:Hc; [|discriminate].
  destruct (split_conn _ _ _ _) as [c'|] eqn:Hs; [|discriminate].
  intros [= <-]. exists ci, c, c'. repeat split; try reflexivity; try assumption.
  apply split_conn_run_tag in Hs. exact Hs.
Qed.

Lemma route_row_tags func arrays pmap mask r h l l' :
  tags_le (Z.of_nat r) l ->
  route_row func arrays pmap mask r h l = Some l' ->
  tags_le (Z.of_nat (S r)) l'.
Proof.
  intros Htags H.
  apply route_row_inv in H as (ci & c & c' & _ & Hc & _ & Htag & ->).
  intros x Hx. apply list_elem_of_lookup_1 in Hx as [j Hj].
  destruct (decide (ci = j)) as [->|Hne].
  - rewrite list_lookup_insert_eq in Hj by (eapply lookup_lt_Some; exact Hc).
    injection Hj as <-. lia.
  - rewrite list_lookup_insert_ne in Hj by exact Hne.
    destruct (Htags x) as [Hlo Hhi]; [eapply list_elem_of_lookup_2; exact Hj|]. lia.
Qed.

Lemma new_rows_eq func arrays htype hd hash n : forall a s,
  (forall r, (a <= r < a + n)%nat -> hash_column htype (hd r) = Some (hash r)) ->
  Z.of_nat (a + n) < 2 ^ 31 ->
  tags_le (Z.of_nat a) (conns s) ->
  for_each (map (subscript_row hd) (seq a n)) (new_split_row func INT4OID htype arrays) s =
  match route_rows func arrays (part_map (st_cluster s)) (part_mask (st_cluster s))
          hash (seq a n) (conns s) with
  | Some l' => Ret tt (with_conns l' s)
  | None => Crash
  end.
Proof.
  induction n as [|n IH]; intros a s Hh Hn Htags; simpl.
  - rewrite with_conns_id. reflexivity.
  - unfold bind at 1.
    rewrite (new_split_row_eq func arrays htype hd (hash a) a s); [|apply Hh; lia|lia|exact Htags].
    destruct (route_row _ _ _ _ _ _ _) as [l1|] eqn:Hr; [|reflexivity].
    rewrite IH.
    + reflexivity.
    + intros r Hr'. apply Hh. lia.
    + lia.
    + eapply route_row_tags; [exact Htags|exact Hr].
Qed.

Lemma old_rows_eq env func fcinfo arrays q htype hd hash n : forall a s,
  run_type func = R_HASH ->
  hash_sql func = Some q ->
  (forall t r, (a <= r < a + n)%nat ->
     exists args,
       query_args func fcinfo (Some arrays) (Z.of_nat r) (arg_lookup q) = Some args /\
       env_SPI_execute_plan env t q args
         = SPI_OK_SELECT {| tupdesc := [htype]; vals := [[Some (hd r)]] |}) ->
  (forall r, (a <= r < a + n)%nat -> hash_column htype (hd r) = Some (hash r)) ->
  tags_le (Z.of_nat a) (conns s) ->
  for_each (seq a n) (old_split_row env func fcinfo arrays) s =
  match route_rows func arrays (part_map (st_cluster s)) (part_mask (st_cluster s))
          hash (seq a n) (conns s) with
  | Some l' => Ret tt (with_tick (st_tick s + n) (with_conns l' s))
  | None => Crash
  end.
Proof.
  induction n as [|n IH]; intros a s Hrun Hsql Hq Hh Htags; simpl.
  - rewrite with_conns_id. rewrite Nat.add_0_r. destruct s. reflexivity.
  - unfold bind at 1.
    destruct (Hq (st_tick s) a) as (args & Hargs & Hspi); [lia|].
    rewrite (old_split_row_eq env func fcinfo arrays q htype hd (hash a) a s args);
      try assumption; [|apply Hh; lia].
    destruct (route_row _ _ _ _ _ _ _) as [l1|] eqn:Hr; [|reflexivity].
    rewrite IH; try assumption.
    + simpl. destruct (route_rows _ _ _ _ _ _ _); [|reflexivity].
      f_equal. unfold with_tick, with_conns. simpl. f_equal. lia.
    + intros t r Hr'. apply Hq. lia.
    + intros r Hr'. apply Hh. lia.
    + eapply route_row_tags; [exact Htags|exact Hr].
Qed.


Lemma split_columns_ok func arrays len r :
  arrays_ok func arrays len -> (r < len)%nat ->
  forall cols bs,
    Forall (fun col => (col < length bs)%nat) cols ->
    exists bs', split_columns func arrays (Z.of_nat r) cols bs = Some bs' /\
                length bs' = length bs.
Proof.
  intros Harr Hr. induction cols as [|col cols IH]; intros bs Hall; simpl.
  - exists bs. auto.
  - apply Forall_cons in Hall as [Hcol Hall].
    destruct (IS_SPLIT_ARG func col) eqn:Hs; simpl.
    + destruct (Harr col Hs) as (da & -> & Hv & Hn).
      destruct (lookup_lt_is_Some_2 bs col Hcol) as [astate ->].
      destruct (lookupZ_Some (da_values da) (Z.of_nat r)) as [v ->]; [lia|].
      destruct (lookupZ_Some (da_nulls da) (Z.of_nat r)) as [n ->]; [lia|].
      destruct (IH (<[col := accumArrayResult astate v n]> bs)) as (bs' & Hbs' & Hlen).
      { rewrite length_insert. exact Hall. }
      exists bs'. split; [exact Hbs'|]. rewrite Hlen. apply length_insert.
    + apply IH. exact Hall.
Qed.

Lemma split_conn_ok func arrays len r c :
  arrays_ok func arrays len -> (r < len)%nat -> bstate_ok func c ->
  exists c', split_conn func arrays (Z.of_nat r) c = Some c' /\ bstate_ok func c'.
Proof.
  intros Harr Hr Hb. unfold split_conn.
  set (bs := match bstate c with Some bs => bs | None => replicate (arg_count func) None end).
  assert (Hlen : length bs = arg_count func).
  { unfold bs, bstate_ok in *. destruct (bstate c); [exact Hb|apply length_replicate]. }
  destruct (split_columns_ok func arrays len r Harr Hr (seq 0 (arg_count func)) bs)
    as (bs' & -> & Hlen').
  { apply Forall_forall. intros col Hcol. apply elem_of_seq in Hcol. lia. }
  eexists. split; [reflexivity|]. unfold bstate_ok. simpl. congruence.
Qed.

Lemma route_rows_ok func arrays pmap mask hash len rows : forall l,
  arrays_ok func arrays len ->
  (forall h, exists ci, lookupZ pmap (part_index (to_uint32 h) mask) = Some ci /\
                        (ci < length l)%nat) ->
  Forall (bstate_ok func) l ->
  Forall (fun r => (r < len)%nat) rows ->
  exists l', route_rows func arrays pmap mask hash rows l = Some l'.
Proof.
  induction rows as [|r rows IH]; intros l Harr Hmap Hbs Hrows; simpl.
  - eexists. reflexivity.
  - apply Forall_cons in Hrows as [Hr Hrows].
    unfold route_row.
    destruct (Hmap (hash r)) as (ci & -> & Hlt).
    destruct (lookup_lt_is_Some_2 l ci Hlt) as [c Hc]. rewrite Hc.
    destruct (split_conn_ok func arrays len r (set_run_tag (Z.of_nat r + 1) c) Harr Hr)
      as (c' & -> & Hb').
    { rewrite Forall_lookup in Hbs. exact (Hbs _ _ Hc). }
    apply IH; try assumption.
    + intros h. destruct (Hmap h) as (cj & Hcj & Hltj). exists cj.
      rewrite length_insert. auto.
    + apply Forall_insert; assumption.
Qed.

Lemma split_columns_ext f1 f2 arrays row :
  split_args f1 = split_args f2 ->
  forall cols bs, split_columns f1 arrays row cols bs = split_columns f2 arrays row cols bs.
Proof.
  intros Hs. induction cols as [|col cols IH]; intros bs; simpl; [reflexivity|].
  unfold IS_SPLIT_ARG. rewrite Hs.
  destruct (negb _); [apply IH|].
  destruct (arrays !! col) as [[da|]|]; try reflexivity.
  destruct (bs !! col); try reflexivity.
  destruct (lookupZ (da_values da) row); try reflexivity.
  destruct (lookupZ (da_nulls da) row); try reflexivity.
  apply IH.
Qed.

Lemma route_rows_ext f1 f2 arrays pmap mask hash rows :
  split_args f1 = split_args f2 -> arg_count f1 = arg_count f2 ->
  forall l, route_rows f1 arrays pmap mask hash rows l
            = route_rows f2 arrays pmap mask hash rows l.
Proof.
  intros Hs Ha. induction rows as [|r rows IH]; intros l; simpl; [reflexivity|].
  assert (Hrow : route_row f1 arrays pmap mask r (hash r) l
                 = route_row f2 arrays pmap mask r (hash r) l).
  { unfold route_row, split_conn. rewrite Ha.
    destruct (lookupZ _ _); [|reflexivity].
    destruct (l !! _); [|reflexivity].
    rewrite (split_columns_ext f1 f2 arrays _ Hs). reflexivity. }
  rewrite Hrow. destruct (route_row f2 _ _ _ _ _ _); [apply IH|reflexivity].
Qed.

Lemma query_args_no_arrays func fcinfo arow lookup :
  exists args, query_args func fcinfo None arow lookup = Some args.
Proof.
  induction lookup as [|idx rest [args IH]]; simpl; [eexists; reflexivity|].
  rewrite IH. unfold query_arg.
  destruct (PG_ARGISNULL fcinfo idx); eexists; reflexivity.
Qed.

Lemma query_args_split func fcinfo arrays len r lookup :
  arrays_ok func arrays len -> (r < len)%nat ->
  exists args, query_args func fcinfo (Some arrays) (Z.of_nat r) lookup = Some args.
Proof.
  intros Harr Hr.
  induction lookup as [|idx rest [args IH]]; simpl; [eexists; reflexivity|].
  rewrite IH. unfold query_arg.
  destruct (PG_ARGISNULL fcinfo idx); [eexists; reflexivity|].
  destruct (IS_SPLIT_ARG func idx) eqn:Hs; [|eexists; reflexivity].
  destruct (Harr idx Hs) as (da & -> & Hv & Hn).
  destruct (lookupZ_Some (da_nulls da) (Z.of_nat r)) as [n ->]; [lia|].
  destruct n; [eexists; reflexivity|].
  destruct (lookupZ_Some (da_values da) (Z.of_nat r)) as [v ->]; [lia|].
  eexists; reflexivity.
Qed.

(** ** The two split paths *)

Section SplitPaths.

(** The split function compiled for the single split query ([fnew]) and
    for one hash query per element ([fold]), on the same call, the same
    arrays of [len] elements and the same cluster state [s]. *)
Variable env : Env.
Variable fcinfo : FunctionCallInfo.
Variables fnew fold : ProxyFunction.
Variables qnew qold : ProxyQuery.
Variable arrays : list (option DatumArray).
Variable len : nat.
Variable htype : Oid.
Variable hd : nat -> Datum.
Variable hash : nat -> Z.
Variable s : ExecState.

Hypothesis same_split : split_args fnew = split_args fold.
Hypothesis same_count : arg_count fnew = arg_count fold.
Hypothesis old_on_hash : run_type fold = R_HASH.
Hypothesis new_sql : hash_sql fnew = Some qnew.
Hypothesis old_sql : hash_sql fold = Some qold.

(** The hash of element [r] is the integer [hash r], held in the datum
    [hd r]. *)
Hypothesis hash_values : forall r, (r < len)%nat -> hash_column htype (hd r) = Some (hash r).

(** The split query emits the pairs [(i, hash of element i)], [i = 1..len]:
    the subscripts of the split array start at 1. *)
Hypothesis new_query : forall t args,
  query_args fnew fcinfo None 0 (arg_lookup qnew) = Some args ->
  env_SPI_execute_plan env t qnew args
  = SPI_OK_SELECT {| tupdesc := [INT4OID; htype];
                     vals := map (subscript_row hd) (seq 0 len) |}.

(** The hash query on element [r] returns that one hash, whenever asked. *)
Hypothesis old_query : forall t r args,
  (r < len)%nat ->
  query_args fold fcinfo (Some arrays) (Z.of_nat r) (arg_lookup qold) = Some args ->
  env_SPI_execute_plan env t qold args
  = SPI_OK_SELECT {| tupdesc := [htype]; vals := [[Some (hd r)]] |}.

Hypothesis len_int : Z.of_nat len < 2 ^ 31.
Hypothesis equal_lengths : arrays_ok fold arrays len.

(** The state that [plproxy_clean_results] leaves. *)
Hypothesis fresh : forall c, c ∈ conns s -> run_tag c = 0 /\ bstate c = None.

Lemma fresh_tags : tags_le (Z.of_nat 0) (conns s).
Proof. intros c Hc. destruct (fresh c Hc) as [-> _]. simpl. lia. Qed.

Lemma new_split_args_eq cnt :
  new_split_args env fnew fcinfo cnt (Z.of_nat len) arrays s =
  match route_rows fold arrays (part_map (st_cluster s)) (part_mask (st_cluster s)) hash (seq 0 len) (conns s) with
  | Some l' => Ret tt (with_tick (S (st_tick s)) (with_conns l' s))
  | None => Crash
  end.
Proof.
  unfold new_split_args. rewrite new_sql.
  destruct (query_args_no_arrays fnew fcinfo 0 (arg_lookup qnew)) as [args Hargs].
  rewrite (bind_Ret_eq _ _ _ _ _
             (plproxy_query_exec_eq _ _ _ _ _ _ _ _ _ Hargs (new_query _ _ Hargs))).
  change (SPI_gettypeid _ 1) with INT4OID.
  change (SPI_gettypeid _ 2) with htype.
  cbv beta zeta. simpl (vals _).
  rewrite (new_rows_eq fnew arrays htype hd hash len 0 (with_tick (S (st_tick s)) s)).
  - change (conns (with_tick (S (st_tick s)) s)) with (conns s).
    change (st_cluster (with_tick (S (st_tick s)) s)) with (st_cluster s).
    rewrite (route_rows_ext fnew fold) by assumption.
    destruct (route_rows _ _ _ _ _ _ _); reflexivity.
  - intros r Hr. apply hash_values. lia.
  - simpl. exact len_int.
  - exact fresh_tags.
Qed.

Lemma old_split_args_eq cnt :
  old_split_args env fold fcinfo cnt (Z.of_nat len) arrays s =
  match route_rows fold arrays (part_map (st_cluster s)) (part_mask (st_cluster s)) hash (seq 0 len) (conns s) with
  | Some l' => Ret tt (with_tick (st_tick s + len) (with_conns l' s))
  | None => Crash
  end.
Proof.
  unfold old_split_args. rewrite Nat2Z.id.
  apply (old_rows_eq env fold fcinfo arrays qold htype hd hash len 0 s);
    try assumption.
  - intros t r Hr.
    destruct (query_args_split fold fcinfo arrays len r (arg_lookup qold) equal_lengths)
      as [args Hargs]; [lia|].
    exists args. split; [exact Hargs|]. apply old_query; [lia|exact Hargs].
  - intros r Hr. apply hash_values. lia.
  - exact fresh_tags.
Qed.

Hypothesis cluster_shape : cluster_ok (st_cluster s).

Lemma route_rows_total :
  exists l', route_rows fold arrays (part_map (st_cluster s)) (part_mask (st_cluster s)) hash (seq 0 len) (conns s) = Some l'.
Proof.
  apply (route_rows_ok fold arrays _ _ hash len).
  - exact equal_lengths.
  - intros h. exact (part_index_ok (st_cluster s) h cluster_shape).
  - apply Forall_forall. intros c Hc. destruct (fresh c Hc) as [_ Hb].
    unfold bstate_ok. rewrite Hb. exact I.
  - apply Forall_forall. intros r Hr. apply elem_of_seq in Hr. lia.
Qed.

(** On equal-length split arrays whose subscripts start at 1 and a
    deterministic single-row hash, the single-query path and the
    per-element path both return normally and leave the same connections:
    the same tags and the same accumulated sub-arrays on every connection. *)
Theorem split_paths_agree_from_one (cnt : Z) :
  exists s1 s2,
    new_split_args env fnew fcinfo cnt (Z.of_nat len) arrays s = Ret tt s1 /\
    old_split_args env fold fcinfo cnt (Z.of_nat len) arrays s = Ret tt s2 /\
    conns s1 = conns s2 /\
    (forall ci, (run_tag <$> conns s1 !! ci) = (run_tag <$> conns s2 !! ci) /\
                (bstate <$> conns s1 !! ci) = (bstate <$> conns s2 !! ci)).
Proof.
  destruct route_rows_total as [l' Hl'].
  rewrite new_split_args_eq, old_split_args_eq, Hl'.
  eexists. eexists. split; [reflexivity|]. split; [reflexivity|].
  split; [reflexivity|]. intros ci. split; reflexivity.
Qed.


End SplitPaths.

(** ** Scenario 3: the split array [{1,5,9}] on four partitions *)

Lemma cluster4_ok : cluster_ok cluster4.
Proof.
  split; [exists 2; split; [lia|reflexivity]|].
  split; [reflexivity|]. split; [reflexivity|]. repeat constructor.
Qed.

Lemma cluster4_fresh c :
  c ∈ conns (state_of cluster4) -> run_tag c = 0 /\ bstate c = None.
Proof.
  unfold conns. simpl. intros H.
  repeat (apply elem_of_cons in H as [->|H]; [split; reflexivity|]).
  apply elem_of_nil in H. destruct H.
Qed.

Lemma xs159_hash_values r :
  (r < 3)%nat -> hash_column INT4OID (xs159_elem r) = Some (xs159_elem r).
Proof.
  intros Hr. destruct r as [|[|[|r]]]; try reflexivity. lia.
Qed.

Lemma xs159_new_query t args :
  query_args split_func_new split_call None 0 [0%nat] = Some args ->
  env_SPI_execute_plan (friendly_env (fun _ => None)) t
    {| sql := "select i, h($1[i]) from generate_subscripts($1, 1) i"; arg_lookup := [0%nat] |}
    args
  = SPI_OK_SELECT {| tupdesc := [INT4OID; INT4OID];
                     vals := map (subscript_row xs159_elem) (seq 0 3) |}.
Proof. intros [= <-]. reflexivity. Qed.

Lemma xs159_old_query (t r : nat) args :
  (r < 3)%nat ->
  query_args split_func_old split_call (Some split_arrays) (Z.of_nat r) [0%nat] = Some args ->
  env_SPI_execute_plan (friendly_env (fun _ => None)) t
    {| sql := "select * from h($1)"; arg_lookup := [0%nat] |} args
  = SPI_OK_SELECT {| tupdesc := [INT4OID]; vals := [[Some (xs159_elem r)]] |}.
Proof.
  intros Hr. destruct r as [|[|[|r]]]; try lia; intros [= <-]; reflexivity.
Qed.

Lemma xs159_arrays_ok : arrays_ok split_func_old split_arrays 3.
Proof.
  intros col. destruct col as [|col].
  - intros _. eexists. split; [reflexivity|]. split; reflexivity.
  - unfold IS_SPLIT_ARG. simpl. destruct col; discriminate.
Qed.

Lemma split_paths_agree_from_one_witness :
  exists s1 s2,
    new_split_args (friendly_env (fun _ => None)) split_func_new split_call 1 (Z.of_nat 3)
      split_arrays (state_of cluster4) = Ret tt s1 /\
    old_split_args (friendly_env (fun _ => None)) split_func_old split_call 1 (Z.of_nat 3)
      split_arrays (state_of cluster4) = Ret tt s2 /\
    conns s1 = conns s2 /\
    (forall ci, (run_tag <$> conns s1 !! ci) = (run_tag <$> conns s2 !! ci) /\
                (bstate <$> conns s1 !! ci) = (bstate <$> conns s2 !! ci)).
Proof.
  exact (split_paths_agree_from_one (friendly_env (fun _ => None)) split_call
           split_func_new split_func_old _ _ split_arrays 3 INT4OID xs159_elem xs159_elem
           (state_of cluster4) eq_refl eq_refl eq_refl eq_refl eq_refl
           xs159_hash_values xs159_new_query xs159_old_query
           ltac:(simpl; lia) xs159_arrays_ok cluster4_fresh cluster4_ok 1).
Defined.



(** ** Split arrays whose subscripts do not start at 1 *)

(** C3: the two split paths part on an array whose subscripts do not start
    at 1.  The split query lists the subscripts of the array itself, and
    the single-query path takes [idx - 1] for the position of the element.
    On ['[0:2]={1,5,9}'], all of whose elements hash to partition 1, the
    row of subscript 0 is skipped (its subscript equals the tag 0 of an
    untagged connection) and every later row adds the element before its
    own: partition 1 ends with tag 2 and the sub-array [{1,5}], where the
    per-element path gives tag 3 and [{1,5,9}].  On ['[2:4]={1,5,9}'] the
    single-query path reads past the end of the array, where the
    per-element path gives tag 3 and [{1,5,9}] again. *)
Theorem C3_split_paths_diverge :
  let E := friendly_env (fun _ => None) in
  (exists s1 s2 c1 c2,
     prepare_and_tag_partitions E split_func_new (split_call_from 0) (state_of cluster4)
     = Ret tt s1 /\
     prepare_and_tag_partitions E split_func_old (split_call_from 0) (state_of cluster4)
     = Ret tt s2 /\
     conns s1 !! 1%nat = Some c1 /\ conns s2 !! 1%nat = Some c2 /\
     run_tag c1 = 2 /\ split_params c1 = Some [built_array [1; 5]] /\
     run_tag c2 = 3 /\ split_params c2 = Some [built_array [1; 5; 9]]) /\
  prepare_and_tag_partitions E split_func_new (split_call_from 2) (state_of cluster4) = Crash /\
  (exists s2 c2,
     prepare_and_tag_partitions E split_func_old (split_call_from 2) (state_of cluster4)
     = Ret tt s2 /\
     conns s2 !! 1%nat = Some c2 /\
     run_tag c2 = 3 /\ split_params c2 = Some [built_array [1; 5; 9]]).
Proof.
  intros E.
  pose (run := fun f lb => prepare_and_tag_partitions E f (split_call_from lb) (state_of cluster4)).
  pose (p1 := fun o : outcome unit =>
          default (blank_conn "") (conns (final_state o (state_of cluster4)) !! 1%nat)).
  split; [|split].
  - exists (final_state (run split_func_new 0) (state_of cluster4)),
           (final_state (run split_func_old 0) (state_of cluster4)),
           (p1 (run split_func_new 0)), (p1 (run split_func_old 0)).
    do 7 (split; [vm_compute; reflexivity|]). vm_compute. reflexivity.
  - vm_compute. reflexivity.
  - exists (final_state (run split_func_old 2) (state_of cluster4)),
           (p1 (run split_func_old 2)).
    do 3 (split; [vm_compute; reflexivity|]). vm_compute. reflexivity.
Qed.

(** The elements of the array are the same under either subscripts, so
    with subscripts from 1 the very same call is split alike by both
    paths. *)
Example split_paths_agree_on_xs159 :
  exists s1 s2,
    prepare_and_tag_partitions (friendly_env (fun _ => None)) split_func_new
      (split_call_from 1) (state_of cluster4) = Ret tt s1 /\
    prepare_and_tag_partitions (friendly_env (fun _ => None)) split_func_old
      (split_call_from 1) (state_of cluster4) = Ret tt s2 /\
    conns s1 = conns s2.
Proof.
  eexists. eexists. split; [vm_compute; reflexivity|].
  split; vm_compute; reflexivity.
Qed.

(** ** Version branches *)

Example cmp_branch_same_minor : cmp_branch "9.1.4" "9.1.9" = true.
Proof. reflexivity. Qed.

Example cmp_branch_short : cmp_branch "9.1" "9.1.9" = true.
Proof. reflexivity. Qed.

Example cmp_branch_other_minor : cmp_branch "9.1.4" "9.10.4" = false.
Proof. reflexivity. Qed.

Example cmp_branch_other_major : cmp_branch "8.4.2" "9.4.2" = false.
Proof. reflexivity. Qed.

(** * Further properties of the code *)

(** ** Version branches *)

Lemma cmp_branch_from_spec dot : forall this that,
  cmp_branch_from dot this that = true <-> branch_from dot this = branch_from dot that.
Proof.
  intros this. revert dot.
  induction this as [|c1 this IH]; intros dot that; destruct that as [|c2 that]; simpl.
  - split; reflexivity.
  - destruct dot, (is_dot c2); simpl; split; try reflexivity; discriminate.
  - destruct dot, (is_dot c1); simpl; split; try reflexivity; discriminate.
  - destruct (Ascii.eqb c1 c2) eqn:E; simpl.
    + apply Ascii.eqb_eq in E. subst c2.
      destruct (is_dot c1), dot; simpl; try (split; reflexivity);
        rewrite IH; (split; [intros ->; reflexivity|intros [= H]; exact H]).
    + apply Ascii.eqb_neq in E.
      split; [discriminate|].
      destruct (is_dot c1) eqn:D1, (is_dot c2) eqn:D2.
      * unfold is_dot in D1, D2. apply Ascii.eqb_eq in D1, D2. congruence.
      * destruct dot; intros [= H]; try congruence.
      * destruct dot; intros [= H]; try congruence.
      * intros [= H]; congruence.
Qed.

(** X1: [cmp_branch] answers true exactly when the two version strings have
    the same branch, the part before the second dot; so it is an
    equivalence on version strings, and a string that stops after "MAJ.MIN"
    matches every longer one of that branch. *)
Theorem cmp_branch_spec (this that : string) :
  cmp_branch this that = true <-> branch this = branch that.
Proof. apply cmp_branch_from_spec. Qed.

(** ** Frames of the connection driver *)

Create HintDb post.

Lemma call_fields_eq_refl c : call_fields_eq c c.
Proof. repeat split. Qed.

Lemma call_fields_eq_trans c1 c2 c3 :
  call_fields_eq c1 c2 -> call_fields_eq c2 c3 -> call_fields_eq c1 c3.
Proof.
  unfold call_fields_eq. intros (?&?&?&?&?&?&?&?) (?&?&?&?&?&?&?&?).
  repeat split; congruence.
Qed.

#[export] Instance frame_rel : WorldRel frame.
Proof.
  split.
  - intros s. repeat split.
  - unfold frame. intros s1 s2 s3 (?&?&?&?&?&?&?&?&?) (?&?&?&?&?&?&?&?&?).
    repeat split; congruence.
  - intros s t. repeat split.
Qed.

#[export] Instance frame_trace : TraceRel frame.
Proof. split. intros s tr. repeat split. Qed.

#[export] Instance only_conn_rel ci : WorldRel (only_conn ci).
Proof.
  split.
  - intros s. split; [apply wr_refl|]. split; [reflexivity|].
    intros c Hc. exists c. split; [exact Hc|apply call_fields_eq_refl].
  - intros s1 s2 s3 (F1 & O1 & C1) (F2 & O2 & C2).
    split; [eapply wr_trans; eassumption|]. split.
    + intros j Hj. rewrite (O2 j Hj). apply O1. exact Hj.
    + intros c Hc. destruct (C1 c Hc) as (c2 & Hc2 & E12).
      destruct (C2 c2 Hc2) as (c3 & Hc3 & E23).
      exists c3. split; [exact Hc3|]. eapply call_fields_eq_trans; eassumption.
  - intros s t. split; [apply wr_tick|]. split; [reflexivity|].
    intros c Hc. exists c. split; [exact Hc|apply call_fields_eq_refl].
Qed.

#[export] Instance only_conn_trace ci : TraceRel (only_conn ci).
Proof.
  split. intros s tr. split; [apply wr_trace|]. split; [reflexivity|].
  intros c Hc. exists c. split; [exact Hc|apply call_fields_eq_refl].
Qed.

#[export] Instance driver_rel_rel : WorldRel driver_rel.
Proof.
  split.
  - intros s. split; [apply wr_refl|].
    intros i c Hc. exists c. split; [exact Hc|]. split; [apply call_fields_eq_refl|reflexivity].
  - intros s1 s2 s3 (F1 & C1) (F2 & C2).
    split; [eapply wr_trans; eassumption|].
    intros i c Hc. destruct (C1 i c Hc) as (c2 & Hc2 & E12 & U12).
    destruct (C2 i c2 Hc2) as (c3 & Hc3 & E23 & U23).
    exists c3. split; [exact Hc3|]. split; [eapply call_fields_eq_trans; eassumption|].
    intros Hz. rewrite (U12 Hz) in *. apply U23. exact Hz.
  - intros s t. split; [apply wr_tick|].
    intros i c Hc. exists c. split; [exact Hc|]. split; [apply call_fields_eq_refl|reflexivity].
Qed.

#[export] Instance driver_rel_trace : TraceRel driver_rel.
Proof.
  split. intros s tr. split; [apply wr_trace|].
  intros i c Hc. exists c. split; [exact Hc|]. split; [apply call_fields_eq_refl|reflexivity].
Qed.

Section Post.

Context {R : ExecState -> ExecState -> Prop} `{!WorldRel R}.

Lemma post_ret {A} (a : A) : post R (ret a).
Proof. intros s. apply wr_refl. Qed.

Lemma post_raise {A} e : post R (@raise A e).
Proof. intros s. apply wr_refl. Qed.

Lemma post_crash {A} : post R (@crash A).
Proof. intros s. exact I. Qed.

Lemma post_out_of_fuel {A} : post R (@out_of_fuel A).
Proof. intros s. exact I. Qed.

Lemma post_ask {A} (f : nat -> A) : post R (ask f).
Proof. intros s. apply (wr_tick s). Qed.

Lemma post_emit `{!TraceRel R} ev : post R (emit ev).
Proof. intros s. apply wr_trace. Qed.

Lemma post_get_cluster : post R get_cluster.
Proof. intros s. apply wr_refl. Qed.

Lemma post_bind {A B} (m : M A) (k : A -> M B) :
  post R m -> (forall a, post R (k a)) -> post R (bind m k).
Proof.
  intros Hm Hk s. unfold bind. specialize (Hm s).
  destruct (m s) as [a s1|e s1| |]; try exact Hm; try exact I.
  specialize (Hk a s1).
  destruct (k a s1) as [b s2|e s2| |]; try exact I; eapply wr_trans; eassumption.
Qed.

Lemma post_get_conn i : post R (get_conn i).
Proof.
  unfold get_conn. apply post_bind; [apply post_get_cluster|].
  intros cl. destruct (conn_list cl !! i); [apply post_ret|apply post_crash].
Qed.

Lemma post_conn_indices : post R conn_indices.
Proof.
  unfold conn_indices. apply post_bind; [apply post_get_cluster|].
  intros cl. apply post_ret.
Qed.

Lemma post_for_each {A} (l : list A) (body : A -> M unit) :
  (forall x, post R (body x)) -> post R (for_each l body).
Proof.
  intros Hb. induction l as [|x l IH]; simpl; [apply post_ret|].
  apply post_bind; [apply Hb|]. intros _. exact IH.
Qed.

End Post.

(** A write to connection [ci] that keeps its per-call fields. *)
Lemma post_modify_conn ci f :
  (forall c, call_fields_eq c (f c)) -> post (only_conn ci) (modify_conn ci f).
Proof.
  intros Hf s. unfold modify_conn, bind, get_cluster.
  destruct (conn_list (st_cluster s) !! ci) as [c|] eqn:Hc; [|exact I].
  unfold put_cluster. unfold only_conn, frame, conns. simpl.
  split; [repeat split; apply length_insert|]. split.
  - intros j Hj. apply list_lookup_insert_ne. congruence.
  - intros c0 Hc0. rewrite Hc in Hc0. injection Hc0 as <-.
    exists (f c). split; [|apply Hf].
    apply list_lookup_insert_eq. eapply lookup_lt_Some. exact Hc.
Qed.

(** Steps for the code at hand, set where they are needed. *)
Ltac post_extra := fail.

Ltac post_step :=
  first
    [ solve [auto 1 with post nocore]
    | post_extra
    | apply post_ret | apply post_raise | apply post_crash | apply post_out_of_fuel
    | apply post_ask | apply post_emit | apply post_get_cluster | apply post_get_conn
    | apply post_conn_indices
    | apply post_modify_conn; intros ?; repeat split
    | apply post_bind; [|intros ?]
    | match goal with
      | |- post _ (match ?x with _ => _ end) => destruct x
      | |- post _ (if ?b then _ else _) => destruct b
      end ].

Ltac post_tac :=
  unfold conn_error, plproxy_error, plproxy_remote_error, when, clear_held;
  repeat post_step.

Lemma post_flush_connection env ci : post (only_conn ci) (flush_connection env ci).
Proof. unfold flush_connection. post_tac. Qed.
#[export] Hint Resolve post_flush_connection : post.

Lemma post_tune_connection env ci : post (only_conn ci) (tune_connection env ci).
Proof. unfold tune_connection. post_tac. Qed.
#[export] Hint Resolve post_tune_connection : post.

Lemma post_send_query env func ci : post (only_conn ci) (send_query env func ci).
Proof. unfold send_query. post_tac. Qed.
#[export] Hint Resolve post_send_query : post.

Lemma post_check_old_conn_poll env fuel conn ci :
  post (only_conn ci) (check_old_conn_poll env fuel conn).
Proof.
  induction fuel as [|fuel IH]; simpl; [apply post_out_of_fuel|].
  post_tac; exact IH.
Qed.
#[export] Hint Resolve post_check_old_conn_poll : post.

Lemma post_check_old_conn env fuel ci now :
  post (only_conn ci) (check_old_conn env fuel ci now).
Proof. unfold check_old_conn. post_tac. Qed.
#[export] Hint Resolve post_check_old_conn : post.

Lemma post_prepare_conn env fuel ci : post (only_conn ci) (prepare_conn env fuel ci).
Proof. unfold prepare_conn. post_tac. Qed.
#[export] Hint Resolve post_prepare_conn : post.

Lemma post_another_result env ci : post (only_conn ci) (another_result env ci).
Proof. unfold another_result. post_tac. Qed.
#[export] Hint Resolve post_another_result : post.

Lemma post_drain_results env fuel ci : post (only_conn ci) (drain_results env fuel ci).
Proof.
  induction fuel as [|fuel IH]; simpl; [apply post_out_of_fuel|].
  post_tac; exact IH.
Qed.
#[export] Hint Resolve post_drain_results : post.

Lemma post_handle_conn env fuel ci : post (only_conn ci) (handle_conn env fuel ci).
Proof. unfold handle_conn. post_tac. Qed.
#[export] Hint Resolve post_handle_conn : post.

Lemma post_check_timeouts ci now : post (only_conn ci) (check_timeouts ci now).
Proof. unfold check_timeouts. post_tac. Qed.
#[export] Hint Resolve post_check_timeouts : post.

(** ** The loops of [remote_execute] *)

Lemma post_at_of_post {A} R (m : M A) s : post R m -> post_at R m s.
Proof. intros H. exact (H s). Qed.

Lemma post_of_post_at {A} R (m : M A) : (forall s, post_at R m s) -> post R m.
Proof. intros H s. exact (H s). Qed.

Lemma post_at_bind {A B} R `{!WorldRel R} (m : M A) (k : A -> M B) s :
  post_at R m s ->
  (forall a s1, m s = Ret a s1 -> post_at R (k a) s1) ->
  post_at R (bind m k) s.
Proof.
  unfold post_at, bind. intros Hm Hk.
  destruct (m s) as [a s1|e s1| |]; try exact Hm; try exact I.
  specialize (Hk a s1 eq_refl).
  destruct (k a s1) as [b s2|e s2| |]; try exact I; eapply wr_trans; eassumption.
Qed.

Lemma post_weaken {A} (R R' : ExecState -> ExecState -> Prop) (m : M A) :
  (forall s s', R s s' -> R' s s') -> post R m -> post R' m.
Proof.
  intros Hsub H s. specialize (H s).
  destruct (m s); try exact I; apply Hsub; exact H.
Qed.

Lemma only_conn_driver ci s s' :
  armed ci s -> only_conn ci s s' -> driver_rel s s' /\ armed ci s'.
Proof.
  intros (c & Hc & Htag) (F & O & C).
  destruct (C c Hc) as (c' & Hc' & E).
  split; [split; [exact F|]|].
  - intros i ci0 Hi. destruct (decide (i = ci)) as [->|Hne].
    + rewrite Hc in Hi. injection Hi as <-.
      exists c'. split; [exact Hc'|]. split; [exact E|]. intros Hz. contradiction.
    + exists ci0. rewrite (O i Hne). split; [exact Hi|].
      split; [apply call_fields_eq_refl|reflexivity].
  - exists c'. split; [exact Hc'|].
    destruct E as (_ & _ & Ht & _). congruence.
Qed.

(** A step on an armed connection, seen from the whole cluster. *)
Lemma armed_step {A} ci (m : M A) s :
  post (only_conn ci) m -> armed ci s ->
  post_at driver_rel m s /\ (forall a s1, m s = Ret a s1 -> armed ci s1).
Proof.
  intros Hm Ha. specialize (Hm s). unfold post_at.
  destruct (m s) as [a s1|e s1| |].
  - destruct (only_conn_driver ci s s1 Ha Hm) as [Hd Ha1].
    split; [exact Hd|]. intros a0 s0 [= <- <-]. exact Ha1.
  - split; [exact (proj1 (only_conn_driver ci s s1 Ha Hm))|]. discriminate.
  - split; [exact I|discriminate].
  - split; [exact I|discriminate].
Qed.

Lemma post_launch_conns env func fuel : forall idxs pending,
  post driver_rel (launch_conns env func fuel idxs pending).
Proof.
  induction idxs as [|i rest IH]; intros pending; simpl; [apply post_ret|].
  apply post_of_post_at. intros s.
  apply post_at_bind; [exact _|apply post_at_of_post, post_get_conn|].
  intros conn s0 Hget. apply get_conn_inv in Hget as [-> Hc].
  destruct (Z.eqb_spec (run_tag conn) 0) as [Hz|Hz]; [apply post_at_of_post, IH|].
  assert (Ha : armed i s) by (exists conn; auto).
  destruct (armed_step i (prepare_conn env fuel i) s (post_prepare_conn _ _ _) Ha) as [Hp Ha1].
  apply post_at_bind; [exact _|exact Hp|].
  intros [] s1 Hs1. specialize (Ha1 _ _ Hs1).
  apply post_at_bind; [exact _|apply post_at_of_post, post_get_conn|].
  intros conn1 s1' Hget1. apply get_conn_inv in Hget1 as [-> Hc1].
  apply post_at_bind; [exact _| |].
  - destruct (state conn1); try (apply post_at_of_post, post_ret).
    exact (proj1 (armed_step i _ s1 (post_send_query env func i) Ha1)).
  - intros _ s2 _. apply post_at_of_post, IH.
Qed.

Lemma post_recheck_conns env fuel revents : forall idxs pf,
  post driver_rel (recheck_conns env fuel revents idxs pf).
Proof.
  induction idxs as [|i rest IH]; intros pf; simpl; [apply post_ret|].
  apply post_of_post_at. intros s.
  apply post_at_bind; [exact _|apply post_at_of_post, post_get_conn|].
  intros conn s0 Hget. apply get_conn_inv in Hget as [-> Hc].
  destruct (Z.eqb_spec (run_tag conn) 0) as [Hz|Hz]; [apply post_at_of_post, IH|].
  assert (Ha : armed i s) by (exists conn; auto).
  destruct (poll_interest (state conn)); [|apply post_at_of_post, IH].
  apply post_at_bind; [exact _| |].
  - unfold when. destruct (revents pf); [|apply post_at_of_post, post_ret].
    exact (proj1 (armed_step i _ s (post_handle_conn env fuel i) Ha)).
  - intros _ s2 _. apply post_at_of_post, IH.
Qed.

Lemma post_poll_conns env fuel : post driver_rel (poll_conns env fuel).
Proof.
  unfold poll_conns. unfold plproxy_error.
  apply post_bind; [apply post_get_cluster|]. intros cl.
  apply post_bind; [apply post_ask|]. intros r.
  destruct r; try apply post_ret; try apply post_raise.
  apply post_bind; [apply post_conn_indices|]. intros idxs.
  apply post_bind; [apply post_recheck_conns|]. intros _. apply post_ret.
Qed.

Lemma post_recheck_pending env func now : forall idxs pending,
  post driver_rel (recheck_pending env func idxs now pending).
Proof.
  induction idxs as [|i rest IH]; intros pending; simpl; [apply post_ret|].
  apply post_of_post_at. intros s.
  apply post_at_bind; [exact _|apply post_at_of_post, post_get_conn|].
  intros conn s0 Hget. apply get_conn_inv in Hget as [-> Hc].
  destruct (Z.eqb_spec (run_tag conn) 0) as [Hz|Hz]; [apply post_at_of_post, IH|].
  assert (Ha : armed i s) by (exists conn; auto).
  assert (Hsend : post (only_conn i)
                    (match state conn with C_READY => send_query env func i | _ => ret tt end)).
  { destruct (state conn); try apply post_ret. apply post_send_query. }
  destruct (armed_step i _ s Hsend Ha) as [Hp Ha1].
  apply post_at_bind; [exact _|exact Hp|].
  intros [] s1 Hs1. specialize (Ha1 _ _ Hs1).
  apply post_at_bind; [exact _|apply post_at_of_post, post_get_conn|].
  intros conn1 s1' Hget1. apply get_conn_inv in Hget1 as [-> Hc1].
  apply post_at_bind; [exact _| |].
  - exact (proj1 (armed_step i _ s1 (post_check_timeouts i now) Ha1)).
  - intros _ s2 _. apply post_at_of_post, IH.
Qed.

Lemma post_wait_results env func fuel : forall pending,
  post driver_rel (wait_results env func fuel pending).
Proof.
  induction fuel as [|fuel IH]; intros pending; simpl.
  - destruct (pending =? 0); [apply post_ret|apply post_out_of_fuel].
  - destruct (pending =? 0); [apply post_ret|].
    unfold CHECK_FOR_INTERRUPTS.
    apply post_bind.
    { apply post_bind; [apply post_ask|]. intros [e|]; [apply post_raise|apply post_ret]. }
    intros _. apply post_bind; [apply post_poll_conns|]. intros ev.
    destruct (ev =? 0); [apply IH|].
    apply post_bind; [apply post_ask|]. intros now.
    apply post_bind; [apply post_conn_indices|]. intros idxs.
    apply post_bind; [apply post_recheck_pending|]. intros p. apply IH.
Qed.

(** ** [remote_execute] as a whole *)

#[export] Instance shape_rel : WorldRel shape.
Proof.
  split.
  - intros s. repeat split.
  - unfold shape. intros s1 s2 s3 (?&?&?&?&?) (?&?&?&?&?). repeat split; congruence.
  - intros s t. repeat split.
Qed.

#[export] Instance shape_trace : TraceRel shape.
Proof. split. intros s tr. repeat split. Qed.

#[export] Instance shape_busy_rel : WorldRel shape_busy.
Proof.
  split.
  - intros s. split; [apply wr_refl|reflexivity].
  - intros s1 s2 s3 [S1 B1] [S2 B2]. split; [eapply wr_trans; eassumption|congruence].
  - intros s t. split; [apply wr_tick|reflexivity].
Qed.

#[export] Instance shape_busy_trace : TraceRel shape_busy.
Proof. split. intros s tr. split; [apply wr_trace|reflexivity]. Qed.

#[export] Instance exec_rel_rel : WorldRel exec_rel.
Proof.
  split.
  - intros s. split; [apply wr_refl|]. split; [reflexivity|]. split; [reflexivity|].
    intros i c Hc. exists c. split; [exact Hc|]. split; [apply call_fields_eq_refl|reflexivity].
  - intros s1 s2 s3 (S1 & B1 & R1 & C1) (S2 & B2 & R2 & C2).
    split; [eapply wr_trans; eassumption|]. split; [congruence|]. split; [congruence|].
    intros i c Hc. destruct (C1 i c Hc) as (c2 & Hc2 & E12 & U12).
    destruct (C2 i c2 Hc2) as (c3 & Hc3 & E23 & U23).
    exists c3. split; [exact Hc3|]. split; [eapply call_fields_eq_trans; eassumption|].
    intros Hz. rewrite (U12 Hz) in *. apply U23. exact Hz.
  - intros s t. split; [apply wr_tick|]. split; [reflexivity|]. split; [reflexivity|].
    intros i c Hc. exists c. split; [exact Hc|]. split; [apply call_fields_eq_refl|reflexivity].
Qed.

#[export] Instance exec_rel_trace : TraceRel exec_rel.
Proof.
  split. intros s tr. split; [apply wr_trace|]. split; [reflexivity|]. split; [reflexivity|].
  intros i c Hc. exists c. split; [exact Hc|]. split; [apply call_fields_eq_refl|reflexivity].
Qed.

Lemma frame_shape_busy s s' : frame s s' -> shape_busy s s'.
Proof. unfold frame, shape_busy, shape. intros (?&?&?&?&?&?&?&?&?). repeat split; assumption. Qed.

Lemma shape_busy_shape s s' : shape_busy s s' -> shape s s'.
Proof. intros [H _]. exact H. Qed.

Lemma driver_exec_rel s s' : driver_rel s s' -> exec_rel s s'.
Proof.
  intros [F C]. pose proof (frame_shape_busy _ _ F) as [S B].
  split; [exact S|]. split; [exact B|]. split; [|exact C].
  destruct F as (_&_&_&_&H&_). exact H.
Qed.

Lemma post_Ret {A} R (m : M A) s a s' : post R m -> m s = Ret a s' -> R s s'.
Proof. intros H E. specialize (H s). rewrite E in H. exact H. Qed.

Lemma post_outcome {A} R (m : M A) s s' :
  post R m -> outcome_state (m s) = Some s' -> R s s'.
Proof.
  intros H E. specialize (H s).
  destruct (m s); simpl in E; try discriminate; injection E as <-; exact H.
Qed.

Lemma post_add_total (g : ProxyCluster -> Z) :
  post exec_rel (modify_cluster (fun cl => set_ret_total (g cl) cl)).
Proof.
  intros s. unfold modify_cluster, bind, get_cluster, put_cluster.
  split; [repeat split|]. split; [reflexivity|]. split; [reflexivity|].
  intros i c Hc. exists c. split; [exact Hc|]. split; [apply call_fields_eq_refl|reflexivity].
Qed.

Ltac post_extra ::= apply post_add_total.

Lemma post_review_results : forall idxs, post exec_rel (review_results idxs).
Proof.
  induction idxs as [|i rest IH]; simpl; [apply post_ret|].
  post_tac; exact IH.
Qed.

Lemma post_remote_execute env func fuel : post exec_rel (remote_execute env func fuel).
Proof.
  unfold remote_execute.
  apply post_bind; [apply post_conn_indices|]. intros idxs.
  apply post_bind.
  { eapply post_weaken; [exact driver_exec_rel|apply post_launch_conns]. }
  intros pending. apply post_bind.
  { eapply post_weaken; [exact driver_exec_rel|apply post_wait_results]. }
  intros _. apply post_bind; [apply post_conn_indices|]. intros idxs2.
  apply post_review_results.
Qed.

(** X2: [remote_execute], however it ends, leaves the configuration, the
    partition map, the busy flag and the number of connections as they
    were, changes no connection in its tag, split parameters, build states
    or query parameters, and does not touch a connection that is not
    armed. *)
Theorem remote_execute_frame (env : Env) (func : ProxyFunction) (fuel : nat)
    (s s' : ExecState) :
  outcome_state (remote_execute env func fuel s) = Some s' ->
  shape s s' /\
  busy (st_cluster s') = busy (st_cluster s) /\
  forall i c, conns s !! i = Some c ->
    exists c', conns s' !! i = Some c' /\ call_fields_eq c c' /\
               (run_tag c = 0 -> c' = c).
Proof.
  intros H.
  destruct (post_outcome _ _ _ _ (post_remote_execute env func fuel) H) as (S & B & _ & C).
  auto.
Qed.

(** ** The planning stages *)

Lemma lifecycle_eq_refl c : lifecycle_eq c c.
Proof. repeat split. Qed.

Lemma lifecycle_eq_trans c1 c2 c3 :
  lifecycle_eq c1 c2 -> lifecycle_eq c2 c3 -> lifecycle_eq c1 c3.
Proof.
  unfold lifecycle_eq. intros (?&?&?&?&?&?&?&?&?) (?&?&?&?&?&?&?&?&?).
  repeat split; congruence.
Qed.

(** The planning stages ask SPI and send nothing: the relation is kept by
    a tick, not by an event. *)
#[export] Instance plan_rel_rel : WorldRel plan_rel.
Proof.
  split.
  - intros s. split; [apply wr_refl|]. split; [reflexivity|].
    intros i c Hc. exists c. split; [exact Hc|apply lifecycle_eq_refl].
  - intros s1 s2 s3 (F1 & T1 & C1) (F2 & T2 & C2).
    split; [eapply wr_trans; eassumption|]. split; [congruence|].
    intros i c Hc. destruct (C1 i c Hc) as (c2 & Hc2 & E12).
    destruct (C2 i c2 Hc2) as (c3 & Hc3 & E23).
    exists c3. split; [exact Hc3|]. eapply lifecycle_eq_trans; eassumption.
  - intros s t. split; [apply wr_tick|]. split; [reflexivity|].
    intros i c Hc. exists c. split; [exact Hc|apply lifecycle_eq_refl].
Qed.

Lemma post_modify_conn_plan i f :
  (forall c, lifecycle_eq c (f c)) -> post plan_rel (modify_conn i f).
Proof.
  intros Hf s. unfold modify_conn, bind, get_cluster.
  destruct (conn_list (st_cluster s) !! i) as [c|] eqn:Hc; [|exact I].
  unfold put_cluster. unfold plan_rel, frame, conns. simpl.
  split; [repeat split; apply length_insert|]. split; [reflexivity|].
  intros j cj Hj. destruct (decide (i = j)) as [->|Hne].
  - rewrite Hc in Hj. injection Hj as <-. exists (f c). split; [|apply Hf].
    apply list_lookup_insert_eq. eapply lookup_lt_Some. exact Hc.
  - exists cj. rewrite list_lookup_insert_ne by exact Hne.
    split; [exact Hj|apply lifecycle_eq_refl].
Qed.

Ltac post_extra ::=
  first [ apply post_modify_conn_plan; intros ?; repeat split
        | apply post_for_each; intros ? ].

Lemma post_plproxy_query_exec env func fcinfo q ap arow :
  post plan_rel (plproxy_query_exec env func fcinfo q ap arow).
Proof. unfold plproxy_query_exec. post_tac. Qed.
#[export] Hint Resolve post_plproxy_query_exec : post.

Lemma post_tag_partition i tag : post plan_rel (tag_partition i tag).
Proof. unfold tag_partition. post_tac. Qed.
#[export] Hint Resolve post_tag_partition : post.

Lemma post_tag_hash_row htype tag row : post plan_rel (tag_hash_row htype tag row).
Proof. unfold tag_hash_row. post_tac. Qed.
#[export] Hint Resolve post_tag_hash_row : post.

Lemma post_tag_run_on_partitions env func fcinfo tag ap arow :
  post plan_rel (tag_run_on_partitions env func fcinfo tag ap arow).
Proof. unfold tag_run_on_partitions, tag_hash_partitions. post_tac. Qed.
#[export] Hint Resolve post_tag_run_on_partitions : post.

Lemma post_get_int row col oid : post plan_rel (get_int row col oid).
Proof. unfold get_int. post_tac. Qed.
#[export] Hint Resolve post_get_int : post.

Lemma post_split_value func arrays ci row : post plan_rel (split_value func arrays ci row).
Proof. unfold split_value. post_tac. Qed.
#[export] Hint Resolve post_split_value : post.

Lemma post_new_split_args env func fcinfo cnt len arrays :
  post plan_rel (new_split_args env func fcinfo cnt len arrays).
Proof. unfold new_split_args, new_split_row. post_tac. Qed.
#[export] Hint Resolve post_new_split_args : post.

Lemma post_old_split_args env func fcinfo cnt len arrays :
  post plan_rel (old_split_args env func fcinfo cnt len arrays).
Proof. unfold old_split_args, old_split_row, old_split_add. post_tac. Qed.
#[export] Hint Resolve post_old_split_args : post.

Lemma post_collect_split_arrays func fcinfo : forall cols arrays len cnt,
  post plan_rel (collect_split_arrays func fcinfo cols arrays len cnt).
Proof.
  induction cols as [|i rest IH]; intros arrays len cnt; simpl; [apply post_ret|].
  post_tac; apply IH.
Qed.
#[export] Hint Resolve post_collect_split_arrays : post.

Lemma post_prepare_and_tag_partitions env func fcinfo :
  post plan_rel (prepare_and_tag_partitions env func fcinfo).
Proof. unfold prepare_and_tag_partitions, copy_split_params. post_tac. Qed.

Lemma post_bind_params env func fcinfo : forall lookup i,
  post plan_rel (bind_params env func fcinfo lookup i).
Proof.
  induction lookup as [|idx rest IH]; intros i; simpl; [apply post_ret|].
  unfold add_param, set_param. post_tac; apply IH.
Qed.

Lemma post_prepare_query_parameters env func fcinfo :
  post plan_rel (prepare_query_parameters env func fcinfo).
Proof. unfold prepare_query_parameters. apply post_bind_params. Qed.


(** ** The whole call *)

Lemma plan_rel_shape_busy s s' : plan_rel s s' -> shape_busy s s'.
Proof. intros [F _]. apply frame_shape_busy. exact F. Qed.

Lemma exec_rel_shape_busy s s' : exec_rel s s' -> shape_busy s s'.
Proof. intros (S & B & _). split; assumption. Qed.

Lemma post_modify_conn_shape i f : post shape_busy (modify_conn i f).
Proof.
  intros s. unfold modify_conn, bind, get_cluster.
  destruct (conn_list (st_cluster s) !! i) as [c|] eqn:Hc; [|exact I].
  unfold put_cluster, shape_busy, shape, conns. simpl.
  repeat split. apply length_insert.
Qed.

Lemma post_plproxy_clean_results : post shape_busy plproxy_clean_results.
Proof.
  unfold plproxy_clean_results.
  apply post_bind; [intros s; repeat split|]. intros _.
  apply post_bind; [apply post_conn_indices|]. intros idxs.
  apply post_for_each. intros ci. unfold clean_conn.
  apply post_bind; [apply post_get_conn|]. intros conn.
  apply post_bind; [unfold clear_held; destruct (res conn); [apply post_emit|apply post_ret]|].
  intros _. apply post_modify_conn_shape.
Qed.

Lemma post_cancel_conns env : forall idxs, post frame (cancel_conns env idxs).
Proof.
  induction idxs as [|i rest IH]; simpl; [apply post_ret|].
  post_tac; exact IH.
Qed.

Lemma post_remote_cancel env : post frame (remote_cancel env).
Proof.
  unfold remote_cancel. apply post_bind; [apply post_conn_indices|].
  intros idxs. apply post_cancel_conns.
Qed.

Lemma post_set_busy b : post shape (modify_cluster (set_busy b)).
Proof. intros s. repeat split. Qed.

Lemma post_exec_body env func fcinfo fuel :
  post shape
    (plproxy_clean_results ;;
     prepare_and_tag_partitions env func fcinfo ;;
     prepare_query_parameters env func fcinfo ;;
     remote_execute env func fuel).
Proof.
  eapply post_weaken; [exact shape_busy_shape|].
  apply post_bind; [apply post_plproxy_clean_results|]. intros _.
  apply post_bind.
  { eapply post_weaken; [exact plan_rel_shape_busy|apply post_prepare_and_tag_partitions]. }
  intros _. apply post_bind.
  { eapply post_weaken; [exact plan_rel_shape_busy|apply post_prepare_query_parameters]. }
  intros _. eapply post_weaken; [exact exec_rel_shape_busy|apply post_remote_execute].
Qed.

Lemma post_exec_handler env e :
  post shape_busy (when (is_query_canceled e) (remote_cancel env) ;; plproxy_clean_results).
Proof.
  apply post_bind.
  - unfold when. destruct (is_query_canceled e); [|apply post_ret].
    eapply post_weaken; [exact frame_shape_busy|apply post_remote_cancel].
  - intros _. apply post_plproxy_clean_results.
Qed.

(** X3: whatever way a call ends, it leaves the shape of the cluster as it
    found it and the cluster is not marked busy. *)
Theorem plproxy_exec_not_busy (env : Env) (func : ProxyFunction)
    (fcinfo : FunctionCallInfo) (fuel : nat) (s s' : ExecState) :
  outcome_state (plproxy_exec env func fcinfo fuel s) = Some s' ->
  shape s s' /\ busy (st_cluster s') = false.
Proof.
  intros H.
  destruct (plproxy_exec env func fcinfo fuel s) as [[] s1|e s1| |] eqn:E;
    simpl in H; try discriminate; injection H as <-.
  - apply try_catch_Ret_inv in E.
    apply bind_Ret_inv in E as ([] & s2 & E1 & E).
    pose proof (post_Ret _ _ _ _ _ (post_set_busy true) E1) as S1.
    assert (exists s3, (plproxy_clean_results ;;
             prepare_and_tag_partitions env func fcinfo ;;
             prepare_query_parameters env func fcinfo ;;
             remote_execute env func fuel) s2 = Ret tt s3 /\
             modify_cluster (set_busy false) s3 = Ret tt s1) as (s3 & E2 & E3).
    { apply bind_Ret_inv in E as ([] & s3 & Ea & E).
      apply bind_Ret_inv in E as ([] & s4 & Eb & E).
      apply bind_Ret_inv in E as ([] & s5 & Ec & E).
      apply bind_Ret_inv in E as ([] & s6 & Ed & E).
      exists s6. split; [|exact E].
      erewrite bind_Ret_eq by exact Ea. erewrite bind_Ret_eq by exact Eb.
      erewrite bind_Ret_eq by exact Ec. exact Ed. }
    pose proof (post_Ret _ _ _ _ _ (post_exec_body env func fcinfo fuel) E2) as S2.
    pose proof (post_Ret _ _ _ _ _ (post_set_busy false) E3) as S3.
    split; [eapply wr_trans; [exact S1|]; eapply wr_trans; eassumption|].
    unfold modify_cluster, bind, get_cluster, put_cluster in E3.
    injection E3 as <-. reflexivity.
  - apply try_catch_Raise_inv in E as (e0 & s0 & Eb & Eh).
    assert (shape s s0) as S0.
    { pose proof (post_set_busy true s) as P1.
      apply bind_Raise_inv in Eb as [Eb|([] & s2 & E1 & Eb)].
      { rewrite Eb in P1. exact P1. }
      rewrite E1 in P1. eapply wr_trans; [exact P1|].
      assert (exists e1, (plproxy_clean_results ;;
               prepare_and_tag_partitions env func fcinfo ;;
               prepare_query_parameters env func fcinfo ;;
               remote_execute env func fuel) s2 = Raise e1 s0 \/
              exists s3, (plproxy_clean_results ;;
               prepare_and_tag_partitions env func fcinfo ;;
               prepare_query_parameters env func fcinfo ;;
               remote_execute env func fuel) s2 = Ret tt s3 /\
               modify_cluster (set_busy false) s3 = Raise e0 s0) as (e1 & Hb).
      { exists e0.
        apply bind_Raise_inv in Eb as [Eb|([] & s3 & Ea & Eb)].
        { left. unfold bind at 1. rewrite Eb. reflexivity. }
        erewrite bind_Ret_eq by exact Ea.
        apply bind_Raise_inv in Eb as [Eb|([] & s4 & Ea' & Eb)].
        { left. unfold bind at 1. rewrite Eb. reflexivity. }
        erewrite bind_Ret_eq by exact Ea'.
        apply bind_Raise_inv in Eb as [Eb|([] & s5 & Ea'' & Eb)].
        { left. unfold bind at 1. rewrite Eb. reflexivity. }
        erewrite bind_Ret_eq by exact Ea''.
        apply bind_Raise_inv in Eb as [Eb|([] & s6 & Ea''' & Eb)].
        { left. exact Eb. }
        right. exists s6. split; assumption. }
      destruct Hb as [Hb|(s3 & Hb & Hc)].
      - pose proof (post_exec_body env func fcinfo fuel s2) as P2.
        rewrite Hb in P2. exact P2.
      - discriminate Hc. }
    assert (exists s2, modify_cluster (set_busy false) s0 = Ret tt s2 /\
              outcome_state ((when (is_query_canceled e0) (remote_cancel env) ;;
                              plproxy_clean_results) s2) = Some s1) as (s2 & E1 & E2).
    { eexists. split; [reflexivity|].
      destruct Eh as [[_ Eh]|Eh]; unfold bind at 1 in Eh;
        unfold modify_cluster at 1, bind at 1, get_cluster, put_cluster in Eh;
        rewrite Eh; reflexivity. }
    pose proof (post_outcome _ _ _ _ (post_exec_handler env e0) E2) as [S2 B2].
    split.
    + eapply wr_trans; [exact S0|]. eapply wr_trans; [|exact S2].
      apply (post_Ret _ _ _ _ _ (post_set_busy false) E1).
    + rewrite B2. injection E1 as <-. reflexivity.
Qed.

(** ** The total *)

Lemma sum_rows_at_shift c l : forall a n,
  sum_rows_at (c :: l) (seq (S a) n) = sum_rows_at l (seq a n).
Proof.
  intros a n. revert a. induction n as [|n IH]; intros a; simpl; [reflexivity|].
  rewrite IH. reflexivity.
Qed.

Lemma sum_rows_at_seq l : sum_rows_at l (seq 0 (length l)) = sum_rows l.
Proof.
  induction l as [|c l IH]; simpl; [reflexivity|].
  rewrite sum_rows_at_shift, IH. reflexivity.
Qed.

(** The counter is an [int]: the sum is taken with its wrap-around. *)
Lemma review_results_sum idxs : forall s s',
  - 2 ^ 31 <= ret_total (st_cluster s) < 2 ^ 31 ->
  review_results idxs s = Ret tt s' ->
  ret_total (st_cluster s') = to_int32 (ret_total (st_cluster s) + sum_rows_at (conns s) idxs).
Proof.
  induction idxs as [|i rest IH]; intros s s' Hrange H; simpl in H.
  - unfold ret in H. injection H as <-. simpl.
    rewrite Z.add_0_r, to_int32_small by exact Hrange. reflexivity.
  - apply bind_Ret_inv in H as (conn & s0 & H0 & H).
    apply get_conn_inv in H0 as [-> Hc].
    assert (Hstep : exists s1, conns s1 = conns s /\
              ret_total (st_cluster s1) = to_int32 (ret_total (st_cluster s) + rows_of conn) /\
              review_results rest s1 = Ret tt s').
    { unfold rows_of. unfold_monad H. unfold modify_cluster in H. unfold_monad H.
      destruct (Z.eqb_spec (run_tag conn) 0) as [Hz|Hz]; simpl in H.
      - destruct (res conn) eqn:Hr; simpl in H; [discriminate|].
        exists s. split; [reflexivity|]. split; [|exact H].
        rewrite Z.add_0_r, to_int32_small by exact Hrange. reflexivity.
      - destruct (res conn) as [r|] eqn:Hr; simpl in H; [|discriminate].
        destruct (state conn) eqn:Hst; try discriminate.
        destruct (PQresultStatus r) eqn:Hrs; try discriminate.
        eexists. split; [|split; [|exact H]]; reflexivity. }
    destruct Hstep as (s1 & Hs1 & Ht & Hrest).
    apply IH in Hrest; [|rewrite Ht; apply to_int32_range].
    rewrite Hrest, Ht, Hs1. simpl.
    unfold rows_at. rewrite Hc, to_int32_add_l. f_equal. lia.
Qed.

(** Past [INT_MAX] the counter wraps: four thousand million rows are
    counted as -294967296. *)
Example review_results_wraps :
  exists s', review_results [0; 1]%nat (state_of counted_cluster) = Ret tt s' /\
             sum_rows (conns s') = 4000000000 /\
             ret_total (st_cluster s') = -294967296.
Proof.
  eexists. split; [vm_compute; reflexivity|].
  split; vm_compute; reflexivity.
Qed.

Lemma post_modify_conn_frame i f : post frame (modify_conn i f).
Proof.
  intros s. unfold modify_conn, bind, get_cluster.
  destruct (conn_list (st_cluster s) !! i) as [c|] eqn:Hc; [|exact I].
  unfold put_cluster, frame, conns. simpl.
  repeat split. apply length_insert.
Qed.

Lemma plproxy_clean_results_cursor s s' :
  plproxy_clean_results s = Ret tt s' ->
  ret_total (st_cluster s') = 0 /\ ret_cur_conn (st_cluster s') = 0.
Proof.
  unfold plproxy_clean_results. intros H.
  apply bind_Ret_inv in H as ([] & s1 & H1 & H).
  assert (post frame (idxs <- conn_indices ;; for_each idxs clean_conn)) as P.
  { apply post_bind; [apply post_conn_indices|]. intros idxs.
    apply post_for_each. intros ci. unfold clean_conn.
    apply post_bind; [apply post_get_conn|]. intros conn.
    apply post_bind; [unfold clear_held; destruct (res conn); [apply post_emit|apply post_ret]|].
    intros _. apply post_modify_conn_frame. }
  pose proof (post_Ret _ _ _ _ _ P H) as (_&_&_&_&Hc&_&Ht&_).
  unfold modify_cluster, bind, get_cluster, put_cluster in H1. injection H1 as <-.
  rewrite Ht, Hc. split; reflexivity.
Qed.

Lemma remote_execute_total env func fuel s s' :
  - 2 ^ 31 <= ret_total (st_cluster s) < 2 ^ 31 ->
  remote_execute env func fuel s = Ret tt s' ->
  ret_total (st_cluster s') = to_int32 (ret_total (st_cluster s) + sum_rows (conns s')) /\
  ret_cur_conn (st_cluster s') = ret_cur_conn (st_cluster s).
Proof.
  intros Hrange H.
  pose proof (post_Ret _ _ _ _ _ (post_remote_execute env func fuel) H) as (_ & _ & Hcur & _).
  split; [|exact Hcur].
  unfold remote_execute in H.
  apply bind_Ret_inv in H as (idxs & s1 & H1 & H).
  unfold conn_indices, bind, get_cluster, ret in H1. injection H1 as <- <-.
  apply bind_Ret_inv in H as (pending & s2 & H2 & H).
  apply bind_Ret_inv in H as ([] & s3 & H3 & H).
  apply bind_Ret_inv in H as (idxs' & s4 & H4 & H).
  unfold conn_indices, bind, get_cluster, ret in H4. injection H4 as <- <-.
  pose proof (post_Ret _ _ _ _ _ (post_launch_conns env func fuel _ 0) H2) as [F2 _].
  pose proof (post_Ret _ _ _ _ _ (post_wait_results env func fuel pending) H3) as [F3 _].
  destruct F2 as (_&_&_&_&_&_&T2&_). destruct F3 as (_&_&_&_&_&_&T3&_).
  assert (Hsum := review_results_sum _ _ _ ltac:(rewrite T3, T2; exact Hrange) H).
  apply review_results_inv in H as [Hc _].
  rewrite Hsum. change (conn_list (st_cluster s3)) with (conns s3).
  rewrite sum_rows_at_seq, Hc, T3, T2. reflexivity.
Qed.

(** X4: a call that returns has counted the rows it holds, in an [int]:
    [ret_total] is the sum of the rows of the results held by the
    connections, wrapped around to 32 bits, so it is that sum whenever the
    sum fits an [int]; and the result cursor is on the first connection. *)
Theorem plproxy_exec_total (env : Env) (func : ProxyFunction)
    (fcinfo : FunctionCallInfo) (fuel : nat) (s s' : ExecState) :
  plproxy_exec env func fcinfo fuel s = Ret tt s' ->
  ret_total (st_cluster s') = to_int32 (sum_rows (conns s')) /\
  (- 2 ^ 31 <= sum_rows (conns s') < 2 ^ 31 ->
   ret_total (st_cluster s') = sum_rows (conns s')) /\
  ret_cur_conn (st_cluster s') = 0.
Proof.
  intros E.
  assert (Hgoal : ret_total (st_cluster s') = to_int32 (sum_rows (conns s')) /\
                  ret_cur_conn (st_cluster s') = 0);
    [|destruct Hgoal as [Ht Hcur]; split; [exact Ht|]; split; [|exact Hcur];
      intros Hfit; rewrite Ht; apply to_int32_small; exact Hfit]. apply try_catch_Ret_inv in E.
  apply bind_Ret_inv in E as ([] & s2 & E1 & E).
  apply bind_Ret_inv in E as ([] & s3 & Ea & E).
  apply bind_Ret_inv in E as ([] & s4 & Eb & E).
  apply bind_Ret_inv in E as ([] & s5 & Ec & E).
  apply bind_Ret_inv in E as ([] & s6 & Ed & E).
  apply plproxy_clean_results_cursor in Ea as [T3 C3].
  pose proof (post_Ret _ _ _ _ _ (post_prepare_and_tag_partitions env func fcinfo) Eb)
    as [(_&_&_&_&C4&_&T4&_) _].
  pose proof (post_Ret _ _ _ _ _ (post_prepare_query_parameters env func fcinfo) Ec)
    as [(_&_&_&_&C5&_&T5&_) _].
  apply remote_execute_total in Ed as [T6 C6]; [|rewrite T5, T4, T3; lia].
  unfold modify_cluster, bind, get_cluster, put_cluster in E. injection E as <-.
  unfold conns in *. simpl. split.
  - rewrite T6, T5, T4, T3. reflexivity.
  - rewrite C6, C5, C4, C3. reflexivity.
Qed.

(** X5: tagging and parameter binding talk to no backend.  However they
    end, they add no event to the trace, leave the bookkeeping of the
    cluster as it was and change no connection's handle, state, result or
    clocks. *)
Theorem planning_keeps_connections (env : Env) (func : ProxyFunction)
    (fcinfo : FunctionCallInfo) (s s' : ExecState) :
  outcome_state ((prepare_and_tag_partitions env func fcinfo ;;
                  prepare_query_parameters env func fcinfo) s) = Some s' ->
  plan_rel s s'.
Proof.
  apply post_outcome. apply post_bind.
  - apply post_prepare_and_tag_partitions.
  - intros _. apply post_prepare_query_parameters.
Qed.

(** ** Reading results *)

Lemma fetched_refl c : fetched c c.
Proof. left. reflexivity. Qed.

Lemma fetched_trans c1 c2 c3 : fetched c1 c2 -> fetched c2 c3 -> fetched c1 c3.
Proof.
  intros [->|(Hn & r & Hr & ->)] H23; [exact H23|].
  destruct H23 as [->|(Hn' & _)]; [|discriminate Hn'].
  right. split; [exact Hn|]. exists r. split; [exact Hr|reflexivity].
Qed.

Lemma another_result_conn env ci s more s' c :
  another_result env ci s = Ret more s' ->
  conns s !! ci = Some c ->
  exists c', conns s' !! ci = Some c' /\
    if more then fetched c c'
    else c' = set_state (if tuning c then C_READY else C_DONE) c.
Proof.
  intros H Hc. unfold another_result in H.
  rewrite (bind_Ret_eq _ _ _ _ _ (get_conn_eq _ _ _ Hc)) in H.
  pose proof (lookup_lt_Some _ _ _ Hc) as Hlt.
  unfold clear_held in H. unfold_monad H. unfold conns in Hc, Hlt. simpl in H.
  repeat (simpl in H; first [rewrite Hc in H | step H]; try discriminate).
  all: simpl in H; injection H as <- <-; unfold conns; simpl;
    try (rewrite list_lookup_insert_eq by exact Hlt);
    eexists; (split; [first [reflexivity|eassumption]|]).
  all: try reflexivity.
  all: try (left; reflexivity).
  all: right; split; [assumption|]; eexists; split; [eassumption|reflexivity].
Qed.

Lemma fetched_tuning c c' : fetched c c' -> tuning c' = tuning c.
Proof. intros [->|(_ & r & _ & ->)]; reflexivity. Qed.

Lemma fetched_state c c' : fetched c c' -> state c' = state c.
Proof. intros [->|(_ & r & _ & ->)]; reflexivity. Qed.

Lemma drain_results_conn env fuel ci : forall s s' c,
  drain_results env fuel ci s = Ret tt s' ->
  conns s !! ci = Some c ->
  exists c1 c', conns s' !! ci = Some c' /\ fetched c c1 /\
    (c' = c1 \/ c' = set_state (if tuning c then C_READY else C_DONE) c1).
Proof.
  induction fuel as [|fuel IH]; intros s s' c H Hc; simpl in H; [discriminate|].
  rewrite (bind_Ret_eq _ _ _ _ _ (get_conn_eq _ _ _ Hc)) in H.
  unfold bind at 1, ask at 1 in H.
  destruct (env_PQisBusy env (st_tick s) (db c)).
  - injection H as <-. exists c, c. split; [exact Hc|]. split; [apply fetched_refl|left; reflexivity].
  - apply bind_Ret_inv in H as (more & s1 & H1 & H).
    apply another_result_conn with (c := c) in H1 as (c2 & Hc2 & Hmore); [|exact Hc].
    destruct more.
    + apply IH with (c := c2) in H as (c1 & c' & Hc' & F & E); [|exact Hc2].
      exists c1, c'. split; [exact Hc'|]. split; [eapply fetched_trans; eassumption|].
      rewrite (fetched_tuning _ _ Hmore) in E. exact E.
    + injection H as <-. exists c, c2. split; [exact Hc2|].
      split; [apply fetched_refl|right; exact Hmore].
Qed.

Lemma flush_connection_conn env ci s s' c :
  flush_connection env ci s = Ret tt s' ->
  conns s !! ci = Some c ->
  exists st, conns s' !! ci = Some (set_state st c) /\
             (st = C_QUERY_WRITE \/ st = C_QUERY_READ).
Proof.
  intros H Hc. unfold flush_connection in H.
  rewrite (bind_Ret_eq _ _ _ _ _ (get_conn_eq _ _ _ Hc)) in H.
  pose proof (lookup_lt_Some _ _ _ Hc) as Hlt.
  unfold_monad H. unfold conns in Hc, Hlt.
  repeat (simpl in H; first [rewrite Hc in H | step H]; try discriminate).
  all: simpl in H; injection H as <-; unfold conns; simpl;
    rewrite list_lookup_insert_eq by exact Hlt; eexists; split; [reflexivity|]; auto.
Qed.

Lemma handle_conn_conn env fuel ci s s' c :
  handle_conn env fuel ci s = Ret tt s' ->
  conns s !! ci = Some c ->
  exists c1 c', conns s' !! ci = Some c' /\ fetched c c1 /\
    c' = set_state (state c') c1 /\
    conn_edge (tuning c) (state c) (state c') = true.
Proof.
  intros H Hc. unfold handle_conn in H.
  rewrite (bind_Ret_eq _ _ _ _ _ (get_conn_eq _ _ _ Hc)) in H.
  pose proof (lookup_lt_Some _ _ _ Hc) as Hlt.
  assert (Hid : c = set_state (state c) c) by (destruct c; reflexivity).
  destruct (state c) eqn:Hst.
  - (* C_NONE *)
    injection H as <-. exists c, c. rewrite Hst.
    split; [exact Hc|]. split; [apply fetched_refl|]. split; [exact Hid|reflexivity].
  - (* C_CONNECT_WRITE *)
    unfold_monad H. unfold conns in Hc, Hlt.
    repeat (simpl in H; first [rewrite Hc in H | step H]; try discriminate).
    all: simpl in H; injection H as <-; unfold conns; simpl;
      rewrite list_lookup_insert_eq by exact Hlt;
      exists c; eexists; split; [reflexivity|]; split; [apply fetched_refl|];
      split; reflexivity.
  - (* C_CONNECT_READ *)
    unfold_monad H. unfold conns in Hc, Hlt.
    repeat (simpl in H; first [rewrite Hc in H | step H]; try discriminate).
    all: simpl in H; injection H as <-; unfold conns; simpl;
      rewrite list_lookup_insert_eq by exact Hlt;
      exists c; eexists; split; [reflexivity|]; split; [apply fetched_refl|];
      split; reflexivity.
  - (* C_READY *)
    injection H as <-. exists c, c. rewrite Hst.
    split; [exact Hc|]. split; [apply fetched_refl|]. split; [exact Hid|reflexivity].
  - (* C_QUERY_WRITE *)
    apply flush_connection_conn with (c := c) in H as (st & Hc' & Hs); [|exact Hc].
    exists c, (set_state st c). split; [exact Hc'|]. split; [apply fetched_refl|].
    split; [reflexivity|]. destruct Hs as [-> | ->]; reflexivity.
  - (* C_QUERY_READ *)
    apply bind_Ret_inv in H as (r & s1 & H1 & H).
    unfold ask in H1. injection H1 as <- <-.
    apply bind_Ret_inv in H as ([] & s2 & H2 & H).
    assert (s2 = with_tick (S (st_tick s)) s) as ->.
    { unfold when, conn_error, plproxy_error, raise, ret in H2.
      destruct (_ =? 0); [discriminate|]. injection H2 as <-. reflexivity. }
    apply drain_results_conn with (c := c) in H as (c1 & c' & Hc' & F & E); [|exact Hc].
    exists c1, c'. split; [exact Hc'|]. split; [exact F|].
    pose proof (fetched_state _ _ F) as Hs1. rewrite Hst in Hs1.
    destruct E as [-> | ->].
    + rewrite Hs1. split; [rewrite <- Hs1; destruct c1; reflexivity|reflexivity].
    + simpl. split; [reflexivity|]. destruct (tuning c); reflexivity.
  - (* C_DONE *)
    injection H as <-. exists c, c. rewrite Hst.
    split; [exact Hc|]. split; [apply fetched_refl|]. split; [exact Hid|reflexivity].
Qed.

Lemma only_conn_insert ci s s' c c' :
  only_conn ci s s' -> conns s !! ci = Some c -> conns s' !! ci = Some c' ->
  conns s' = <[ci := c']> (conns s).
Proof.
  intros (F & Hother & _) Hc Hc'. apply list_eq. intros j.
  destruct (decide (ci = j)) as [<-|Hne].
  - rewrite list_lookup_insert_eq by (eapply lookup_lt_Some; exact Hc). exact Hc'.
  - rewrite list_lookup_insert_ne by exact Hne. apply Hother. congruence.
Qed.

(** X6: [handle_conn] moves its connection along one edge of the state
    machine and leaves every other connection alone; of the connection it
    changes the state and the result only, and the result only from none to
    one tuple result. *)
Theorem handle_conn_edge (env : Env) (fuel : nat) (ci : nat) (s s' : ExecState)
    (c : ProxyConnection) :
  handle_conn env fuel ci s = Ret tt s' ->
  conns s !! ci = Some c ->
  exists c1 c',
    conns s' = <[ci := c']> (conns s) /\
    conn_edge (tuning c) (state c) (state c') = true /\
    fetched c c1 /\ c' = set_state (state c') c1.
Proof.
  intros H Hc.
  destruct (handle_conn_conn _ _ _ _ _ _ H Hc) as (c1 & c' & Hc' & F & E & Hedge).
  exists c1, c'. split; [|split; [exact Hedge|split; [exact F|exact E]]].
  eapply only_conn_insert; [|exact Hc|exact Hc'].
  apply (post_Ret _ _ _ _ _ (post_handle_conn env fuel ci) H).
Qed.

(** ** Timeouts *)

Lemma check_timeouts_eq ci now s c :
  conns s !! ci = Some c ->
  check_timeouts ci now s =
  match state c with
  | C_CONNECT_READ | C_CONNECT_WRITE =>
      if connect_timeout (config (st_cluster s)) <=? 0 then Ret tt s
      else if now - connect_time c <=? connect_timeout (config (st_cluster s)) then Ret tt s
      else Raise (ProxyError "connect timeout") s
  | C_QUERY_READ | C_QUERY_WRITE =>
      if query_timeout (config (st_cluster s)) <=? 0 then Ret tt s
      else if now - query_time c <=? query_timeout (config (st_cluster s)) then Ret tt s
      else Raise (ProxyError "query timeout") s
  | _ => Ret tt s
  end.
Proof.
  intros Hc. unfold check_timeouts.
  unfold bind at 1. unfold get_cluster.
  rewrite (bind_Ret_eq _ _ _ _ _ (get_conn_eq _ _ _ Hc)).
  destruct (state c); try reflexivity.
  all: repeat match goal with |- context [if ?b then _ else _] => destruct b end; reflexivity.
Qed.

(** X7: [check_timeouts] raises "connect timeout" exactly when the
    connection is connecting, the connect timeout is positive and strictly
    more than that many seconds have passed since the connect started;
    "query timeout" likewise for a running query; in every other case it
    returns, and it never changes the state.  A timeout of zero or less
    switches the check off. *)
Theorem check_timeouts_spec (ci : nat) (now : Z) (s : ExecState) (c : ProxyConnection) :
  conns s !! ci = Some c ->
  let cf := config (st_cluster s) in
  let late_connect := connecting c /\ 0 < connect_timeout cf < now - connect_time c in
  let late_query := querying c /\ 0 < query_timeout cf < now - query_time c in
  (late_connect <-> check_timeouts ci now s = Raise (ProxyError "connect timeout") s) /\
  (late_query <-> check_timeouts ci now s = Raise (ProxyError "query timeout") s) /\
  (~ late_connect /\ ~ late_query <-> check_timeouts ci now s = Ret tt s).
Proof.
  intros Hc cf late_connect late_query. subst late_connect late_query.
  unfold connecting, querying.
  rewrite (check_timeouts_eq ci now s c Hc). fold cf.
  destruct (Z.leb_spec (connect_timeout cf) 0);
    destruct (Z.leb_spec (query_timeout cf) 0);
    destruct (Z.leb_spec (now - connect_time c) (connect_timeout cf));
    destruct (Z.leb_spec (now - query_time c) (query_timeout cf));
    destruct (state c); simpl.
  all: split; [split; [intros [[?|?] ?]; first [discriminate|exfalso; lia|reflexivity]
                      |intros ?; first [discriminate|split; [solve [auto]|lia]]]|].
  all: split; [split; [intros [[?|?] ?]; first [discriminate|exfalso; lia|reflexivity]
                      |intros ?; first [discriminate|split; [solve [auto]|lia]]]|].
  all: split; [intros [Hn1 Hn2]; first [reflexivity
                 |exfalso; apply Hn1; split; [solve [auto]|lia]
                 |exfalso; apply Hn2; split; [solve [auto]|lia]]
              |intros ?; first [discriminate
                 |split; intros [[?|?] ?]; first [discriminate|lia]]].
Qed.

(** ** Cancelling *)

Lemma new_events_app s s' evs :
  st_trace s' = st_trace s ++ evs -> new_events s s' = evs.
Proof. intros H. unfold new_events. rewrite H. apply drop_app_length. Qed.

Lemma cancel_conns_run env : forall idxs s,
  Forall (fun i => (i < length (conns s))%nat) idxs ->
  exists s' evs,
    cancel_conns env idxs s = Ret tt s' /\
    st_cluster s' = st_cluster s /\
    st_trace s' = st_trace s ++ evs /\
    (forall h, In (EvPQcancel h) evs ->
       exists i c, i ∈ idxs /\ conns s !! i = Some c /\ db c = h /\
                   in_flight (state c) = true) /\
    ((forall t h, env_PQgetCancel env t h = true) ->
     (forall t h, env_PQcancel env t h <> 0) ->
     evs = flat_map (fun i => match conns s !! i with
                              | Some c => if in_flight (state c) then [EvPQcancel (db c)] else []
                              | None => []
                              end) idxs) /\
    ((forall i c, i ∈ idxs -> conns s !! i = Some c -> in_flight (state c) = false) ->
     s' = s).
Proof.
  induction idxs as [|i rest IH]; intros s Hall.
  - exists s, []. simpl. repeat split.
    + rewrite app_nil_r. reflexivity.
    + intros h [].
  - apply Forall_cons in Hall as [Hi Hrest].
    destruct (lookup_lt_is_Some_2 _ _ Hi) as [c Hc].
    simpl. rewrite (bind_Ret_eq _ _ _ _ _ (get_conn_eq _ _ _ Hc)).
    destruct (in_flight (state c)) eqn:Hfl.
    + (* a connection in flight: ask for a cancel object, send the cancel *)
      assert (exists s1 ev1,
                (cancel <- ask (fun t => env_PQgetCancel env t (db c)) ;;
                 (if (cancel : bool) then
                    emit (EvPQcancel (db c)) ;;
                    r <- ask (fun t => env_PQcancel env t (db c)) ;;
                    when (r =? 0) (emit (EvNotice "Cancel query failed!"))
                  else emit (EvNotice "Invalid connection!"))) s = Ret tt s1 /\
                st_cluster s1 = st_cluster s /\
                st_trace s1 = st_trace s ++ ev1 /\
                (forall h, In (EvPQcancel h) ev1 -> h = db c) /\
                ((forall t h, env_PQgetCancel env t h = true) ->
                 (forall t h, env_PQcancel env t h <> 0) -> ev1 = [EvPQcancel (db c)]))
        as (s1 & ev1 & E1 & Hcl1 & Htr1 & Hin1 & Hex1).
      { unfold bind, ask, emit, when, ret.
        destruct (env_PQgetCancel env (st_tick s) (db c)) eqn:Hg; simpl.
        - destruct (Z.eqb_spec (env_PQcancel env (S (st_tick s)) (db c)) 0) as [Hz|Hz].
          + eexists; exists [EvPQcancel (db c); EvNotice "Cancel query failed!"].
            split; [reflexivity|]. simpl. split; [reflexivity|].
            split; [rewrite <- app_assoc; reflexivity|]. split.
            * intros h [[= <-]|[[=]|[]]]. reflexivity.
            * intros _ Hok. exfalso. exact (Hok _ _ Hz).
          + eexists; exists [EvPQcancel (db c)].
            split; [reflexivity|]. simpl. split; [reflexivity|].
            split; [reflexivity|]. split.
            * intros h [[= <-]|[]]. reflexivity.
            * intros _ _. reflexivity.
        - eexists; exists [EvNotice "Invalid connection!"].
          split; [reflexivity|]. simpl. split; [reflexivity|].
          split; [reflexivity|]. split.
          + intros h [[=]|[]].
          + intros Hok _. rewrite Hok in Hg. discriminate. }
      assert (Hconns1 : conns s1 = conns s) by (unfold conns; rewrite Hcl1; reflexivity).
      destruct (IH s1) as (s' & evs & E & Hcl & Htr & Hin & Hex & Hidle).
      { rewrite Hconns1. exact Hrest. }
      exists s', (ev1 ++ evs).
      split.
      { destruct (state c); try discriminate Hfl.
        all: unfold bind at 1 in E1; unfold bind at 1;
          destruct (ask (fun t => env_PQgetCancel env t (db c)) s) as [cancel s0| | |];
          try discriminate E1; unfold bind at 1; rewrite E1; exact E. }
      split; [congruence|].
      split; [rewrite Htr, Htr1, app_assoc; reflexivity|].
      split; [|split].
      * intros h Hh. apply in_app_or in Hh as [Hh|Hh].
        -- exists i, c. split; [apply list_elem_of_here|]. split; [exact Hc|].
           split; [symmetry; exact (Hin1 _ Hh)|exact Hfl].
        -- destruct (Hin h Hh) as (j & cj & Hj & Hcj & Hdb & Hflj).
           exists j, cj. split; [apply list_elem_of_further; exact Hj|].
           rewrite <- Hconns1. auto.
      * intros Hg Hok. simpl. unfold conns in *. rewrite Hc, Hfl.
        rewrite (Hex1 Hg Hok), (Hex Hg Hok), Hcl1. reflexivity.
      * intros Hidle'. exfalso.
        specialize (Hidle' i c (list_elem_of_here _ _) Hc). congruence.
    + (* an idle connection is skipped *)
      destruct (IH s Hrest) as (s' & evs & E & Hcl & Htr & Hin & Hex & Hidle).
      exists s', evs.
      split; [destruct (state c); try discriminate Hfl; exact E|].
      split; [exact Hcl|]. split; [exact Htr|]. split; [|split].
      * intros h Hh. destruct (Hin h Hh) as (j & cj & Hj & Hrest').
        exists j, cj. split; [apply list_elem_of_further; exact Hj|exact Hrest'].
      * intros Hg Hok. simpl. unfold conns in *. rewrite Hc, Hfl. simpl. exact (Hex Hg Hok).
      * intros Hidle'. apply Hidle. intros j cj Hj.
        apply Hidle'. apply list_elem_of_further. exact Hj.
Qed.

Lemma flat_map_lookup_seq {A B} (g : A -> list B) (l : list A) : forall pre,
  flat_map (fun i => match (pre ++ l) !! i with Some x => g x | None => [] end)
           (seq (length pre) (length l))
  = flat_map g l.
Proof.
  induction l as [|x l IH]; intros pre; simpl; [reflexivity|].
  rewrite lookup_app_r by lia. rewrite Nat.sub_diag. simpl.
  f_equal.
  specialize (IH (pre ++ [x])). rewrite <- app_assoc in IH. simpl in IH.
  rewrite length_app in IH. simpl in IH. rewrite Nat.add_1_r in IH. exact IH.
Qed.

(** X8: [remote_cancel] always returns and leaves the cluster as it was.
    Every cancel request goes to a connection that is in flight; when libpq
    hands out the cancel objects and accepts the requests, exactly the
    connections in flight are cancelled, in connection order, and nothing
    else is sent; with no connection in flight nothing happens at all. *)
Theorem remote_cancel_spec (env : Env) (s : ExecState) :
  exists s',
    remote_cancel env s = Ret tt s' /\
    st_cluster s' = st_cluster s /\
    (forall h, In (EvPQcancel h) (new_events s s') ->
       exists c, c ∈ conns s /\ db c = h /\ in_flight (state c) = true) /\
    ((forall t h, env_PQgetCancel env t h = true) ->
     (forall t h, env_PQcancel env t h <> 0) ->
     st_trace s' = st_trace s ++ cancel_events (conns s)) /\
    (Forall (fun c => in_flight (state c) = false) (conns s) -> s' = s).
Proof.
  destruct (cancel_conns_run env (seq 0 (length (conns s))) s)
    as (s' & evs & E & Hcl & Htr & Hin & Hex & Hidle).
  { apply Forall_forall. intros i Hi. apply elem_of_seq in Hi. lia. }
  exists s'. split; [exact E|]. split; [exact Hcl|]. split; [|split].
  - rewrite (new_events_app _ _ _ Htr). intros h Hh.
    destruct (Hin h Hh) as (i & c & _ & Hc & Hdb & Hfl).
    exists c. split; [eapply list_elem_of_lookup_2; exact Hc|]. split; assumption.
  - intros Hg Hok. rewrite Htr, (Hex Hg Hok). f_equal.
    exact (flat_map_lookup_seq
             (fun c => if in_flight (state c) then [EvPQcancel (db c)] else [])
             (conns s) []).
  - intros Hall. apply Hidle. intros i c _ Hc.
    rewrite Forall_forall in Hall. apply Hall.
    eapply list_elem_of_lookup_2. exact Hc.
Qed.

(** ** Sending the query *)

(** X9: a [send_query] that returns has sent exactly one thing on the
    connection: either the tuning statement, and then the connection is
    marked as tuning and was not so before, or the function's query, and
    then it is not.  Either way the query clock was restarted and the
    connection waits to write or to read. *)
Theorem send_query_one_message (env : Env) (func : ProxyFunction) (ci : nat)
    (s s' : ExecState) (c : ProxyConnection) :
  send_query env func ci s = Ret tt s' ->
  conns s !! ci = Some c ->
  exists c',
    conns s' !! ci = Some c' /\
    query_time c' = env_gettimeofday env (st_tick s) /\
    (state c' = C_QUERY_WRITE \/ state c' = C_QUERY_READ) /\
    ((tuning c' = true /\ tuning c = false /\
      exists q, new_events s s' = [EvPQsendQuery (db c) q]) \/
     (tuning c' = false /\
      exists b, new_events s s' = [EvPQsendQueryParams (db c) (sql (remote_sql func)) b])).
Proof.
  intros H Hc'. unfold conns in Hc'.
  unfold send_query, tune_connection, flush_connection in H.
  unfold_monad H. simpl in H.
  destruct (conn_list (st_cluster s) !! ci) as [c0|] eqn:Hc; simpl in H; [|discriminate].
  injection Hc' as ->.
  assert (Hlt : (ci < length (conn_list (st_cluster s)))%nat)
    by (eapply lookup_lt_Some; exact Hc).
  repeat (norm H Hlt; try discriminate; try step H).
  all: try discriminate.
  all: injection H as <-; unfold conns, new_events; simpl in *.
  all: rewrite ?list_insert_insert_eq, ?list_lookup_insert_eq
         by (rewrite ?length_insert; exact Hlt).
  all: repeat rewrite <- app_assoc.
  all: rewrite ?drop_app_length.
  all: eexists; split; [reflexivity|]; simpl.
  all: split; [reflexivity|]; split; [auto|].
  all: first [ left; split; [reflexivity|]; split; [first [assumption|reflexivity]|];
               eexists; reflexivity
             | right; split; [reflexivity|]; eexists; reflexivity ].
Qed.

(** ** Tagging without a hash *)

Lemma with_conns_with_conns l l' s : with_conns l' (with_conns l s) = with_conns l' s.
Proof. reflexivity. Qed.

Lemma lookupZ_of_nat {A} (l : list A) (i : nat) : lookupZ l (Z.of_nat i) = l !! i.
Proof.
  unfold lookupZ. destruct (Z.ltb_spec (Z.of_nat i) 0); [lia|].
  rewrite Nat2Z.id. reflexivity.
Qed.

Lemma tag_partition_eq i tag s ci c :
  lookupZ (part_map (st_cluster s)) i = Some ci ->
  conns s !! ci = Some c ->
  tag_partition i tag s = Ret tt (with_conns (alter (set_run_tag tag) ci (conns s)) s).
Proof.
  intros Hi Hc. unfold tag_partition, bind at 1, get_cluster. rewrite Hi.
  rewrite (modify_conn_eq _ _ _ _ Hc), (insert_as_alter _ _ _ _ Hc). reflexivity.
Qed.

Lemma tag_range tag : forall targets pre s,
  part_map (st_cluster s) = pre ++ targets ->
  Forall (fun ci => (ci < length (conns s))%nat) targets ->
  for_each (seq (length pre) (length targets))
           (fun i => tag_partition (Z.of_nat i) tag) s
  = Ret tt (with_conns (tag_all tag targets (conns s)) s).
Proof.
  induction targets as [|ci rest IH]; intros pre s Hmap Hall.
  - simpl. unfold ret, with_conns, conns. destruct s as [[] ? ?]. reflexivity.
  - apply Forall_cons in Hall as [Hci Hrest].
    destruct (lookup_lt_is_Some_2 _ _ Hci) as [c Hc].
    simpl.
    erewrite bind_Ret_eq; cycle 1.
    { apply tag_partition_eq with (c := c); [|exact Hc].
      rewrite lookupZ_of_nat, Hmap, lookup_app_r by lia.
      rewrite Nat.sub_diag. reflexivity. }
    specialize (IH (pre ++ [ci]) (with_conns (alter (set_run_tag tag) ci (conns s)) s)).
    rewrite length_app in IH. simpl in IH. rewrite Nat.add_1_r in IH.
    rewrite IH.
    + reflexivity.
    + simpl. rewrite Hmap, <- app_assoc. reflexivity.
    + unfold conns at 1. simpl. rewrite length_alter. exact Hrest.
Qed.

(** X10: with [RUN ON ALL] on a well-formed cluster the tagging returns, and
    it has given the tag to exactly the connections that the partition map
    mentions; every other connection and everything else in the state is as
    before. *)
Theorem run_on_all_tags_part_map (env : Env) (func : ProxyFunction)
    (fcinfo : FunctionCallInfo) (tag : Z) (ap : option (list (option DatumArray)))
    (arow : Z) (s : ExecState) :
  run_type func = R_ALL ->
  cluster_ok (st_cluster s) ->
  exists l,
    tag_run_on_partitions env func fcinfo tag ap arow s = Ret tt (with_conns l s) /\
    forall ci, l !! ci =
      if decide (ci ∈ part_map (st_cluster s))
      then set_run_tag tag <$> conns s !! ci
      else conns s !! ci.
Proof.
  intros Hrun (_ & _ & Hlen & Hall).
  exists (tag_all tag (part_map (st_cluster s)) (conns s)).
  split; [|intros ci; apply lookup_tag_all].
  unfold tag_run_on_partitions. rewrite Hrun.
  unfold bind at 1, get_cluster. rewrite <- Hlen.
  exact (tag_range tag (part_map (st_cluster s)) [] s eq_refl Hall).
Qed.

Lemma land_mask_range r k : 0 <= k -> 0 <= Z.land r (2 ^ k - 1) < 2 ^ k.
Proof.
  intros Hk.
  replace (2 ^ k - 1) with (Z.ones k) by (rewrite Z.ones_equiv; lia).
  rewrite Z.land_ones by exact Hk. apply Z.mod_pos_bound. apply Z.pow_pos_nonneg; lia.
Qed.

(** X11: with [RUN ON ANY] on a well-formed cluster the tagging returns, and
    it has tagged the one connection that the partition map holds at the
    random number masked with [part_mask]; the index is inside the map
    whatever the random number is. *)
Theorem run_on_any_tags_one (env : Env) (func : ProxyFunction)
    (fcinfo : FunctionCallInfo) (tag : Z) (ap : option (list (option DatumArray)))
    (arow : Z) (s : ExecState) :
  run_type func = R_ANY ->
  cluster_ok (st_cluster s) ->
  let i := Z.land (env_random env (st_tick s)) (part_mask (st_cluster s)) in
  0 <= i < part_count (st_cluster s) /\
  exists ci c,
    part_map (st_cluster s) !! Z.to_nat i = Some ci /\
    conns s !! ci = Some c /\
    tag_run_on_partitions env func fcinfo tag ap arow s
    = Ret tt (with_tick (S (st_tick s)) (with_conns (<[ci := set_run_tag tag c]> (conns s)) s)).
Proof.
  intros Hrun ((k & Hk & Hpc) & Hmask & Hlen & Hall) i. subst i.
  rewrite Hmask, Hpc.
  pose proof (land_mask_range (env_random env (st_tick s)) k ltac:(lia)) as Hr.
  assert (Hle : 2 ^ k <= 2 ^ 30) by (apply Z.pow_le_mono_r; lia).
  split; [exact Hr|].
  set (i := Z.land (env_random env (st_tick s)) (2 ^ k - 1)) in *.
  destruct (lookup_lt_is_Some_2 (part_map (st_cluster s)) (Z.to_nat i)) as [ci Hci].
  { rewrite Hlen, Hpc. lia. }
  rewrite Forall_lookup in Hall. pose proof (Hall _ _ Hci) as Hlt.
  destruct (lookup_lt_is_Some_2 _ _ Hlt) as [c Hc].
  exists ci, c. split; [exact Hci|]. split; [exact Hc|].
  unfold tag_run_on_partitions. rewrite Hrun.
  unfold bind at 1, get_cluster. unfold bind at 1, ask.
  rewrite Hmask, Hpc. fold i.
  rewrite to_int32_small by lia.
  erewrite tag_partition_eq with (ci := ci) (c := c).
  - rewrite <- (insert_as_alter _ _ _ _ Hc). reflexivity.
  - simpl. unfold lookupZ. destruct (Z.ltb_spec i 0); [lia|exact Hci].
  - exact Hc.
Qed.

(** X12: with [RUN ON <number>] the tagging raises "part number out of
    range" when the number is negative or not below [part_count], and
    otherwise, on a well-formed cluster, tags the one connection that the
    partition map holds at that number. *)
Theorem run_on_exact_tags_one (env : Env) (func : ProxyFunction)
    (fcinfo : FunctionCallInfo) (tag : Z) (ap : option (list (option DatumArray)))
    (arow : Z) (s : ExecState) :
  run_type func = R_EXACT ->
  cluster_ok (st_cluster s) ->
  let i := exact_nr func in
  (i < 0 \/ part_count (st_cluster s) <= i ->
   tag_run_on_partitions env func fcinfo tag ap arow s
   = Raise (ProxyError "part number out of range") s) /\
  (0 <= i < part_count (st_cluster s) ->
   exists ci c,
     part_map (st_cluster s) !! Z.to_nat i = Some ci /\
     conns s !! ci = Some c /\
     tag_run_on_partitions env func fcinfo tag ap arow s
     = Ret tt (with_conns (<[ci := set_run_tag tag c]> (conns s)) s)).
Proof.
  intros Hrun ((k & Hk & Hpc) & Hmask & Hlen & Hall) i. subst i.
  unfold tag_run_on_partitions. rewrite Hrun.
  unfold bind at 1, get_cluster. split.
  - intros Hout. unfold bind, when.
    destruct (Z.ltb_spec (exact_nr func) 0);
      destruct (Z.leb_spec (part_count (st_cluster s)) (exact_nr func)); simpl;
      try reflexivity; lia.
  - intros Hin.
    destruct (lookup_lt_is_Some_2 (part_map (st_cluster s)) (Z.to_nat (exact_nr func)))
      as [ci Hci].
    { rewrite Hlen. lia. }
    rewrite Forall_lookup in Hall. pose proof (Hall _ _ Hci) as Hlt.
    destruct (lookup_lt_is_Some_2 _ _ Hlt) as [c Hc].
    exists ci, c. split; [exact Hci|]. split; [exact Hc|].
    unfold bind, when.
    destruct (Z.ltb_spec (exact_nr func) 0);
      destruct (Z.leb_spec (part_count (st_cluster s)) (exact_nr func)); simpl; try lia.
    unfold ret.
    erewrite tag_partition_eq with (ci := ci) (c := c).
    + rewrite <- (insert_as_alter _ _ _ _ Hc). reflexivity.
    + unfold lookupZ. destruct (Z.ltb_spec (exact_nr func) 0); [lia|exact Hci].
    + exact Hc.
Qed.

(** ** What the split gives to each partition *)

Lemma split_columns_lookup func arrays row : forall cols bs bs',
  NoDup cols ->
  split_columns func arrays row cols bs = Some bs' ->
  length bs' = length bs /\
  forall col,
    if decide (col ∈ cols) then
      if IS_SPLIT_ARG func col then
        exists da v n astate,
          arrays !! col = Some (Some da) /\
          lookupZ (da_values da) row = Some v /\
          lookupZ (da_nulls da) row = Some n /\
          bs !! col = Some astate /\
          bs' !! col = Some (accumArrayResult astate v n)
      else bs' !! col = bs !! col
    else bs' !! col = bs !! col.
Proof.
  induction cols as [|c rest IH]; intros bs bs' Hnd H; simpl in H.
  - injection H as <-. split; [reflexivity|]. intros col.
    destruct (decide (col ∈ [])) as [Hin|_]; [|reflexivity].
    apply elem_of_nil in Hin. destruct Hin.
  - apply NoDup_cons in Hnd as [Hc Hnd].
    destruct (IS_SPLIT_ARG func c) eqn:Hsp; simpl in H.
    + destruct (arrays !! c) as [[da|]|] eqn:Ha; try discriminate.
      destruct (bs !! c) as [astate|] eqn:Hb; try discriminate.
      destruct (lookupZ (da_values da) row) as [v|] eqn:Hv; try discriminate.
      destruct (lookupZ (da_nulls da) row) as [n|] eqn:Hn; try discriminate.
      destruct (IH _ _ Hnd H) as [Hlen Hcols].
      rewrite length_insert in Hlen. split; [exact Hlen|].
      intros col. specialize (Hcols col).
      destruct (decide (col = c)) as [->|Hne].
      * destruct (decide (c ∈ rest)) as [Hin|_]; [contradiction|].
        destruct (decide (c ∈ c :: rest)) as [_|Hn']; [|exfalso; apply Hn'; apply list_elem_of_here].
        rewrite Hsp. exists da, v, n, astate.
        repeat split; try assumption.
        rewrite Hcols. apply list_lookup_insert_eq. eapply lookup_lt_Some. exact Hb.
      * rewrite list_lookup_insert_ne in Hcols by congruence.
        destruct (decide (col ∈ rest)) as [Hin|Hnin].
        -- destruct (decide (col ∈ c :: rest)) as [_|Hn'];
             [|exfalso; apply Hn'; apply list_elem_of_further; exact Hin].
           exact Hcols.
        -- destruct (decide (col ∈ c :: rest)) as [Hin'|_]; [|exact Hcols].
           apply elem_of_cons in Hin' as [->|Hin']; [congruence|contradiction].
    + destruct (IH _ _ Hnd H) as [Hlen Hcols].
      split; [exact Hlen|].
      intros col. specialize (Hcols col).
      destruct (decide (col ∈ rest)) as [Hin|Hnin].
      * destruct (decide (col ∈ c :: rest)) as [_|Hn'];
          [|exfalso; apply Hn'; apply list_elem_of_further; exact Hin].
        exact Hcols.
      * destruct (decide (col ∈ c :: rest)) as [Hin'|_]; [|exact Hcols].
        apply elem_of_cons in Hin' as [->|Hin']; [|contradiction].
        rewrite Hsp. exact Hcols.
Qed.

Lemma col_elems_snoc arrays col da rows r v n :
  arrays !! col = Some (Some da) ->
  lookupZ (da_values da) (Z.of_nat r) = Some v ->
  lookupZ (da_nulls da) (Z.of_nat r) = Some n ->
  col_elems arrays col (rows ++ [r]) = col_elems arrays col rows ++ [(v, n)].
Proof.
  intros Ha Hv Hn. unfold col_elems. rewrite Ha, omap_app. f_equal.
  rewrite lookupZ_of_nat in Hv. rewrite lookupZ_of_nat in Hn. simpl. unfold elem_at. rewrite Hv, Hn. reflexivity.
Qed.

Lemma split_conn_holds func arrays r rows c c' :
  split_conn func arrays (Z.of_nat r) c = Some c' ->
  holds_rows func arrays rows c ->
  holds_rows func arrays (rows ++ [r]) c'.
Proof.
  unfold split_conn. intros H Hh.
  destruct (split_columns _ _ _ _ _) as [bs'|] eqn:Hsc; [|discriminate].
  injection H as <-.
  apply split_columns_lookup in Hsc as [Hlen Hcols]; [|apply NoDup_seq].
  assert (Hnil : exists x l, rows ++ [r] = x :: l).
  { destruct rows; simpl; eauto. }
  destruct Hnil as (x & l & Hxl). unfold holds_rows. rewrite Hxl, <- Hxl.
  exists bs'. split; [reflexivity|].
  assert (Hbs : length (match bstate c with
                        | Some bs => bs
                        | None => replicate (arg_count func) None
                        end) = arg_count func /\
                forall col, (col < arg_count func)%nat ->
                  (match bstate c with
                   | Some bs => bs
                   | None => replicate (arg_count func) None
                   end) !! col
                  = Some (if IS_SPLIT_ARG func col
                          then match rows with
                               | [] => None
                               | _ => Some (col_elems arrays col rows)
                               end
                          else None)).
  { destruct rows as [|r0 rows0]; simpl in Hh.
    - rewrite Hh. split; [apply length_replicate|].
      intros col Hcol. rewrite lookup_replicate_2 by exact Hcol.
      destruct (IS_SPLIT_ARG func col); reflexivity.
    - destruct Hh as (bs & -> & Hl & Hb). split; [exact Hl|exact Hb]. }
  destruct Hbs as [Hl Hb]. simpl.
  split; [rewrite Hlen; exact Hl|].
  intros col Hcol. specialize (Hcols col). specialize (Hb col Hcol).
  destruct (decide (col ∈ seq 0 (arg_count func))) as [_|Hn];
    [|exfalso; apply Hn; apply elem_of_seq; lia].
  destruct (IS_SPLIT_ARG func col) eqn:Hsp.
  - destruct Hcols as (da & v & n & astate & Ha & Hv & Hn & Hbc & Hbc').
    rewrite Hbc', (col_elems_snoc _ _ _ _ _ _ _ Ha Hv Hn).
    rewrite Hb in Hbc. injection Hbc as <-.
    unfold accumArrayResult. destruct rows; [unfold col_elems; rewrite Ha|]; reflexivity.
  - rewrite Hcols. exact Hb.
Qed.

Lemma holds_rows_set_run_tag func arrays rows tag c :
  holds_rows func arrays rows c -> holds_rows func arrays rows (set_run_tag tag c).
Proof. unfold holds_rows. destruct rows; intros H; exact H. Qed.

Lemma route_row_holds func arrays pmap mask hash r l l' (hist : nat -> list nat) :
  route_row func arrays pmap mask r (hash r) l = Some l' ->
  (forall ci c, l !! ci = Some c -> holds_rows func arrays (hist ci) c) ->
  forall ci c', l' !! ci = Some c' ->
    holds_rows func arrays
      (if decide (routed_to pmap mask hash r = Some ci) then hist ci ++ [r] else hist ci) c'.
Proof.
  intros H Hinv ci c' Hc'.
  apply route_row_inv in H as (cj & c & c1 & Hroute & Hc & Hsp & _ & ->).
  unfold routed_to. rewrite Hroute.
  destruct (decide (cj = ci)) as [->|Hne].
  - rewrite list_lookup_insert_eq in Hc' by (eapply lookup_lt_Some; exact Hc).
    injection Hc' as <-.
    destruct (decide (Some ci = Some ci)) as [_|Hn]; [|congruence].
    eapply split_conn_holds; [exact Hsp|].
    apply holds_rows_set_run_tag. exact (Hinv _ _ Hc).
  - rewrite list_lookup_insert_ne in Hc' by exact Hne.
    destruct (decide (Some cj = Some ci)) as [[= E]|_]; [contradiction|].
    exact (Hinv _ _ Hc').
Qed.

Lemma route_rows_holds func arrays pmap mask hash : forall rows done l l',
  route_rows func arrays pmap mask hash rows l = Some l' ->
  (forall ci c, l !! ci = Some c ->
     holds_rows func arrays (rows_of_conn pmap mask hash ci done) c) ->
  forall ci c', l' !! ci = Some c' ->
    holds_rows func arrays (rows_of_conn pmap mask hash ci (done ++ rows)) c'.
Proof.
  induction rows as [|r rest IH]; intros done l l' H Hinv ci c' Hc'; simpl in H.
  - injection H as <-. rewrite app_nil_r. exact (Hinv _ _ Hc').
  - destruct (route_row _ _ _ _ _ _ _) as [l1|] eqn:H1; [|discriminate].
    replace (done ++ r :: rest) with ((done ++ [r]) ++ rest)
      by (rewrite <- app_assoc; reflexivity).
    apply (IH (done ++ [r]) l1 l' H); [|exact Hc'].
    intros cj c1 Hc1.
    pose proof (route_row_holds _ _ _ _ _ _ _ _ _ H1 Hinv cj c1 Hc1) as Hh.
    unfold rows_of_conn in *. rewrite filter_app, filter_singleton by exact [].
    destruct (decide (routed_to pmap mask hash r = Some cj)).
    + exact Hh.
    + rewrite app_nil_r. exact Hh.
Qed.

Lemma fresh_holds func arrays pmap mask hash (l : list ProxyConnection) :
  (forall c, c ∈ l -> run_tag c = 0 /\ bstate c = None) ->
  forall ci c, l !! ci = Some c ->
    holds_rows func arrays (rows_of_conn pmap mask hash ci []) c.
Proof.
  intros Hfresh ci c Hc. simpl.
  exact (proj2 (Hfresh c (list_elem_of_lookup_2 _ _ _ Hc))).
Qed.

Section SplitContents.

(** A split function on a call with the arrays [arrays] of [len] elements,
    from the state [s] that [plproxy_clean_results] leaves; the hash of
    element [r] is [hash r]. *)
Variable env : Env.
Variable fcinfo : FunctionCallInfo.
Variable func : ProxyFunction.
Variable q : ProxyQuery.
Variable arrays : list (option DatumArray).
Variable len : nat.
Variable htype : Oid.
Variable hd : nat -> Datum.
Variable hash : nat -> Z.
Variable s : ExecState.

Hypothesis the_sql : hash_sql func = Some q.
Hypothesis hash_values : forall r, (r < len)%nat -> hash_column htype (hd r) = Some (hash r).
Hypothesis fresh : forall c, c ∈ conns s -> run_tag c = 0 /\ bstate c = None.

(** X13: the single split query gives every connection exactly the rows whose
    hash routes to it, in the order of the input array, side by side in
    every split column; a connection that no row routes to gets no build
    state. *)
Theorem new_split_args_contents (cnt : Z) (s1 : ExecState) :
  (forall t args,
     query_args func fcinfo None 0 (arg_lookup q) = Some args ->
     env_SPI_execute_plan env t q args
     = SPI_OK_SELECT {| tupdesc := [INT4OID; htype];
                        vals := map (subscript_row hd) (seq 0 len) |}) ->
  Z.of_nat len < 2 ^ 31 ->
  new_split_args env func fcinfo cnt (Z.of_nat len) arrays s = Ret tt s1 ->
  forall ci c', conns s1 !! ci = Some c' ->
    holds_rows func arrays
      (rows_of_conn (part_map (st_cluster s)) (part_mask (st_cluster s)) hash ci (seq 0 len)) c'.
Proof.
  intros Hquery Hlen H ci c' Hc'.
  rewrite (new_split_args_eq env fcinfo func func q arrays len htype hd hash s
             eq_refl eq_refl the_sql hash_values Hquery Hlen fresh cnt) in H.
  destruct (route_rows _ _ _ _ _ _ _) as [l'|] eqn:Hr; [|discriminate].
  injection H as <-.
  exact (route_rows_holds _ _ _ _ _ _ [] _ _ Hr
           (fresh_holds _ _ _ _ _ _ fresh) ci c' Hc').
Qed.

(** X14: one hash query per element gives every connection exactly the rows
    whose hash routes to it, in the order of the input array, side by side
    in every split column; a connection that no row routes to gets no build
    state. *)
Theorem old_split_args_contents (cnt : Z) (s1 : ExecState) :
  run_type func = R_HASH ->
  (forall t r args,
     (r < len)%nat ->
     query_args func fcinfo (Some arrays) (Z.of_nat r) (arg_lookup q) = Some args ->
     env_SPI_execute_plan env t q args
     = SPI_OK_SELECT {| tupdesc := [htype]; vals := [[Some (hd r)]] |}) ->
  arrays_ok func arrays len ->
  old_split_args env func fcinfo cnt (Z.of_nat len) arrays s = Ret tt s1 ->
  forall ci c', conns s1 !! ci = Some c' ->
    holds_rows func arrays
      (rows_of_conn (part_map (st_cluster s)) (part_mask (st_cluster s)) hash ci (seq 0 len)) c'.
Proof.
  intros Hrun Hquery Hok H ci c' Hc'.
  rewrite (old_split_args_eq env fcinfo func func q arrays len htype hd hash s
             eq_refl Hrun the_sql hash_values Hquery Hok fresh cnt) in H.
  destruct (route_rows _ _ _ _ _ _ _) as [l'|] eqn:Hr; [|discriminate].
  injection H as <-.
  exact (route_rows_holds _ _ _ _ _ _ [] _ _ Hr
           (fresh_holds _ _ _ _ _ _ fresh) ci c' Hc').
Qed.

End SplitContents.

(** ** Collecting the arrays to split *)

Lemma elem_count_nonneg v : 0 <= elem_count (make_datum_array v).
Proof. destruct v; simpl; lia. Qed.

Lemma split_cols_cons func i rest :
  split_cols func (i :: rest) =
  if IS_SPLIT_ARG func i then i :: split_cols func rest else split_cols func rest.
Proof.
  unfold split_cols. rewrite filter_cons.
  destruct (IS_SPLIT_ARG func i); simpl.
  - destruct (decide (true = true)); [reflexivity|congruence].
  - destruct (decide (false = true)); [discriminate|reflexivity].
Qed.

(** One round of the loop on a split argument that is NULL or an array of
    at most one dimension. *)
Lemma collect_split_arrays_step func fcinfo i rest arrays len cnt s :
  IS_SPLIT_ARG func i = true ->
  ~ not_an_array fcinfo i -> ~ multi_dim fcinfo i ->
  collect_split_arrays func fcinfo (i :: rest) arrays len cnt s =
  if len <? 0 then
    collect_split_arrays func fcinfo rest
      (arrays ++ [Some (make_datum_array (arg_array fcinfo i))]) (split_len fcinfo i) (cnt + 1) s
  else if split_len fcinfo i =? len then
    collect_split_arrays func fcinfo rest
      (arrays ++ [Some (make_datum_array (arg_array fcinfo i))]) len (cnt + 1) s
  else Raise (ProxyError "split arrays must be of identical lengths") s.
Proof.
  intros Hsp Hna Hmd. simpl. rewrite Hsp. simpl.
  unfold split_len, arg_array, not_an_array, multi_dim, PG_ARGISNULL in *.
  destruct (fc_args fcinfo !! i) as [[[d|a]|]|] eqn:E; simpl in *.
  - exfalso. apply Hna. exists d. reflexivity.
  - destruct (Z.ltb_spec 1 (ARR_NDIM a)) as [Hnd|Hnd].
    { exfalso. apply Hmd. exists a. split; [reflexivity|exact Hnd]. }
    unfold bind, when, ret, plproxy_error, raise. simpl.
    destruct (len <? 0); [reflexivity|].
    destruct (_ =? len); reflexivity.
  - unfold bind, when, ret, plproxy_error, raise. simpl.
    destruct (len <? 0); [reflexivity|].
    destruct len; reflexivity.
  - unfold bind, when, ret, plproxy_error, raise. simpl.
    destruct (len <? 0); [reflexivity|].
    destruct len; reflexivity.
Qed.

Lemma collect_split_arrays_crash func fcinfo i rest arrays len cnt s :
  IS_SPLIT_ARG func i = true -> not_an_array fcinfo i ->
  collect_split_arrays func fcinfo (i :: rest) arrays len cnt s = Crash.
Proof.
  intros Hsp [d Hd]. simpl. rewrite Hsp. simpl.
  unfold PG_ARGISNULL. destruct (fc_args fcinfo !! i) as [[[d'|a]|]|]; try discriminate.
  reflexivity.
Qed.

Lemma collect_split_arrays_multi func fcinfo i rest arrays len cnt s :
  IS_SPLIT_ARG func i = true -> multi_dim fcinfo i ->
  collect_split_arrays func fcinfo (i :: rest) arrays len cnt s =
  Raise (ProxyError "split multi-dimensional arrays are not supported") s.
Proof.
  intros Hsp (a & Ha & Hnd). simpl. rewrite Hsp. simpl.
  unfold PG_ARGISNULL. destruct (fc_args fcinfo !! i) as [[[d'|a']|]|]; try discriminate.
  simpl in Ha. injection Ha as ->. unfold bind, when. simpl.
  destruct (Z.ltb_spec 1 (ARR_NDIM a)); [reflexivity|lia].
Qed.

Lemma arg_cases fcinfo i :
  not_an_array fcinfo i \/ multi_dim fcinfo i \/
  (~ not_an_array fcinfo i /\ ~ multi_dim fcinfo i).
Proof.
  unfold not_an_array, multi_dim.
  destruct (mjoin (fc_args fcinfo !! i)) as [[d|a]|].
  - left. exists d. reflexivity.
  - destruct (Z.ltb_spec 1 (ARR_NDIM a)).
    + right. left. exists a. split; [reflexivity|assumption].
    + right. right. split; [intros [d [=]]|intros (a' & [= <-] & ?); lia].
  - right. right. split; [intros [d [=]]|intros (a' & [=] & ?)].
Qed.

(** The outcome of the collecting loop from any point on. *)
Lemma collect_split_arrays_outcome func fcinfo : forall cols arrays len cnt s,
  match collect_split_arrays func fcinfo cols arrays len cnt s with
  | Ret (arrays', len', cnt') s' =>
      s' = s /\
      arrays' = arrays ++ map (split_array func fcinfo) cols /\
      cnt' = cnt + Z.of_nat (length (split_cols func cols)) /\
      (split_cols func cols = [] -> len' = len) /\
      (forall i, i ∈ split_cols func cols -> split_len fcinfo i = len') /\
      (0 <= len -> len' = len) /\
      (forall i, i ∈ split_cols func cols -> ~ not_an_array fcinfo i /\ ~ multi_dim fcinfo i)
  | Raise e s' =>
      s' = s /\
      ((e = ProxyError "split multi-dimensional arrays are not supported" /\
        exists i, i ∈ split_cols func cols /\ multi_dim fcinfo i) \/
       (e = ProxyError "split arrays must be of identical lengths" /\
        exists i, i ∈ split_cols func cols /\
          ((0 <= len /\ split_len fcinfo i <> len) \/
           exists j, j ∈ split_cols func cols /\ split_len fcinfo j <> split_len fcinfo i)))
  | Crash => exists i, i ∈ split_cols func cols /\ not_an_array fcinfo i
  | OutOfFuel => False
  end.
Proof.
  induction cols as [|i rest IH]; intros arrays len cnt s.
  - simpl. split; [reflexivity|]. rewrite app_nil_r. split; [reflexivity|].
    split; [lia|]. split; [reflexivity|].
    split; [|split; [reflexivity|]]; intros i Hi; apply elem_of_nil in Hi; destruct Hi.
  - rewrite split_cols_cons.
    destruct (IS_SPLIT_ARG func i) eqn:Hsp.
    + destruct (arg_cases fcinfo i) as [Hna|[Hmd|[Hna Hmd]]].
      * rewrite (collect_split_arrays_crash _ _ _ _ _ _ _ _ Hsp Hna).
        exists i. split; [apply list_elem_of_here|exact Hna].
      * rewrite (collect_split_arrays_multi _ _ _ _ _ _ _ _ Hsp Hmd).
        split; [reflexivity|]. left. split; [reflexivity|].
        exists i. split; [apply list_elem_of_here|exact Hmd].
      * rewrite (collect_split_arrays_step _ _ _ _ _ _ _ _ Hsp Hna Hmd).
        pose proof (elem_count_nonneg (arg_array fcinfo i)) as Hnn.
        fold (split_len fcinfo i) in Hnn.
        assert (Hmap : forall l, arrays ++ split_array func fcinfo i :: l
                       = (arrays ++ [Some (make_datum_array (arg_array fcinfo i))]) ++ l).
        { intros l. unfold split_array. rewrite Hsp, <- app_assoc. reflexivity. }
        destruct (Z.ltb_spec len 0) as [Hneg|Hpos].
        -- specialize (IH (arrays ++ [Some (make_datum_array (arg_array fcinfo i))])
                          (split_len fcinfo i) (cnt + 1) s).
           destruct (collect_split_arrays _ _ _ _ _ _ _) as [[[arrays' len'] cnt'] s'|e s'| |].
           ++ destruct IH as (-> & -> & -> & H1 & H2 & H3 & H4).
              split; [reflexivity|]. simpl. split; [apply eq_sym, Hmap|].
              split; [lia|]. split; [discriminate|]. split; [|split; [lia|]].
              ** intros j Hj. apply elem_of_cons in Hj as [->|Hj]; [|exact (H2 _ Hj)].
                 symmetry. apply H3. exact Hnn.
              ** intros j Hj. apply elem_of_cons in Hj as [->|Hj]; [|exact (H4 _ Hj)].
                 split; assumption.
           ++ destruct IH as (-> & IH). split; [reflexivity|].
              destruct IH as [(-> & j & Hj & Hmj)|(-> & j & Hj & Hbad)].
              ** left. split; [reflexivity|]. exists j.
                 split; [apply list_elem_of_further; exact Hj|exact Hmj].
              ** right. split; [reflexivity|].
                 destruct Hbad as [[_ Hbad]|(k & Hk & Hbad)].
                 --- exists i. split; [apply list_elem_of_here|]. right.
                     exists j. split; [apply list_elem_of_further; exact Hj|exact Hbad].
                 --- exists j. split; [apply list_elem_of_further; exact Hj|]. right.
                     exists k. split; [apply list_elem_of_further; exact Hk|exact Hbad].
           ++ destruct IH as (j & Hj & Hbad). exists j.
              split; [apply list_elem_of_further; exact Hj|exact Hbad].
           ++ exact IH.
        -- destruct (Z.eqb_spec (split_len fcinfo i) len) as [Heq|Hne].
           ++ specialize (IH (arrays ++ [Some (make_datum_array (arg_array fcinfo i))])
                             len (cnt + 1) s).
              destruct (collect_split_arrays _ _ _ _ _ _ _) as [[[arrays' len'] cnt'] s'|e s'| |].
              ** destruct IH as (-> & -> & -> & H1 & H2 & H3 & H4).
                 split; [reflexivity|]. simpl. split; [apply eq_sym, Hmap|].
                 split; [lia|]. split; [discriminate|]. split; [|split; [exact H3|]].
                 --- intros j Hj. apply elem_of_cons in Hj as [->|Hj]; [|exact (H2 _ Hj)].
                     rewrite Heq. symmetry. apply H3. exact Hpos.
                 --- intros j Hj. apply elem_of_cons in Hj as [->|Hj]; [|exact (H4 _ Hj)].
                     split; assumption.
              ** destruct IH as (-> & IH). split; [reflexivity|].
                 destruct IH as [(-> & j & Hj & Hmj)|(-> & j & Hj & Hbad)].
                 --- left. split; [reflexivity|]. exists j.
                     split; [apply list_elem_of_further; exact Hj|exact Hmj].
                 --- right. split; [reflexivity|].
                     destruct Hbad as [[Hp Hbad]|(k & Hk & Hbad)].
                     +++ exists j. split; [apply list_elem_of_further; exact Hj|].
                         left. split; assumption.
                     +++ exists j. split; [apply list_elem_of_further; exact Hj|]. right.
                         exists k. split; [apply list_elem_of_further; exact Hk|exact Hbad].
              ** destruct IH as (j & Hj & Hbad). exists j.
                 split; [apply list_elem_of_further; exact Hj|exact Hbad].
              ** exact IH.
           ++ split; [reflexivity|]. right. split; [reflexivity|].
              exists i. split; [apply list_elem_of_here|]. left. split; assumption.
    + assert (Hstep : collect_split_arrays func fcinfo (i :: rest) arrays len cnt s
                      = collect_split_arrays func fcinfo rest (arrays ++ [None]) len cnt s).
      { simpl. rewrite Hsp. reflexivity. }
      rewrite Hstep.
      specialize (IH (arrays ++ [None]) len cnt s).
      destruct (collect_split_arrays _ _ _ _ _ _ _) as [[[arrays' len'] cnt'] s'|e s'| |];
        try exact IH.
      destruct IH as (-> & -> & -> & H1 & H2 & H3 & H4).
      split; [reflexivity|]. split; [|auto].
      rewrite <- app_assoc. simpl. unfold split_array at 2. rewrite Hsp. reflexivity.
Qed.

Lemma elem_of_split_cols func cols i :
  i ∈ split_cols func cols <-> i ∈ cols /\ IS_SPLIT_ARG func i = true.
Proof. unfold split_cols. rewrite list_elem_of_filter. tauto. Qed.

Lemma lookup_map_seq {A} (f : nat -> A) n i :
  (i < n)%nat -> map f (seq 0 n) !! i = Some (f i).
Proof.
  intros Hi. change (map f (seq 0 n)) with (f <$> seq 0 n).
  rewrite list_lookup_fmap, lookup_seq_lt by exact Hi. reflexivity.
Qed.

Lemma collected_arrays_ok func fcinfo (len : Z) :
  split_args_ok func ->
  (forall i, (i < arg_count func)%nat -> IS_SPLIT_ARG func i = true ->
     split_len fcinfo i = len) ->
  arrays_ok func (map (split_array func fcinfo) (seq 0 (arg_count func))) (Z.to_nat len).
Proof.
  intros Hok Hall col Hsp. pose proof (Hok col Hsp) as Hcol.
  exists (make_datum_array (arg_array fcinfo col)).
  split.
  { rewrite lookup_map_seq by exact Hcol. unfold split_array. rewrite Hsp. reflexivity. }
  pose proof (Hall col Hcol Hsp) as Hl. unfold split_len in Hl.
  destruct (arg_array fcinfo col) as [a|]; simpl in *.
  - rewrite !length_map, <- Hl, Nat2Z.id. split; reflexivity.
  - rewrite <- Hl. split; reflexivity.
Qed.

Lemma in_split_cols func i :
  i ∈ split_cols func (seq 0 (arg_count func)) <->
  (i < arg_count func)%nat /\ IS_SPLIT_ARG func i = true.
Proof. rewrite elem_of_split_cols, elem_of_seq. split; intros [? ?]; split; auto; lia. Qed.

(** Split arguments that are NULL or arrays of at most one dimension, and
    of one length, are collected. *)
Lemma collect_split_arrays_good func fcinfo s :
  (forall i, (i < arg_count func)%nat -> IS_SPLIT_ARG func i = true ->
     ~ not_an_array fcinfo i /\ ~ multi_dim fcinfo i) ->
  (forall i j, (i < arg_count func)%nat -> (j < arg_count func)%nat ->
     IS_SPLIT_ARG func i = true -> IS_SPLIT_ARG func j = true ->
     split_len fcinfo i = split_len fcinfo j) ->
  exists len,
    collect_split_arrays func fcinfo (seq 0 (arg_count func)) [] (-1) 0 s
    = Ret (map (split_array func fcinfo) (seq 0 (arg_count func)), len,
           Z.of_nat (length (split_cols func (seq 0 (arg_count func))))) s /\
    forall i, (i < arg_count func)%nat -> IS_SPLIT_ARG func i = true ->
      split_len fcinfo i = len.
Proof.
  intros Hgood Hsame.
  pose proof (collect_split_arrays_outcome func fcinfo (seq 0 (arg_count func)) [] (-1) 0 s) as O.
  destruct (collect_split_arrays _ _ _ _ _ _ _) as [r s'|e s'| |].
  - destruct r as [[arrays len] cnt]. destruct O as (-> & -> & -> & _ & H2 & _).
    exists len. split; [reflexivity|].
    intros i Hi Hsp. apply H2, in_split_cols. split; assumption.
  - exfalso. destruct O as (_ & [(_ & i & Hi & Hmd)|(_ & i & Hi & Hbad)]).
    + apply in_split_cols in Hi as [Hi Hsp]. exact (proj2 (Hgood i Hi Hsp) Hmd).
    + destruct Hbad as [[Hneg _]|(j & Hj & Hne)]; [lia|].
      apply in_split_cols in Hi as [Hi Hsi]. apply in_split_cols in Hj as [Hj Hsj].
      exact (Hne (Hsame j i Hj Hi Hsj Hsi)).
  - exfalso. destruct O as (i & Hi & Hna).
    apply in_split_cols in Hi as [Hi Hsp]. exact (proj1 (Hgood i Hi Hsp) Hna).
  - destruct O.
Qed.

(** X15: what the first loop of [prepare_and_tag_partitions] returns: the
    state is untouched; there is one descriptor per argument, the
    deconstructed array for a split argument (the empty one for NULL) and
    none for the others; the count is the number of split arguments; the
    length is -1 when there is none and else the common number of elements,
    so that the arrays are fit for splitting. *)
Theorem collect_split_arrays_spec (func : ProxyFunction) (fcinfo : FunctionCallInfo)
    (s s' : ExecState) (arrays : list (option DatumArray)) (len cnt : Z) :
  collect_split_arrays func fcinfo (seq 0 (arg_count func)) [] (-1) 0 s
  = Ret (arrays, len, cnt) s' ->
  s' = s /\
  arrays = map (split_array func fcinfo) (seq 0 (arg_count func)) /\
  cnt = Z.of_nat (length (split_cols func (seq 0 (arg_count func)))) /\
  (cnt = 0 -> len = -1) /\
  (cnt <> 0 -> 0 <= len) /\
  (forall i, (i < arg_count func)%nat -> IS_SPLIT_ARG func i = true ->
     split_len fcinfo i = len) /\
  (split_args_ok func -> arrays_ok func arrays (Z.to_nat len)).
Proof.
  intros H.
  pose proof (collect_split_arrays_outcome func fcinfo (seq 0 (arg_count func)) [] (-1) 0 s) as O.
  rewrite H in O. destruct O as (-> & -> & -> & H1 & H2 & _ & _).
  assert (Hall : forall i, (i < arg_count func)%nat -> IS_SPLIT_ARG func i = true ->
                   split_len fcinfo i = len).
  { intros i Hi Hsp. apply H2, in_split_cols. split; assumption. }
  split; [reflexivity|]. split; [reflexivity|]. split; [lia|].
  split; [|split; [|split; [exact Hall|]]].
  - intros Hz. apply H1. destruct (split_cols func _); [reflexivity|simpl in Hz; lia].
  - intros Hnz. destruct (split_cols func (seq 0 (arg_count func))) as [|i l] eqn:E;
      [simpl in Hnz; lia|].
    rewrite <- (H2 i) by apply list_elem_of_here. apply elem_count_nonneg.
  - intros Hok. apply collected_arrays_ok; assumption.
Qed.

(** X16: the collecting loop returns exactly when every split argument is
    NULL or an array of at most one dimension and all of them have the same
    number of elements, a NULL array counting as empty. *)
Theorem collect_split_arrays_returns (func : ProxyFunction) (fcinfo : FunctionCallInfo)
    (s : ExecState) :
  (exists r, collect_split_arrays func fcinfo (seq 0 (arg_count func)) [] (-1) 0 s = Ret r s)
  <->
  (forall i, (i < arg_count func)%nat -> IS_SPLIT_ARG func i = true ->
     ~ not_an_array fcinfo i /\ ~ multi_dim fcinfo i) /\
  (forall i j, (i < arg_count func)%nat -> (j < arg_count func)%nat ->
     IS_SPLIT_ARG func i = true -> IS_SPLIT_ARG func j = true ->
     split_len fcinfo i = split_len fcinfo j).
Proof.
  split.
  - intros [[[arrays len] cnt] H].
    pose proof (collect_split_arrays_outcome func fcinfo (seq 0 (arg_count func)) [] (-1) 0 s)
      as O.
    rewrite H in O. destruct O as (_ & _ & _ & _ & H2 & _ & H4). split.
    + intros i Hi Hsp. apply H4, in_split_cols. split; assumption.
    + intros i j Hi Hj Hsi Hsj.
      rewrite (H2 i), (H2 j); [reflexivity| |]; apply in_split_cols; split; assumption.
  - intros [Hgood Hsame].
    destruct (collect_split_arrays_good func fcinfo s Hgood Hsame) as (len & H & _).
    eexists. exact H.
Qed.

(** ** Loops over the connections *)

(** A loop over distinct connections whose body changes its own connection
    only. *)
Lemma for_each_conn_rel (body : nat -> M unit)
    (P : nat -> ProxyConnection -> ProxyConnection -> Prop) :
  (forall j s s', body j s = Ret tt s' ->
     exists c c', conns s !! j = Some c /\ P j c c' /\
                  s' = with_conns (<[j := c']> (conns s)) s) ->
  forall idxs s s',
    NoDup idxs ->
    for_each idxs body s = Ret tt s' ->
    s' = with_conns (conns s') s /\
    forall ci c, conns s !! ci = Some c ->
      exists c', conns s' !! ci = Some c' /\
        if decide (ci ∈ idxs) then P ci c c' else c' = c.
Proof.
  intros Hbody. induction idxs as [|j rest IH]; intros s s' Hnd H; simpl in H.
  - injection H as <-. split; [symmetry; apply with_conns_id|].
    intros ci c Hc. exists c. split; [exact Hc|].
    destruct (decide (ci ∈ [])) as [Hin|_]; [|reflexivity].
    apply elem_of_nil in Hin. destruct Hin.
  - apply NoDup_cons in Hnd as [Hj Hnd].
    apply bind_Ret_inv in H as ([] & s1 & H1 & H).
    apply Hbody in H1 as (cj & cj' & Hcj & HP & ->).
    apply IH in H as [Hs' Hrest]; [|exact Hnd].
    split; [rewrite Hs' at 1; reflexivity|].
    intros ci c Hc.
    destruct (decide (ci = j)) as [->|Hne].
    + rewrite Hc in Hcj. injection Hcj as <-.
      destruct (Hrest j cj') as (c' & Hc' & Hd).
      { unfold conns. simpl. apply list_lookup_insert_eq. eapply lookup_lt_Some. exact Hc. }
      destruct (decide (j ∈ rest)) as [Hin|_]; [contradiction|]. subst c'.
      exists cj'. split; [exact Hc'|].
      destruct (decide (j ∈ j :: rest)) as [_|Hn]; [exact HP|].
      exfalso. apply Hn. apply list_elem_of_here.
    + destruct (Hrest ci c) as (c' & Hc' & Hd).
      { unfold conns. simpl. rewrite list_lookup_insert_ne by congruence. exact Hc. }
      exists c'. split; [exact Hc'|].
      destruct (decide (ci ∈ rest)) as [Hin|Hnin].
      * destruct (decide (ci ∈ j :: rest)) as [_|Hn]; [exact Hd|].
        exfalso. apply Hn. apply list_elem_of_further. exact Hin.
      * destruct (decide (ci ∈ j :: rest)) as [Hin'|_]; [|exact Hd].
        apply elem_of_cons in Hin' as [->|Hin']; [congruence|contradiction].
Qed.

(** ** Binding the parameters *)

Lemma set_param_inv i v len fmt ci s s' :
  set_param i v len fmt ci s = Ret tt s' ->
  exists c vs ls fs,
    conns s !! ci = Some c /\
    store (param_values c) i v = Some vs /\
    store (param_lengths c) i len = Some ls /\
    store (param_formats c) i fmt = Some fs /\
    s' = with_conns (<[ci := set_params vs ls fs c]> (conns s)) s.
Proof.
  unfold set_param. intros H.
  apply bind_Ret_inv in H as (c & s0 & H0 & H).
  apply get_conn_inv in H0 as [-> Hc].
  destruct (store (param_values c) i v) as [vs|] eqn:Hv; [|discriminate].
  destruct (store (param_lengths c) i len) as [ls|] eqn:Hl; [|discriminate].
  destruct (store (param_formats c) i fmt) as [fs|] eqn:Hf; [|discriminate].
  rewrite (modify_conn_eq _ _ _ _ Hc) in H. injection H as <-.
  exists c, vs, ls, fs. repeat split; first [assumption|reflexivity].
Qed.

Lemma add_param_inv env func fcinfo i idx bin fixed part s s' :
  (IS_SPLIT_ARG func idx = false -> PG_ARGISNULL fcinfo idx = false ->
   exists ty d, arg_types func !! idx = Some ty /\
                mjoin (fc_args fcinfo !! idx) = Some d /\
                fixed = Some (env_send_type env ty d bin)) ->
  add_param env func fcinfo i idx bin fixed part s = Ret tt s' ->
  exists c c', conns s !! part = Some c /\
    param_set env func fcinfo bin i idx c c' /\
    s' = with_conns (<[part := c']> (conns s)) s.
Proof.
  intros Hfixed H. unfold add_param in H.
  apply bind_Ret_inv in H as (c & s0 & H0 & H).
  apply get_conn_inv in H0 as [-> Hc].
  exists c. unfold param_set, bound_to, arg_datum, same_but_params.
  destruct (run_tag c =? 0) eqn:Htag.
  { injection H as <-. exists c. split; [exact Hc|]. split; [reflexivity|].
    rewrite list_insert_id by exact Hc. symmetry. apply with_conns_id. }
  destruct (PG_ARGISNULL fcinfo idx) eqn:Hnull.
  { apply set_param_inv in H as (c0 & vs & ls & fs & Hc0 & Hv & Hl & Hf & ->).
    rewrite Hc in Hc0. injection Hc0 as <-.
    exists (set_params vs ls fs c). split; [exact Hc|]. split; [|reflexivity].
    exists None, 0, 0. repeat split; first [assumption|reflexivity]. }
  destruct (IS_SPLIT_ARG func idx) eqn:Hsp.
  - destruct (arg_types func !! idx) as [ty|] eqn:Hty; [|discriminate].
    destruct (split_params c ≫= (fun ps => ps !! idx)) as [d|] eqn:Hd; [|discriminate].
    apply set_param_inv in H as (c0 & vs & ls & fs & Hc0 & Hv & Hl & Hf & ->).
    rewrite Hc in Hc0. injection Hc0 as <-.
    exists (set_params vs ls fs c). split; [exact Hc|]. split; [|reflexivity].
    eexists _, _, _. split; [exists ty, d; repeat split; reflexivity|].
    repeat split; first [assumption|reflexivity].
  - destruct (Hfixed eq_refl eq_refl) as (ty & d & Hty & Hd & ->).
    apply set_param_inv in H as (c0 & vs & ls & fs & Hc0 & Hv & Hl & Hf & ->).
    rewrite Hc in Hc0. injection Hc0 as <-.
    exists (set_params vs ls fs c). split; [exact Hc|]. split; [|reflexivity].
    eexists _, _, _. split; [exists ty, d; repeat split; [exact Hty|exact Hd]|].
    repeat split; first [assumption|reflexivity].
Qed.

Lemma store_inv {A} (l l' : list A) i v :
  store l i v = Some l' -> (i < length l)%nat /\ l' = <[i := v]> l.
Proof.
  unfold store. destruct (Nat.ltb_spec i (length l)); [|discriminate].
  intros [= <-]. split; [assumption|reflexivity].
Qed.

Lemma same_but_params_refl c : same_but_params c c.
Proof. unfold same_but_params. destruct c; reflexivity. Qed.

Lemma same_but_params_trans c1 c2 c3 :
  same_but_params c1 c2 -> same_but_params c2 c3 -> same_but_params c1 c3.
Proof. unfold same_but_params. intros H12 H23. rewrite H23 at 1. rewrite H12. reflexivity. Qed.

Lemma same_but_params_fields c c' :
  same_but_params c c' -> run_tag c' = run_tag c /\ split_params c' = split_params c.
Proof. unfold same_but_params. intros ->. split; reflexivity. Qed.

Lemma bound_to_same env func fcinfo bin c c' idx v l f :
  split_params c' = split_params c ->
  bound_to env func fcinfo bin c' idx v l f -> bound_to env func fcinfo bin c idx v l f.
Proof. unfold bound_to, arg_datum. intros ->. trivial. Qed.

Lemma param_set_slots env func fcinfo bin i idx c c' :
  run_tag c <> 0 ->
  param_set env func fcinfo bin i idx c c' ->
  same_but_params c c' /\
  (exists v l f, slot c' i = Some (v, l, f) /\ bound_to env func fcinfo bin c idx v l f) /\
  (forall j, j <> i -> slot c' j = slot c j).
Proof.
  intros Htag. unfold param_set.
  destruct (Z.eqb_spec (run_tag c) 0) as [?|_]; [contradiction|].
  intros (v & l & f & Hb & Hv & Hl & Hf & Hsame).
  apply store_inv in Hv as [Hiv Hv]. apply store_inv in Hl as [Hil Hl].
  apply store_inv in Hf as [Hif Hf].
  split; [exact Hsame|]. unfold slot. rewrite Hv, Hl, Hf. split.
  - exists v, l, f. rewrite !list_lookup_insert_eq by assumption. split; [reflexivity|exact Hb].
  - intros j Hj. rewrite !list_lookup_insert_ne by congruence. reflexivity.
Qed.

Lemma bind_params_inv env func fcinfo : forall lookup i0 s s',
  bind_params env func fcinfo lookup i0 s = Ret tt s' ->
  s' = with_conns (conns s') s /\
  forall ci c, conns s !! ci = Some c ->
    exists c', conns s' !! ci = Some c' /\
      if run_tag c =? 0 then c' = c
      else
        same_but_params c c' /\
        (forall k idx, lookup !! k = Some idx ->
           exists v l f, slot c' (i0 + k) = Some (v, l, f) /\
             bound_to env func fcinfo
               (if disable_binary (config (st_cluster s)) =? 0 then true else false)
               c idx v l f) /\
        (forall j, (j < i0 \/ i0 + length lookup <= j)%nat -> slot c' j = slot c j).
Proof.
  induction lookup as [|idx rest IH]; intros i0 s s' H; simpl in H.
  - injection H as <-. split; [symmetry; apply with_conns_id|].
    intros ci c Hc. exists c. split; [exact Hc|].
    destruct (run_tag c =? 0); [reflexivity|].
    split; [apply same_but_params_refl|]. split; [|reflexivity].
    intros k idx Hk. rewrite lookup_nil in Hk. discriminate.
  - unfold bind at 1, get_cluster in H.
    set (bin := if disable_binary (config (st_cluster s)) =? 0 then true else false) in *.
    apply bind_Ret_inv in H as (fixed & s0 & H0 & H).
    assert (s0 = s /\
            (IS_SPLIT_ARG func idx = false -> PG_ARGISNULL fcinfo idx = false ->
             exists ty d, arg_types func !! idx = Some ty /\
                          mjoin (fc_args fcinfo !! idx) = Some d /\
                          fixed = Some (env_send_type env ty d bin))) as [-> Hfixed].
    { destruct (IS_SPLIT_ARG func idx); simpl in H0.
      - injection H0 as <- <-. split; [reflexivity|discriminate].
      - destruct (PG_ARGISNULL fcinfo idx); simpl in H0.
        + injection H0 as <- <-. split; [reflexivity|discriminate].
        + destruct (arg_types func !! idx) as [ty|]; [|discriminate].
          destruct (mjoin (fc_args fcinfo !! idx)) as [d|]; [|discriminate].
          injection H0 as <- <-. split; [reflexivity|].
          intros _ _. exists ty, d. repeat split. }
    clear H0. apply bind_Ret_inv in H as (idxs & s0 & H0 & H).
    unfold conn_indices, bind, get_cluster, ret in H0. injection H0 as <- <-.
    apply bind_Ret_inv in H as ([] & s1 & H1 & H).
    apply (for_each_conn_rel _ (fun _ => param_set env func fcinfo bin i0 idx)) in H1
      as [Hs1 Hstep]; [| |apply NoDup_seq].
    2:{ intros j t t' Hj. eapply add_param_inv; [exact Hfixed|exact Hj]. }
    apply IH in H as [Hs' Hrest].
    assert (Hcfg : st_cluster s1 = set_conn_list (conns s1) (st_cluster s))
      by (rewrite Hs1 at 1; reflexivity).
    split; [rewrite Hs' at 1; rewrite Hs1 at 1; reflexivity|].
    intros ci c Hc.
    destruct (Hstep ci c Hc) as (c1 & Hc1 & HP).
    destruct (decide (ci ∈ seq 0 (length (conn_list (st_cluster s))))) as [_|Hn].
    2:{ exfalso. apply Hn. apply elem_of_seq.
        pose proof (lookup_lt_Some _ _ _ Hc). unfold conns in *. lia. }
    destruct (Hrest ci c1 Hc1) as (c' & Hc' & Hc1').
    exists c'. split; [exact Hc'|].
    destruct (Z.eqb_spec (run_tag c) 0) as [Hz|Hnz].
    + unfold param_set in HP. rewrite Hz in HP. simpl in HP. subst c1.
      rewrite Hz in Hc1'. exact Hc1'.
    + destruct (param_set_slots _ _ _ _ _ _ _ _ Hnz HP) as (Hsame & Hslot & Hother).
      destruct (same_but_params_fields _ _ Hsame) as [Htag Hsp].
      rewrite Htag in Hc1'.
      destruct (Z.eqb_spec (run_tag c) 0) as [?|_]; [contradiction|].
      destruct Hc1' as (Hsame' & Hslots' & Hother').
      split; [eapply same_but_params_trans; eassumption|]. split.
      * intros k idx' Hk. destruct k as [|k]; simpl in Hk.
        -- injection Hk as <-. rewrite Nat.add_0_r.
           rewrite Hother' by (left; lia). exact Hslot.
        -- destruct (Hslots' k idx' Hk) as (v & l & f & Hv & Hb).
           exists v, l, f. replace (i0 + S k)%nat with (S i0 + k)%nat by lia.
           split; [exact Hv|].
           apply (bound_to_same _ _ _ _ _ _ _ _ _ _ Hsp).
           rewrite Hcfg in Hb. exact Hb.
      * intros j Hj. simpl in Hj.
        rewrite Hother' by lia. apply Hother. lia.
Qed.

(** X17: [prepare_query_parameters] binds, on every tagged connection, slot
    [i] of the parameter arrays to argument [arg_lookup[i]] of the remote
    query: NULL with length and format zero for a NULL argument, the wire
    form of the connection's own split array for a split argument, the wire
    form of the caller's value otherwise.  Slots past the arguments of the
    query keep their content; an untagged connection is not touched, and a
    tagged one changes in its parameter arrays only. *)
Theorem prepare_query_parameters_spec (env : Env) (func : ProxyFunction)
    (fcinfo : FunctionCallInfo) (s s' : ExecState) (ci : nat) (c : ProxyConnection) :
  prepare_query_parameters env func fcinfo s = Ret tt s' ->
  conns s !! ci = Some c ->
  exists c', conns s' !! ci = Some c' /\
    (run_tag c = 0 -> c' = c) /\
    (run_tag c <> 0 ->
       same_but_params c c' /\
       (forall i idx, arg_lookup (remote_sql func) !! i = Some idx ->
          exists v l f, slot c' i = Some (v, l, f) /\
            bound_to env func fcinfo
              (if disable_binary (config (st_cluster s)) =? 0 then true else false)
              c idx v l f) /\
       (forall j, (length (arg_lookup (remote_sql func)) <= j)%nat ->
          slot c' j = slot c j)).
Proof.
  intros H Hc. unfold prepare_query_parameters in H.
  apply bind_params_inv in H as [_ H].
  destruct (H ci c Hc) as (c' & Hc' & Hrel).
  exists c'. split; [exact Hc'|].
  destruct (Z.eqb_spec (run_tag c) 0) as [Hz|Hnz].
  - split; [intros _; exact Hrel|intros Hn; contradiction].
  - split; [intros Hz; contradiction|]. intros _.
    destruct Hrel as (Hsame & Hslots & Hother).
    split; [exact Hsame|]. split; [exact Hslots|].
    intros j Hj. apply Hother. right. simpl. exact Hj.
Qed.

(** ** The split plan, end to end *)

Lemma route_rows_tag func arrays pmap mask hash : forall rows done l l',
  route_rows func arrays pmap mask hash rows l = Some l' ->
  (forall ci c, l !! ci = Some c ->
     run_tag c = tag_of_rows (rows_of_conn pmap mask hash ci done)) ->
  forall ci c', l' !! ci = Some c' ->
    run_tag c' = tag_of_rows (rows_of_conn pmap mask hash ci (done ++ rows)).
Proof.
  induction rows as [|r rest IH]; intros done l l' H Hinv ci c' Hc'; simpl in H.
  - injection H as <-. rewrite app_nil_r. exact (Hinv _ _ Hc').
  - destruct (route_row _ _ _ _ _ _ _) as [l1|] eqn:H1; [|discriminate].
    replace (done ++ r :: rest) with ((done ++ [r]) ++ rest)
      by (rewrite <- app_assoc; reflexivity).
    apply (IH (done ++ [r]) l1 l' H); [|exact Hc'].
    intros cj c1 Hc1.
    apply route_row_inv in H1 as (ck & c & c2 & Hroute & Hc & _ & Htag & ->).
    unfold rows_of_conn. rewrite filter_app, filter_singleton by exact [].
    fold (routed_to pmap mask hash r) in Hroute. rewrite Hroute.
    destruct (decide (ck = cj)) as [->|Hne].
    + rewrite list_lookup_insert_eq in Hc1 by (eapply lookup_lt_Some; exact Hc).
      injection Hc1 as <-.
      destruct (decide (Some cj = Some cj)) as [_|Hn]; [|congruence].
      unfold tag_of_rows. rewrite last_snoc. exact Htag.
    + rewrite list_lookup_insert_ne in Hc1 by exact Hne.
      destruct (decide (Some ck = Some cj)) as [[= E]|_]; [contradiction|].
      rewrite app_nil_r. exact (Hinv _ _ Hc1).
Qed.

Lemma route_rows_untouched func arrays pmap mask hash : forall rows l l',
  route_rows func arrays pmap mask hash rows l = Some l' ->
  forall ci, rows_of_conn pmap mask hash ci rows = [] -> l' !! ci = l !! ci.
Proof.
  induction rows as [|r rest IH]; intros l l' H ci Hnone; simpl in H.
  - injection H as <-. reflexivity.
  - destruct (route_row _ _ _ _ _ _ _) as [l1|] eqn:H1; [|discriminate].
    unfold rows_of_conn in Hnone. rewrite filter_cons in Hnone.
    destruct (decide (routed_to pmap mask hash r = Some ci)) as [|Hne]; [discriminate|].
    rewrite (IH _ _ H ci Hnone).
    apply route_row_inv in H1 as (ck & c & c2 & Hroute & Hc & _ & _ & ->).
    fold (routed_to pmap mask hash r) in Hroute.
    apply list_lookup_insert_ne. congruence.
Qed.

Lemma copy_split_params_inv func ci s s' :
  copy_split_params func ci s = Ret tt s' ->
  exists c c', conns s !! ci = Some c /\
    (if run_tag c =? 0 then c' = c
     else exists ps, make_split_params func c = Some ps /\
                     c' = set_split_params (Some ps) c) /\
    s' = with_conns (<[ci := c']> (conns s)) s.
Proof.
  unfold copy_split_params. intros H.
  apply bind_Ret_inv in H as (c & s0 & H0 & H).
  apply get_conn_inv in H0 as [-> Hc]. exists c.
  destruct (run_tag c =? 0).
  - injection H as <-. exists c. split; [exact Hc|]. split; [reflexivity|].
    rewrite list_insert_id by exact Hc. symmetry. apply with_conns_id.
  - destruct (make_split_params func c) as [ps|] eqn:Hps; [|discriminate].
    rewrite (modify_conn_eq _ _ _ _ Hc) in H. injection H as <-.
    exists (set_split_params (Some ps) c). split; [exact Hc|].
    split; [|reflexivity]. exists ps. split; reflexivity.
Qed.

Lemma make_split_params_holds func arrays r rows c ps :
  holds_rows func arrays (r :: rows) c ->
  make_split_params func c = Some ps ->
  params_of_rows func arrays (r :: rows) ps.
Proof.
  intros (bs & Hbs & Hlen & Hcols) H. unfold make_split_params in H.
  pose proof (length_mapM _ _ _ H) as Hl. rewrite length_seq in Hl.
  apply mapM_Some_1 in H.
  split; [symmetry; exact Hl|].
  intros col Hcol.
  destruct (lookup_lt_is_Some_2 ps col) as [p Hp]; [lia|].
  rewrite Hp. f_equal.
  pose proof (Forall2_lookup_lr _ _ _ col col p H (lookup_seq_lt _ _ _ Hcol) Hp) as Hf.
  simpl in Hf. rewrite Hbs, (Hcols col Hcol) in Hf.
  destruct (IS_SPLIT_ARG func col); simpl in Hf; injection Hf as <-; reflexivity.
Qed.

Lemma tag_of_rows_cons r rows : 0 < tag_of_rows (r :: rows).
Proof.
  unfold tag_of_rows.
  destruct (last (r :: rows)) as [x|] eqn:E; [lia|].
  apply last_None in E. discriminate.
Qed.

Section SplitPlan.

(** A call of a split function whose split arguments are NULL or arrays of
    [len] elements, from the state [s] that [plproxy_clean_results]
    leaves.  The hash of element [r] is [hash r], and the hash query
    answers accordingly: the single split query with the pairs [(i, hash of
    element i)], the query per element with that one hash. *)
Variable env : Env.
Variable fcinfo : FunctionCallInfo.
Variable func : ProxyFunction.
Variable q : ProxyQuery.
Variable len : nat.
Variable htype : Oid.
Variable hd : nat -> Datum.
Variable hash : nat -> Z.
Variable s : ExecState.

Hypothesis split_ok : split_args_ok func.
Hypothesis some_split : exists i, IS_SPLIT_ARG func i = true.
Hypothesis good_args : forall i, IS_SPLIT_ARG func i = true ->
  ~ not_an_array fcinfo i /\ ~ multi_dim fcinfo i /\ split_len fcinfo i = Z.of_nat len.
Hypothesis len_int : Z.of_nat len < 2 ^ 31.
Hypothesis the_sql : hash_sql func = Some q.
Hypothesis hash_values : forall r, (r < len)%nat -> hash_column htype (hd r) = Some (hash r).
Hypothesis hash_query :
  if new_split func then
    forall t args,
      query_args func fcinfo None 0 (arg_lookup q) = Some args ->
      env_SPI_execute_plan env t q args
      = SPI_OK_SELECT {| tupdesc := [INT4OID; htype];
                         vals := map (subscript_row hd) (seq 0 len) |}
  else
    run_type func = R_HASH /\
    forall t r args,
      (r < len)%nat ->
      query_args func fcinfo
        (Some (map (split_array func fcinfo) (seq 0 (arg_count func))))
        (Z.of_nat r) (arg_lookup q) = Some args ->
      env_SPI_execute_plan env t q args
      = SPI_OK_SELECT {| tupdesc := [htype]; vals := [[Some (hd r)]] |}.
Hypothesis fresh : forall c, c ∈ conns s -> run_tag c = 0 /\ bstate c = None.

Lemma split_plan_collect :
  collect_split_arrays func fcinfo (seq 0 (arg_count func)) [] (-1) 0 s
  = Ret (map (split_array func fcinfo) (seq 0 (arg_count func)), Z.of_nat len,
         Z.of_nat (length (split_cols func (seq 0 (arg_count func))))) s /\
  split_cols func (seq 0 (arg_count func)) <> [] /\
  arrays_ok func (map (split_array func fcinfo) (seq 0 (arg_count func))) len.
Proof.
  destruct some_split as [i0 Hi0]. pose proof (split_ok i0 Hi0) as Hlt0.
  assert (Hin0 : i0 ∈ split_cols func (seq 0 (arg_count func))).
  { apply elem_of_split_cols. split; [apply elem_of_seq; lia|exact Hi0]. }
  destruct (collect_split_arrays_good func fcinfo s) as (l & H & Hl).
  { intros i _ Hsp. destruct (good_args i Hsp) as (? & ? & _). split; assumption. }
  { intros i j _ _ Hi Hj.
    destruct (good_args i Hi) as (_ & _ & ->). destruct (good_args j Hj) as (_ & _ & ->).
    reflexivity. }
  assert (l = Z.of_nat len) as ->.
  { rewrite <- (Hl i0 Hlt0 Hi0). exact (proj2 (proj2 (good_args i0 Hi0))). }
  split; [exact H|]. split.
  - intros E. rewrite E in Hin0. apply elem_of_nil in Hin0. exact Hin0.
  - rewrite <- (Nat2Z.id len). apply collected_arrays_ok; assumption.
Qed.

(** X18: the split plan, end to end.  When [prepare_and_tag_partitions]
    returns, every connection carries the 1-based index of the last element
    routed to it as its tag, 0 when none was; a connection that got no
    element is exactly as before, and any other holds as split parameters,
    for every split argument, the array of the elements routed to it, in
    the order of the input. *)
Theorem prepare_and_tag_partitions_split (s1 : ExecState) (ci : nat) (c c' : ProxyConnection) :
  prepare_and_tag_partitions env func fcinfo s = Ret tt s1 ->
  conns s !! ci = Some c ->
  conns s1 !! ci = Some c' ->
  let arrays := map (split_array func fcinfo) (seq 0 (arg_count func)) in
  let rows := rows_of_conn (part_map (st_cluster s)) (part_mask (st_cluster s)) hash ci
                (seq 0 len) in
  run_tag c' = tag_of_rows rows /\
  match rows with
  | [] => c' = c
  | _ :: _ => exists ps, split_params c' = Some ps /\ params_of_rows func arrays rows ps
  end.
Proof.
  intros H Hc Hc' arrays rows.
  destruct split_plan_collect as (Hcol & Hne & Hok). fold arrays in Hcol, Hok.
  unfold prepare_and_tag_partitions in H.
  rewrite (bind_Ret_eq _ _ _ _ _ Hcol) in H.
  destruct (Z.eqb_spec (Z.of_nat (length (split_cols func (seq 0 (arg_count func))))) 0)
    as [Hz|_].
  { exfalso. destruct (split_cols func (seq 0 (arg_count func))); [congruence|simpl in Hz; lia]. }
  apply bind_Ret_inv in H as ([] & s2 & H2 & H).
  assert (exists l',
            route_rows func arrays (part_map (st_cluster s)) (part_mask (st_cluster s))
              hash (seq 0 len) (conns s) = Some l' /\
            conns s2 = l') as (l' & Hroute & Hs2).
  { destruct (new_split func).
    - rewrite (new_split_args_eq env fcinfo func func q arrays len htype hd hash s
                 eq_refl eq_refl the_sql hash_values hash_query len_int fresh) in H2.
      destruct (route_rows _ _ _ _ _ _ _) as [l'|]; [|discriminate].
      injection H2 as <-. exists l'. split; reflexivity.
    - destruct hash_query as [Hrun Hq].
      rewrite (old_split_args_eq env fcinfo func func q arrays len htype hd hash s
                 eq_refl Hrun the_sql hash_values Hq Hok fresh) in H2.
      destruct (route_rows _ _ _ _ _ _ _) as [l'|]; [|discriminate].
      injection H2 as <-. exists l'. split; reflexivity. }
  apply bind_Ret_inv in H as (idxs & s3 & H3 & H).
  unfold conn_indices, bind, get_cluster, ret in H3. injection H3 as <- <-.
  apply (for_each_conn_rel _
           (fun _ c c' =>
              if run_tag c =? 0 then c' = c
              else exists ps, make_split_params func c = Some ps /\
                              c' = set_split_params (Some ps) c)) in H
    as [_ Hcopy]; [|intros j t t'; apply copy_split_params_inv|apply NoDup_seq].
  assert (Hlen' : length l' = length (conns s)).
  { clear -Hroute. revert Hroute. generalize (conns s). generalize (seq 0 len).
    induction l as [|r rest IH]; intros l0 H; simpl in H.
    - injection H as <-. reflexivity.
    - destruct (route_row _ _ _ _ _ _ _) as [l1|] eqn:H1; [|discriminate].
      rewrite (IH _ H).
      apply route_row_inv in H1 as (ck & c0 & c2 & _ & _ & _ & _ & ->).
      apply length_insert. }
  destruct (lookup_lt_is_Some_2 l' ci) as [c2 Hc2].
  { rewrite Hlen'. eapply lookup_lt_Some. exact Hc. }
  destruct (Hcopy ci c2) as (c3 & Hc3 & Hrel); [rewrite Hs2; exact Hc2|].
  rewrite Hc' in Hc3. injection Hc3 as <-.
  destruct (decide (ci ∈ seq 0 (length (conn_list (st_cluster s2))))) as [_|Hn].
  2:{ exfalso. apply Hn. apply elem_of_seq. fold (conns s2). rewrite Hs2, Hlen'.
      pose proof (lookup_lt_Some _ _ _ Hc). lia. }
  pose proof (route_rows_tag _ _ _ _ _ _ [] _ _ Hroute) as Htag.
  specialize (Htag ltac:(intros cj c0 Hc0; simpl;
                         exact (proj1 (fresh c0 (list_elem_of_lookup_2 _ _ _ Hc0))))
                   ci c2 Hc2).
  simpl in Htag. fold rows in Htag.
  pose proof (route_rows_holds _ _ _ _ _ _ [] _ _ Hroute
                (fresh_holds _ _ _ _ _ _ fresh) ci c2 Hc2) as Hholds.
  simpl in Hholds. fold rows in Hholds.
  destruct rows as [|r rest] eqn:Hrows.
  - assert (c2 = c) as ->.
    { pose proof (route_rows_untouched _ _ _ _ _ _ _ _ Hroute ci Hrows) as E.
      rewrite Hc2, Hc in E. injection E as ->. reflexivity. }
    rewrite Htag in Hrel. change (tag_of_rows []) with 0 in *. simpl in Hrel. subst c'.
    split; [exact Htag|reflexivity].
  - pose proof (tag_of_rows_cons r rest) as Hpos.
    destruct (Z.eqb_spec (run_tag c2) 0) as [Hz|_]; [lia|].
    destruct Hrel as (ps & Hps & ->). split; [exact Htag|].
    exists ps. split; [reflexivity|].
    eapply make_split_params_holds; eassumption.
Qed.

End SplitPlan.

(** ** The poll loop *)

Lemma build_pollfds_app l1 l2 :
  build_pollfds (l1 ++ l2) = build_pollfds l1 ++ build_pollfds l2.
Proof.
  induction l1 as [|c l1 IH]; simpl; [reflexivity|].
  destruct (run_tag c =? 0); [exact IH|].
  destruct (poll_interest (state c)); [|exact IH].
  simpl. rewrite IH. reflexivity.
Qed.

Lemma pollfd_index_S l i c :
  l !! i = Some c ->
  pollfd_index l (S i) = if registered c then S (pollfd_index l i) else pollfd_index l i.
Proof.
  intros Hc. unfold pollfd_index.
  rewrite (take_S_r _ _ _ Hc), build_pollfds_app, length_app. simpl.
  unfold registered.
  destruct (run_tag c =? 0); simpl; [lia|].
  destruct (poll_interest (state c)); simpl; lia.
Qed.

Lemma build_pollfds_lookup l i c ev :
  l !! i = Some c -> run_tag c <> 0 -> poll_interest (state c) = Some ev ->
  build_pollfds l !! pollfd_index l i = Some (db c, ev).
Proof.
  intros Hc Htag Hev. unfold pollfd_index.
  assert (E : build_pollfds l
              = build_pollfds (take i l) ++ build_pollfds (c :: drop (S i) l)).
  { rewrite <- build_pollfds_app, take_drop_middle by exact Hc. reflexivity. }
  rewrite E, lookup_app_r by lia.
  rewrite Nat.sub_diag. simpl.
  destruct (Z.eqb_spec (run_tag c) 0) as [?|_]; [contradiction|].
  rewrite Hev. reflexivity.
Qed.

Lemma bind_ext_post {A B} (R : ExecState -> ExecState -> Prop) (m : M A)
    (k1 k2 : A -> M B) s :
  post R m ->
  (forall a s1, R s s1 -> k1 a s1 = k2 a s1) ->
  bind m k1 s = bind m k2 s.
Proof.
  intros Hm Hk. unfold bind. specialize (Hm s).
  destruct (m s) as [a s1|e s1| |]; try reflexivity.
  apply Hk. exact Hm.
Qed.

Lemma recheck_conns_from env fuel revents (l0 : list ProxyConnection) : forall n a s,
  (a + n = length l0)%nat ->
  length (conns s) = length l0 ->
  (forall j, (a <= j)%nat -> conns s !! j = l0 !! j) ->
  recheck_conns env fuel revents (seq a n) (pollfd_index l0 a) s =
  for_each (seq a n)
    (fun i => when (has_event l0 revents i) (handle_conn env fuel i)) s.
Proof.
  induction n as [|n IH]; intros a s Han Hlen Hsame; simpl; [reflexivity|].
  destruct (lookup_lt_is_Some_2 l0 a) as [c Hc]; [lia|].
  assert (Hcs : conns s !! a = Some c) by (rewrite Hsame by lia; exact Hc).
  rewrite (bind_Ret_eq _ _ _ _ _ (get_conn_eq _ _ _ Hcs)).
  unfold has_event at 1. rewrite Hc.
  pose proof (pollfd_index_S _ _ _ Hc) as HS.
  destruct (registered c) eqn:Hreg.
  - unfold registered in Hreg. apply andb_prop in Hreg as [Htag Hint].
    apply negb_true_iff in Htag. rewrite Htag.
    destruct (poll_interest (state c)) as [ev|]; [|discriminate]. simpl.
    apply (bind_ext_post (only_conn a)).
    + unfold when. destruct (revents _); [apply post_handle_conn|apply post_ret].
    + intros [] s1 (F & Hother & _). rewrite <- HS. apply IH.
      * lia.
      * destruct F as (_&_&_&_&_&_&_&_&HL). rewrite HL. exact Hlen.
      * intros j Hj. rewrite Hother by lia. apply Hsame. lia.
  - assert (Hskip : (if run_tag c =? 0
                     then recheck_conns env fuel revents (seq (S a) n) (pollfd_index l0 a)
                     else match poll_interest (state c) with
                          | Some _ =>
                              when (revents (pollfd_index l0 a)) (handle_conn env fuel a) ;;
                              recheck_conns env fuel revents (seq (S a) n)
                                (S (pollfd_index l0 a))
                          | None =>
                              recheck_conns env fuel revents (seq (S a) n) (pollfd_index l0 a)
                          end)
                    = recheck_conns env fuel revents (seq (S a) n) (pollfd_index l0 a)).
    { unfold registered in Hreg. destruct (run_tag c =? 0); [reflexivity|].
      destruct (poll_interest (state c)); [discriminate|reflexivity]. }
    rewrite Hskip. simpl. unfold bind at 1, when, ret. rewrite <- HS. apply IH.
    + lia.
    + exact Hlen.
    + intros j Hj. apply Hsame. lia.
Qed.

(** X19: the two loops of [poll_conns] stay in step.  The descriptor of a
    registered connection sits in the descriptor array at the slot that the
    second loop reads for it, and the second loop handles exactly the
    connections on whose descriptor poll(2) reported an event, whatever the
    handling of the earlier ones did. *)
Theorem poll_conns_in_step (env : Env) (fuel : nat) (revents : nat -> bool)
    (s : ExecState) :
  recheck_conns env fuel revents (seq 0 (length (conns s))) 0 s =
  for_each (seq 0 (length (conns s)))
    (fun i => when (has_event (conns s) revents i) (handle_conn env fuel i)) s /\
  forall i c ev,
    conns s !! i = Some c -> run_tag c <> 0 -> poll_interest (state c) = Some ev ->
    build_pollfds (conns s) !! pollfd_index (conns s) i = Some (db c, ev).
Proof.
  split.
  - exact (recheck_conns_from env fuel revents (conns s) (length (conns s)) 0 s
             eq_refl eq_refl (fun j _ => eq_refl)).
  - intros i c ev. apply build_pollfds_lookup.
Qed.

(** ** The properties on the scenarios *)

Lemma remote_execute_frame_witness :
  exists s',
    remote_execute served_env hash_func 20 tagged_state = Ret tt s' /\
    conns s' !! 0%nat = Some (blank_conn "p0") /\
    busy (st_cluster s') = false.
Proof.
  pose (s' := final_state (remote_execute served_env hash_func 20 tagged_state) tagged_state).
  assert (H1 : remote_execute served_env hash_func 20 tagged_state = Ret tt s')
    by (vm_compute; reflexivity).
  assert (H2 : outcome_state (remote_execute served_env hash_func 20 tagged_state) = Some s')
    by (rewrite H1; reflexivity).
  destruct (remote_execute_frame served_env hash_func 20 tagged_state s' H2)
    as (_ & Hbusy & Hconns).
  destruct (Hconns 0%nat (blank_conn "p0") eq_refl) as (c' & Hc' & _ & Hsame).
  exists s'. split; [exact H1|]. split.
  - rewrite Hc'. f_equal. apply Hsame. reflexivity.
  - rewrite Hbusy. reflexivity.
Defined.

Lemma plproxy_exec_not_busy_witness :
  exists s',
    plproxy_exec served_env hash_func (call_with 6) 20 (state_of cluster4) = Ret tt s' /\
    shape (state_of cluster4) s' /\ busy (st_cluster s') = false.
Proof.
  pose (s' := final_state (plproxy_exec served_env hash_func (call_with 6) 20 (state_of cluster4))
                (state_of cluster4)).
  assert (H1 : plproxy_exec served_env hash_func (call_with 6) 20 (state_of cluster4) = Ret tt s')
    by (vm_compute; reflexivity).
  exists s'. split; [exact H1|].
  apply (plproxy_exec_not_busy served_env hash_func (call_with 6) 20 (state_of cluster4) s').
  rewrite H1. reflexivity.
Defined.

Lemma plproxy_exec_total_witness :
  exists s',
    plproxy_exec served_env hash_func (call_with 6) 20 (state_of cluster4) = Ret tt s' /\
    ret_total (st_cluster s') = 3 /\
    ret_cur_conn (st_cluster s') = 0.
Proof.
  pose (s' := final_state (plproxy_exec served_env hash_func (call_with 6) 20 (state_of cluster4))
                (state_of cluster4)).
  assert (H1 : plproxy_exec served_env hash_func (call_with 6) 20 (state_of cluster4) = Ret tt s')
    by (vm_compute; reflexivity).
  exists s'. split; [exact H1|].
  destruct (plproxy_exec_total served_env hash_func (call_with 6) 20 (state_of cluster4) s' H1)
    as (_ & Hfit & Hcur).
  split; [|exact Hcur].
  rewrite Hfit; [reflexivity|]. vm_compute. split; [discriminate|reflexivity].
Defined.

Lemma planning_keeps_connections_witness :
  exists s',
    outcome_state
      ((prepare_and_tag_partitions (friendly_env (fun _ => None)) hash_func (call_with 6) ;;
        prepare_query_parameters (friendly_env (fun _ => None)) hash_func (call_with 6))%exec
         (state_of cluster4)) = Some s' /\
    plan_rel (state_of cluster4) s'.
Proof.
  pose (E := friendly_env (fun _ => None)).
  pose (s' := final_state
                ((prepare_and_tag_partitions E hash_func (call_with 6) ;;
                  prepare_query_parameters E hash_func (call_with 6))%exec (state_of cluster4))
                (state_of cluster4)).
  assert (H1 : outcome_state
                 ((prepare_and_tag_partitions E hash_func (call_with 6) ;;
                   prepare_query_parameters E hash_func (call_with 6))%exec (state_of cluster4))
               = Some s') by (vm_compute; reflexivity).
  exists s'. split; [exact H1|].
  exact (planning_keeps_connections E hash_func (call_with 6) (state_of cluster4) s' H1).
Defined.

Lemma handle_conn_edge_witness :
  exists s' c',
    handle_conn answering_env 5 0 (state_of reading_cluster) = Ret tt s' /\
    conns s' = [c'] /\ state c' = C_DONE /\ res c' = Some (tuples_result 3).
Proof.
  pose (s' := final_state (handle_conn answering_env 5 0 (state_of reading_cluster))
                (state_of reading_cluster)).
  assert (H1 : handle_conn answering_env 5 0 (state_of reading_cluster) = Ret tt s')
    by (vm_compute; reflexivity).
  destruct (handle_conn_edge answering_env 5 0 (state_of reading_cluster) s' _ H1 eq_refl)
    as (c1 & c' & Hconns & _ & _ & _).
  exists s', c'. split; [exact H1|]. split; [exact Hconns|].
  assert (H2 : conns s' !! 0%nat = Some c') by (rewrite Hconns; reflexivity).
  assert (H3 : (state <$> conns s' !! 0%nat) = Some C_DONE) by (vm_compute; reflexivity).
  assert (H4 : (res <$> conns s' !! 0%nat) = Some (Some (tuples_result 3)))
    by (vm_compute; reflexivity).
  rewrite H2 in H3, H4. simpl in H3, H4.
  injection H3 as ->. injection H4 as ->. split; reflexivity.
Defined.

Lemma check_timeouts_spec_witness :
  check_timeouts 0 5 (state_of reading_cluster)
  = Raise (ProxyError "query timeout") (state_of reading_cluster).
Proof.
  apply (proj1 (proj1 (proj2 (check_timeouts_spec 0 5 (state_of reading_cluster) _ eq_refl)))).
  split; [left; reflexivity|simpl; lia].
Defined.

Lemma send_query_one_message_witness :
  exists s' c',
    send_query (friendly_env (fun _ => None)) hash_func 0 (state_of cluster4) = Ret tt s' /\
    conns s' !! 0%nat = Some c' /\
    query_time c' = 0 /\
    (state c' = C_QUERY_WRITE \/ state c' = C_QUERY_READ).
Proof.
  pose (E := friendly_env (fun _ => None)).
  pose (s' := final_state (send_query E hash_func 0 (state_of cluster4)) (state_of cluster4)).
  assert (H1 : send_query E hash_func 0 (state_of cluster4) = Ret tt s')
    by (vm_compute; reflexivity).
  destruct (send_query_one_message E hash_func 0 (state_of cluster4) s' _ H1 eq_refl)
    as (c' & Hc' & Hq & Hst & _).
  exists s', c'. split; [exact H1|]. split; [exact Hc'|]. split; [exact Hq|exact Hst].
Defined.

Lemma run_on_all_tags_part_map_witness :
  exists l,
    tag_run_on_partitions (friendly_env (fun _ => None)) (run_on R_ALL 0) (call_with 6)
      1 None 0 (state_of cluster4) = Ret tt (with_conns l (state_of cluster4)) /\
    l !! 3%nat = Some (set_run_tag 1 (blank_conn "p3")).
Proof.
  destruct (run_on_all_tags_part_map (friendly_env (fun _ => None)) (run_on R_ALL 0)
              (call_with 6) 1 None 0 (state_of cluster4) eq_refl cluster4_ok)
    as (l & H1 & Hl).
  exists l. split; [exact H1|].
  rewrite (Hl 3%nat). reflexivity.
Defined.

Lemma run_on_any_tags_one_witness :
  exists ci c,
    part_map cluster4 !! 0%nat = Some ci /\
    conns (state_of cluster4) !! ci = Some c /\
    tag_run_on_partitions (friendly_env (fun _ => None)) (run_on R_ANY 0) (call_with 6)
      1 None 0 (state_of cluster4)
    = Ret tt (with_tick 1 (with_conns (<[ci := set_run_tag 1 c]> (conns (state_of cluster4)))
                             (state_of cluster4))).
Proof.
  exact (proj2 (run_on_any_tags_one (friendly_env (fun _ => None)) (run_on R_ANY 0)
                  (call_with 6) 1 None 0 (state_of cluster4) eq_refl cluster4_ok)).
Defined.

Lemma run_on_exact_tags_one_witness :
  tag_run_on_partitions (friendly_env (fun _ => None)) (run_on R_EXACT 4) (call_with 6)
    1 None 0 (state_of cluster4)
  = Raise (ProxyError "part number out of range") (state_of cluster4).
Proof.
  apply (proj1 (run_on_exact_tags_one (friendly_env (fun _ => None)) (run_on R_EXACT 4)
                  (call_with 6) 1 None 0 (state_of cluster4) eq_refl cluster4_ok)).
  right. simpl. lia.
Defined.

Lemma new_split_args_contents_witness :
  exists s1 c',
    new_split_args (friendly_env (fun _ => None)) split_func_new split_call 1 (Z.of_nat 3)
      split_arrays (state_of cluster4) = Ret tt s1 /\
    conns s1 !! 1%nat = Some c' /\
    holds_rows split_func_new split_arrays [0; 1; 2]%nat c'.
Proof.
  pose (E := friendly_env (fun _ => None)).
  pose (s1 := final_state (new_split_args E split_func_new split_call 1 (Z.of_nat 3)
                             split_arrays (state_of cluster4)) (state_of cluster4)).
  assert (H1 : new_split_args E split_func_new split_call 1 (Z.of_nat 3)
                 split_arrays (state_of cluster4) = Ret tt s1)
    by (vm_compute; reflexivity).
  destruct (conns s1 !! 1%nat) as [c'|] eqn:Hc'; [|vm_compute in Hc'; discriminate].
  exists s1, c'. split; [exact H1|]. split; [exact Hc'|].
  exact (new_split_args_contents E split_call split_func_new _ split_arrays 3 INT4OID
           xs159_elem xs159_elem (state_of cluster4) eq_refl xs159_hash_values cluster4_fresh
           1 s1 xs159_new_query ltac:(simpl; lia) H1 1%nat c' Hc').
Defined.

Lemma old_split_args_contents_witness :
  exists s1 c',
    old_split_args (friendly_env (fun _ => None)) split_func_old split_call 1 (Z.of_nat 3)
      split_arrays (state_of cluster4) = Ret tt s1 /\
    conns s1 !! 1%nat = Some c' /\
    holds_rows split_func_old split_arrays [0; 1; 2]%nat c'.
Proof.
  pose (E := friendly_env (fun _ => None)).
  pose (s1 := final_state (old_split_args E split_func_old split_call 1 (Z.of_nat 3)
                             split_arrays (state_of cluster4)) (state_of cluster4)).
  assert (H1 : old_split_args E split_func_old split_call 1 (Z.of_nat 3)
                 split_arrays (state_of cluster4) = Ret tt s1)
    by (vm_compute; reflexivity).
  destruct (conns s1 !! 1%nat) as [c'|] eqn:Hc'; [|vm_compute in Hc'; discriminate].
  exists s1, c'. split; [exact H1|]. split; [exact Hc'|].
  exact (old_split_args_contents E split_call split_func_old _ split_arrays 3 INT4OID
           xs159_elem xs159_elem (state_of cluster4) eq_refl xs159_hash_values cluster4_fresh
           1 s1 eq_refl xs159_old_query xs159_arrays_ok H1 1%nat c' Hc').
Defined.

Lemma collect_split_arrays_spec_witness :
  collect_split_arrays split_func_new split_call (seq 0 1) [] (-1) 0 (state_of cluster4)
  = Ret (split_arrays, 3, 1) (state_of cluster4) /\
  split_len split_call 0 = 3.
Proof.
  assert (H1 : collect_split_arrays split_func_new split_call
                 (seq 0 (arg_count split_func_new)) [] (-1) 0 (state_of cluster4)
               = Ret (split_arrays, 3, 1) (state_of cluster4))
    by (vm_compute; reflexivity).
  split; [exact H1|].
  destruct (collect_split_arrays_spec split_func_new split_call _ _ _ _ _ H1)
    as (_ & _ & _ & _ & _ & Hlen & _).
  exact (Hlen 0%nat ltac:(simpl; lia) eq_refl).
Defined.

Lemma prepare_query_parameters_spec_witness :
  exists s' c',
    prepare_query_parameters (friendly_env (fun _ => None)) hash_func (call_with 6)
      tagged_state = Ret tt s' /\
    conns s' !! 2%nat = Some c' /\
    slot c' 0 = Some (Some "v", 1, 1).
Proof.
  pose (E := friendly_env (fun _ => None)).
  pose (s' := final_state (prepare_query_parameters E hash_func (call_with 6) tagged_state)
                tagged_state).
  assert (H1 : prepare_query_parameters E hash_func (call_with 6) tagged_state = Ret tt s')
    by (vm_compute; reflexivity).
  destruct (prepare_query_parameters_spec E hash_func (call_with 6) tagged_state s' 2%nat _
              H1 eq_refl) as (c' & Hc' & _ & Harmed).
  destruct (Harmed ltac:(simpl; lia)) as (_ & Hslots & _).
  destruct (Hslots 0%nat 0%nat eq_refl) as (v & l & f & Hslot & Hb).
  exists s', c'. split; [exact H1|]. split; [exact Hc'|].
  rewrite Hslot. simpl in Hb.
  destruct Hb as (ty & d & [= <-] & [= <-] & -> & -> & ->). reflexivity.
Defined.

Lemma split_func_new_ok : split_args_ok split_func_new.
Proof. intros [|[|col]] H; simpl in *; try discriminate; lia. Qed.

Lemma xs159_good_args i :
  IS_SPLIT_ARG split_func_new i = true ->
  ~ not_an_array split_call i /\ ~ multi_dim split_call i /\
  split_len split_call i = Z.of_nat 3.
Proof.
  destruct i as [|[|i]]; simpl; try discriminate. intros _.
  split; [intros [d [=]]|]. split; [|reflexivity].
  intros (a & [= <-] & Hnd). simpl in Hnd. lia.
Qed.

Lemma prepare_and_tag_partitions_split_witness :
  exists s1 c',
    prepare_and_tag_partitions (friendly_env (fun _ => None)) split_func_new split_call
      (state_of cluster4) = Ret tt s1 /\
    conns s1 !! 1%nat = Some c' /\
    run_tag c' = 3 /\
    split_params c' = Some [DArray xs159].
Proof.
  pose (E := friendly_env (fun _ => None)).
  pose (s1 := final_state (prepare_and_tag_partitions E split_func_new split_call
                             (state_of cluster4)) (state_of cluster4)).
  assert (H1 : prepare_and_tag_partitions E split_func_new split_call (state_of cluster4)
               = Ret tt s1) by (vm_compute; reflexivity).
  destruct (conns s1 !! 1%nat) as [c'|] eqn:Hc'; [|vm_compute in Hc'; discriminate].
  exists s1, c'. split; [exact H1|]. split; [exact Hc'|].
  destruct (prepare_and_tag_partitions_split E split_call split_func_new _ 3 INT4OID
              xs159_elem xs159_elem (state_of cluster4)
              split_func_new_ok (ex_intro _ 0%nat eq_refl) xs159_good_args
              ltac:(simpl; lia) eq_refl xs159_hash_values xs159_new_query cluster4_fresh
              s1 1%nat _ c' H1 eq_refl Hc') as [Htag Hps].
  split; [exact Htag|].
  change (rows_of_conn (part_map (st_cluster (state_of cluster4)))
            (part_mask (st_cluster (state_of cluster4))) xs159_elem 1 (seq 0 3))
    with [0; 1; 2]%nat in Hps.
  destruct Hps as (ps & -> & Hlen & Hcols). f_equal.
  destruct ps as [|p [|p' ps]]; simpl in Hlen; try discriminate.
  specialize (Hcols 0%nat ltac:(simpl; lia)). simpl in Hcols.
  injection Hcols as ->. reflexivity.
Defined.

(** * query.c *)

(** ** Strings *)

Lemma string_length_app (a b : string) :
  String.length (a ++ b) = (String.length a + String.length b)%nat.
Proof. induction a as [|c a IH]; simpl; [reflexivity|]. rewrite IH. reflexivity. Qed.

Lemma string_app_assoc (a b c : string) : ((a ++ b) ++ c = a ++ (b ++ c))%string.
Proof. induction a as [|x a IH]; simpl; [reflexivity|]. rewrite IH. reflexivity. Qed.

Lemma substring_all (s : string) : forall n,
  (String.length s <= n)%nat -> String.substring 0 n s = s.
Proof.
  induction s as [|c s IH]; intros n Hn; simpl.
  - destruct n; reflexivity.
  - destruct n as [|n]; simpl in Hn; [lia|]. rewrite IH by lia. reflexivity.
Qed.

Lemma snprintf_fits size text :
  (String.length text < size)%nat -> snprintf size text = text.
Proof. intros H. unfold snprintf. apply substring_all. lia. Qed.

(** A number below 1000 prints in at most three digits. *)
Lemma decimal_short n : (n < 1000)%nat -> (String.length (decimal n) <= 3)%nat.
Proof.
  intros Hn.
  assert (H : forallb (fun k => String.length (decimal k) <=? 3)%nat (seq 0 1000) = true)
    by (vm_compute; reflexivity).
  rewrite forallb_forall in H.
  apply Nat.leb_le. apply H. apply in_seq. lia.
Qed.

(** X20: the buffer of [add_ref] is large enough.  For a parameter number
    below 1000 and a type name of at most [2 * NAMEDATALEN] characters the
    reference is appended in full, [$n] or [$n::type]. *)
Theorem add_ref_not_truncated (names : QueryNames) (buf : string) (sql_idx fn_idx : nat)
    (name : string) :
  (sql_idx + 1 < 1000)%nat ->
  arg_type_names names !! fn_idx = Some name ->
  (String.length name <= 2 * NAMEDATALEN)%nat ->
  add_ref names buf sql_idx fn_idx false = Some (buf ++ "$" ++ decimal (sql_idx + 1))%string /\
  add_ref names buf sql_idx fn_idx true
  = Some (buf ++ "$" ++ decimal (sql_idx + 1) ++ "::" ++ name)%string.
Proof.
  intros Hk Hname Hlen. unfold add_ref. rewrite Hname.
  pose proof (decimal_short _ Hk) as Hd.
  unfold NAMEDATALEN in *.
  split; f_equal; f_equal; apply snprintf_fits.
  - simpl. lia.
  - simpl. rewrite string_length_app. simpl. lia.
Qed.

(** ** The numbering of the arguments *)

Lemma lookup_pos_Some fn : forall l i0 i,
  lookup_pos fn l i0 = Some i -> (i0 <= i)%nat /\ l !! (i - i0)%nat = Some fn.
Proof.
  induction l as [|x l IH]; intros i0 i H; simpl in H; [discriminate|].
  destruct (Nat.eqb_spec x fn) as [->|Hne].
  - injection H as <-. rewrite Nat.sub_diag. split; [lia|reflexivity].
  - apply IH in H as [Hle Hl]. split; [lia|].
    replace (i - i0)%nat with (S (i - S i0)) by lia. exact Hl.
Qed.

Lemma lookup_pos_None fn : forall l i0, lookup_pos fn l i0 = None -> fn ∉ l.
Proof.
  induction l as [|x l IH]; intros i0 H; simpl in H.
  - apply not_elem_of_nil.
  - destruct (Nat.eqb_spec x fn) as [->|Hne]; [discriminate|].
    apply not_elem_of_cons. split; [congruence|]. exact (IH _ H).
Qed.

(** Distinct numbers below [n] that miss one are fewer than [n]. *)
Lemma pigeonhole (l : list nat) (n x : nat) :
  NoDup l -> Forall (fun y => (y < n)%nat) l -> (x < n)%nat -> x ∉ l ->
  (length l < n)%nat.
Proof.
  intros Hnd Hall Hx Hnin.
  assert (Hsub : (x :: l) ⊆+ seq 0 n).
  { apply NoDup_submseteq.
    - apply NoDup_cons. split; assumption.
    - intros y Hy. apply elem_of_seq. apply elem_of_cons in Hy as [->|Hy]; [lia|].
      rewrite Forall_forall in Hall. specialize (Hall y Hy). lia. }
  apply submseteq_length in Hsub. rewrite length_seq in Hsub. simpl in Hsub. lia.
Qed.

Lemma add_ref_app names buf k fn ty s' :
  add_ref names buf k fn ty = Some s' -> exists text, s' = (buf ++ text)%string.
Proof.
  unfold add_ref. destruct ty.
  - destruct (arg_type_names names !! fn); [|discriminate].
    intros [= <-]. eexists. reflexivity.
  - intros [= <-]. eexists. reflexivity.
Qed.

Lemma qb_ok_grow func q sql' lookup' :
  qb_ok func q ->
  (String.length (qb_sql q) <= String.length sql')%nat ->
  NoDup lookup' -> Forall (fun fn => (fn < arg_count func)%nat) lookup' ->
  (length (qb_arg_lookup q) <= length lookup')%nat ->
  (qb_track_refs q = true -> length lookup' = length (qb_arg_lookup q)) ->
  qb_ok func {| qb_sql := sql'; qb_arg_lookup := lookup';
                qb_add_types := qb_add_types q; qb_track_refs := qb_track_refs q;
                qb_refs := qb_refs q |}.
Proof.
  intros (Hnd & Hall & Hrefs & Hsorted & Hcount & Hcover) Hlen Hnd' Hall' Hl Hsame.
  unfold qb_ok. simpl. repeat split; try assumption.
  - eapply Forall_impl; [exact Hrefs|]. intros r [? ?]. split; lia.
  - intros Htr k Hk. apply (Hcover Htr). rewrite <- (Hsame Htr). exact Hk.
Qed.

Section QueryBuffer.

Variable func : ProxyFunction.
Variable names : QueryNames.
Variable plproxy_get_parameter_index : string -> Z.

(** What function.c provides: an index names an argument of the function,
    and every argument has a type. *)
Hypothesis index_range :
  forall ident, plproxy_get_parameter_index ident < Z.of_nat (arg_count func).
Hypothesis typed_args : length (arg_type_names names) = arg_count func.

(** X21: [plproxy_query_add_ident] on a well-formed buffer never reads or
    writes outside [arg_lookup], [refs] or the type array, and leaves a
    well-formed buffer.  An identifier that is an argument is replaced by
    its reference [$k]: the number it already has, or the next free one;
    the only error is a full [refs] array.  An identifier that is no
    argument is copied as it is, unless it starts with [$]: then the answer
    is false and the buffer is unchanged. *)
Theorem plproxy_query_add_ident_ok (q : QueryBuffer) (ident : string) :
  qb_ok func q ->
  match plproxy_query_add_ident func names plproxy_get_parameter_index q ident with
  | QRet (b, q') =>
      qb_ok func q' /\
      if 0 <=? plproxy_get_parameter_index ident then
        let fn := Z.to_nat (plproxy_get_parameter_index ident) in
        b = true /\
        (qb_arg_lookup q' = qb_arg_lookup q \/
         ((fn ∉ qb_arg_lookup q) /\ qb_arg_lookup q' = qb_arg_lookup q ++ [fn])) /\
        exists k, qb_arg_lookup q' !! k = Some fn /\
                  add_ref names (qb_sql q) k fn (qb_add_types q) = Some (qb_sql q')
      else
        if starts_with_dollar ident then b = false /\ q' = q
        else b = true /\ qb_sql q' = (qb_sql q ++ ident)%string /\
             qb_arg_lookup q' = qb_arg_lookup q /\ qb_refs q' = qb_refs q
  | QRaise msg =>
      0 <= plproxy_get_parameter_index ident /\
      qb_track_refs q = true /\ length (qb_refs q) = FUNC_MAX_ARGS
  | QFault => False
  end.
Proof.
  intros Hok. pose proof Hok as (Hnd & Hall & Hrefs & Hsorted & Hcount & Hcover).
  unfold plproxy_query_add_ident.
  destruct (Z.leb_spec 0 (plproxy_get_parameter_index ident)) as [Hpos|Hneg].
  - set (fn := Z.to_nat (plproxy_get_parameter_index ident)).
    assert (Hfn : (fn < arg_count func)%nat).
    { pose proof (index_range ident). unfold fn. lia. }
    (* the number of the argument *)
    assert (Hfound : exists k lookup',
              match lookup_pos fn (qb_arg_lookup q) 0 with
              | Some i => Some (i, qb_arg_lookup q)
              | None => push_arg func (qb_arg_lookup q) fn
              end = Some (k, lookup') /\
              lookup' !! k = Some fn /\
              NoDup lookup' /\ Forall (fun y => (y < arg_count func)%nat) lookup' /\
              (length (qb_arg_lookup q) <= length lookup')%nat /\
              (lookup' = qb_arg_lookup q \/
               ((fn ∉ qb_arg_lookup q) /\ lookup' = qb_arg_lookup q ++ [fn] /\
                k = length (qb_arg_lookup q)))).
    { destruct (lookup_pos fn (qb_arg_lookup q) 0) as [i|] eqn:Hlp.
      - apply lookup_pos_Some in Hlp as [_ Hi]. rewrite Nat.sub_0_r in Hi.
        exists i, (qb_arg_lookup q). repeat split; try assumption; [lia|left; reflexivity].
      - apply lookup_pos_None in Hlp.
        pose proof (pigeonhole _ _ _ Hnd Hall Hfn Hlp) as Hroom.
        unfold push_arg. destruct (Nat.ltb_spec (length (qb_arg_lookup q)) (arg_count func));
          [|lia].
        exists (length (qb_arg_lookup q)), (qb_arg_lookup q ++ [fn]).
        split; [reflexivity|]. split.
        { rewrite lookup_app_r by lia. rewrite Nat.sub_diag. reflexivity. }
        split.
        { apply NoDup_app. split; [exact Hnd|]. split; [|apply NoDup_singleton].
          intros y Hy Hy'. apply list_elem_of_singleton in Hy'. subst y. contradiction. }
        split; [apply Forall_app; split; [exact Hall|apply Forall_singleton; exact Hfn]|].
        split; [rewrite length_app; simpl; lia|].
        right. repeat split; assumption. }
    destruct Hfound as (k & lookup' & -> & Hk & Hnd' & Hall' & Hlen' & Hcase).
    assert (Hklt : (k < length lookup')%nat) by (eapply lookup_lt_Some; exact Hk).
    (* the reference *)
    destruct (add_ref names (qb_sql q) k fn (qb_add_types q)) as [sql'|] eqn:Href.
    2:{ unfold add_ref in Href. destruct (qb_add_types q); [|discriminate].
        destruct (lookup_lt_is_Some_2 (arg_type_names names) fn) as [name Hname];
          [rewrite typed_args; exact Hfn|].
        rewrite Hname in Href. discriminate. }
    destruct (add_ref_app _ _ _ _ _ _ Href) as [text ->].
    assert (Hgrow : (String.length (qb_sql q) <= String.length (qb_sql q ++ text))%nat)
      by (rewrite string_length_app; lia).
    assert (Hpost : (lookup' = qb_arg_lookup q \/
                     ((fn ∉ qb_arg_lookup q) /\ lookup' = qb_arg_lookup q ++ [fn])) /\
                    exists k0, lookup' !! k0 = Some fn /\
                      add_ref names (qb_sql q) k0 fn (qb_add_types q)
                      = Some (qb_sql q ++ text)%string).
    { split; [destruct Hcase as [?|(? & ? & _)]; auto|]. exists k. split; assumption. }
    destruct (qb_track_refs q) eqn:Htr.
    + destruct (Nat.leb_spec FUNC_MAX_ARGS (length (qb_refs q))) as [Hfull|Hroom].
      { split; [exact Hpos|]. split; [reflexivity|lia]. }
      split; [|split; [reflexivity|exact Hpost]].
      unfold qb_ok. simpl. split; [exact Hnd'|]. split; [exact Hall'|]. split; [|split; [|split]].
      * apply Forall_app. split.
        -- eapply Forall_impl; [exact Hrefs|]. intros r [? ?]. split; lia.
        -- apply Forall_singleton. simpl. split; [exact Hklt|lia].
      * intros i j r1 r2 Hij H1 H2.
        destruct (decide (j < length (qb_refs q))%nat) as [Hj|Hj].
        -- rewrite lookup_app_l in H1, H2 by lia. exact (Hsorted i j r1 r2 Hij H1 H2).
        -- rewrite (lookup_app_r _ _ j) in H2 by lia.
           destruct (j - length (qb_refs q))%nat as [|n] eqn:Hjn; [|destruct n; discriminate].
           injection H2 as <-. simpl.
           destruct (decide (i < length (qb_refs q))%nat) as [Hi|Hi].
           ++ rewrite lookup_app_l in H1 by lia.
              rewrite Forall_lookup in Hrefs. destruct (Hrefs _ _ H1) as [_ He]. lia.
           ++ rewrite lookup_app_r in H1 by lia.
              destruct (i - length (qb_refs q))%nat as [|n]; [|destruct n; discriminate].
              injection H1 as <-. simpl. lia.
      * rewrite length_app. simpl. lia.
      * intros _ k0 Hk0.
        destruct Hcase as [->|(_ & -> & ->)].
        -- destruct (Hcover eq_refl k0 Hk0) as (r & Hr & Hrk).
           exists r. split; [apply elem_of_app; left; exact Hr|exact Hrk].
        -- rewrite length_app in Hk0. simpl in Hk0.
           destruct (decide (k0 < length (qb_arg_lookup q))%nat) as [Hlt|Hge].
           ++ destruct (Hcover eq_refl k0 Hlt) as (r & Hr & Hrk).
              exists r. split; [apply elem_of_app; left; exact Hr|exact Hrk].
           ++ eexists. split; [apply elem_of_app; right; apply list_elem_of_here|].
              simpl. lia.
    + split; [|split; [reflexivity|exact Hpost]].
      unfold qb_ok. simpl. split; [exact Hnd'|]. split; [exact Hall'|].
      split; [|split; [exact Hsorted|split; [exact Hcount|discriminate]]].
      eapply Forall_impl; [exact Hrefs|]. intros r [? ?]. split; lia.
  - destruct (starts_with_dollar ident).
    + split; [exact Hok|]. split; reflexivity.
    + split; [|repeat split].
      apply qb_ok_grow; try assumption; try reflexivity.
      rewrite string_length_app. lia.
Qed.

End QueryBuffer.

Lemma plproxy_query_start_ok func add_types track_refs :
  qb_ok func (plproxy_query_start add_types track_refs).
Proof.
  unfold qb_ok, plproxy_query_start. simpl.
  split; [apply NoDup_nil_2|]. split; [apply Forall_nil_2|]. split; [apply Forall_nil_2|].
  split; [intros i j r1 r2 _ H; rewrite lookup_nil in H; discriminate|].
  split; [lia|]. intros _ k Hk. lia.
Qed.

Lemma plproxy_query_add_const_ok func q data :
  qb_ok func q -> qb_ok func (snd (plproxy_query_add_const q data)).
Proof.
  intros Hok. pose proof Hok as (Hnd & Hall & _).
  apply qb_ok_grow; try assumption; try reflexivity.
  rewrite string_length_app. lia.
Qed.

(** ** The standard query *)

Lemma standard_args_lookup names ty : forall n i sql lookup,
  (i + n <= length (arg_type_names names))%nat ->
  exists sql', standard_args names n i ty sql lookup = Some (sql', lookup ++ seq i n).
Proof.
  induction n as [|n IH]; intros i sql lookup Hn; simpl.
  - exists sql. rewrite app_nil_r. reflexivity.
  - set (sql1 := if (0 <? i)%nat then (sql ++ ",")%string else sql).
    destruct (add_ref names sql1 i i ty) as [sql2|] eqn:Href.
    + destruct (IH (S i) sql2 (lookup ++ [i])) as [sql' H]; [lia|].
      exists sql'. rewrite H, <- app_assoc. reflexivity.
    + exfalso. unfold add_ref in Href. destruct ty; [|discriminate].
      destruct (lookup_lt_is_Some_2 (arg_type_names names) i) as [name Hname]; [lia|].
      rewrite Hname in Href. discriminate.
Qed.

(** X22: for a function with a return type, [plproxy_standard_query] returns
    a query that passes the arguments of the function in their order:
    parameter [$i+1] is argument [i], for every argument and no more. *)
Theorem plproxy_standard_query_lookup (func : ProxyFunction) (names : QueryNames)
    (add_types : bool) :
  length (arg_type_names names) = arg_count func ->
  (ret_composite func = None -> ret_scalar func <> None) ->
  (dynamic_record names = true -> ret_composite func <> None) ->
  exists pq,
    plproxy_standard_query func names add_types = QRet pq /\
    arg_lookup pq = seq 0 (arg_count func).
Proof.
  intros Hnames Hret Hdyn. unfold plproxy_standard_query.
  assert (Hsql1 : exists sql1,
            match ret_composite func with
            | Some _ => Some ("select " ++ column_list "::" (ret_columns names) 0)%string
            | None =>
                match ret_scalar func with
                | Some _ => Some ("select " ++ "r::" ++ ret_scalar_name names)%string
                | None => None
                end
            end = Some sql1).
  { destruct (ret_composite func); [eexists; reflexivity|].
    destruct (ret_scalar func); [eexists; reflexivity|].
    exfalso. exact (Hret eq_refl eq_refl). }
  destruct Hsql1 as [sql1 ->].
  destruct (standard_args_lookup names add_types (arg_count func) 0
              (sql1 ++ " from " ++ func_name names ++ "(")%string [])
    as [sql3 ->]; [lia|].
  destruct (dynamic_record names) eqn:Hd.
  - destruct (ret_composite func) eqn:Hc; [|exfalso; exact (Hdyn eq_refl eq_refl)].
    eexists. split; reflexivity.
  - eexists. split; reflexivity.
Qed.

(** ** The split query *)

Arguments decimal : simpl never.

Lemma first_true_Some : forall (l : list bool) i0,
  (exists i, l !! i = Some true) ->
  exists fn, first_true l i0 = Some (i0 + fn)%nat /\ l !! fn = Some true.
Proof.
  induction l as [|b l IH]; intros i0 [i Hi].
  - rewrite lookup_nil in Hi. discriminate.
  - simpl. destruct b.
    + exists 0%nat. rewrite Nat.add_0_r. split; reflexivity.
    + destruct i as [|i]; [discriminate|].
      destruct (IH (S i0) (ex_intro _ i Hi)) as (fn & Hf & Hl).
      exists (S fn). split; [rewrite Hf; f_equal; lia|exact Hl].
Qed.

Lemma split_refs_ok func sql lookup sa : forall refs pos buf fs,
  split_args func = Some sa ->
  Forall (fun fn => (fn < length sa)%nat) lookup ->
  (forall r, r ∈ refs ->
     (pos <= ref_end r <= String.length sql)%nat /\
     (ref_sql_idx r < length lookup)%nat) ->
  (forall i j r1 r2, (i <= j)%nat -> refs !! i = Some r1 -> refs !! j = Some r2 ->
     (ref_end r1 <= ref_end r2)%nat) ->
  (pos <= String.length sql)%nat ->
  exists buf' pos' fs' text,
    split_refs func sql lookup refs pos buf fs = Some (buf', pos', fs') /\
    buf' = (buf ++ text)%string /\
    (pos' <= String.length sql)%nat /\
    match fs' with
    | Some k =>
        fs = Some k \/
        (fs = None /\ exists fn, lookup !! k = Some fn /\ sa !! fn = Some true)
    | None =>
        fs = None /\
        forall r, r ∈ refs ->
          exists fn, lookup !! ref_sql_idx r = Some fn /\ sa !! fn = Some false
    end.
Proof.
  induction refs as [|r rest IH]; intros pos buf fs Hsa Hall Hrefs Hsorted Hpos.
  - exists buf, pos, fs, ""%string. simpl. split; [reflexivity|].
    split; [clear; induction buf as [|c b IHb]; simpl; [reflexivity|rewrite <- IHb; reflexivity]|].
    split; [exact Hpos|].
    destruct fs as [k|]; [left; reflexivity|].
    split; [reflexivity|]. intros r Hr. apply elem_of_nil in Hr. destruct Hr.
  - destruct (Hrefs r (list_elem_of_here _ _)) as [[Hlo Hhi] Hidx].
    simpl.
    destruct (Nat.leb_spec pos (ref_end r)) as [_|?]; [|lia].
    destruct (Nat.leb_spec (ref_end r) (String.length sql)) as [_|?]; [|lia]. simpl.
    destruct (lookup_lt_is_Some_2 lookup (ref_sql_idx r) Hidx) as [fn Hfn].
    rewrite Hfn.
    assert (Hfnlt : (fn < length sa)%nat).
    { rewrite Forall_lookup in Hall. exact (Hall _ _ Hfn). }
    destruct (lookup_lt_is_Some_2 sa fn Hfnlt) as [b Hb].
    unfold split_arg_at. rewrite Hsa, Hb.
    assert (Hrest : forall r', r' ∈ rest ->
              (ref_end r <= ref_end r' <= String.length sql)%nat /\
              (ref_sql_idx r' < length lookup)%nat).
    { intros r' Hr'. destruct (Hrefs r' (list_elem_of_further _ _ _ Hr')) as [[_ ?] ?].
      apply list_elem_of_lookup_1 in Hr' as [j Hj].
      pose proof (Hsorted 0%nat (S j) r r' ltac:(lia) eq_refl Hj). repeat split; lia. }
    assert (Hsorted' : forall i j r1 r2, (i <= j)%nat -> rest !! i = Some r1 ->
              rest !! j = Some r2 -> (ref_end r1 <= ref_end r2)%nat).
    { intros i j r1 r2 Hij H1 H2. apply (Hsorted (S i) (S j) r1 r2); [lia|exact H1|exact H2]. }
    destruct b.
    + destruct (IH (ref_end r) (buf ++ String.substring pos (ref_end r - pos) sql ++ "[i]")%string
                  (match fs with Some k => Some k | None => Some (ref_sql_idx r) end)
                  Hsa Hall Hrest Hsorted' Hhi)
        as (buf' & pos' & fs' & text & H & Hbuf & Hpos' & Hfs).
      exists buf', pos', fs'. eexists.
      rewrite <- string_app_assoc in H. split; [exact H|].
      split; [rewrite Hbuf, string_app_assoc; reflexivity|].
      split; [exact Hpos'|].
      destruct fs' as [k|].
      * destruct Hfs as [Hfs|[Hfs _]]; [|destruct fs; discriminate].
        destruct fs as [k0|]; [left; exact Hfs|].
        right. split; [reflexivity|]. injection Hfs as <-. exists fn. split; assumption.
      * destruct Hfs as [Hfs _]. destruct fs; discriminate.
    + destruct (IH (ref_end r) (buf ++ String.substring pos (ref_end r - pos) sql)%string fs
                  Hsa Hall Hrest Hsorted' Hhi)
        as (buf' & pos' & fs' & text & H & Hbuf & Hpos' & Hfs).
      exists buf', pos', fs'. eexists. split; [exact H|].
      split; [rewrite Hbuf, string_app_assoc; reflexivity|].
      split; [exact Hpos'|].
      destruct fs' as [k|]; [exact Hfs|].
      destruct Hfs as [Hfs Hnone]. split; [exact Hfs|].
      intros r' Hr'. apply elem_of_cons in Hr' as [->|Hr'].
      * exists fn. split; assumption.
      * exact (Hnone r' Hr').
Qed.

(** X23: [plproxy_split_query] on a well-formed buffer with tracked
    references whose text starts with the expected prefix, for a function
    with a split argument, never reads or writes outside its arrays and
    raises no error.  The query it returns selects [i] and ends in
    [from generate_subscripts($k, 1) i], where parameter [$k] is a split
    argument; its argument numbering is still without duplicates and within
    the arguments of the function, and extends the old one by at most that
    one argument. *)
Theorem plproxy_split_query_ok (func : ProxyFunction) (q : QueryBuffer) (sa : list bool) :
  qb_ok func q ->
  qb_track_refs q = true ->
  split_args func = Some sa ->
  length sa = arg_count func ->
  (exists i, sa !! i = Some true) ->
  (split_start (qb_sql q) <= String.length (qb_sql q))%nat ->
  (forall r, r ∈ qb_refs q -> (split_start (qb_sql q) <= ref_end r)%nat) ->
  exists pq k fn body,
    plproxy_split_query func q = QRet pq /\
    sql pq = ("select i, " ++ body ++ " from generate_subscripts($"
              ++ decimal (k + 1) ++ ", 1) i")%string /\
    arg_lookup pq !! k = Some fn /\
    sa !! fn = Some true /\
    NoDup (arg_lookup pq) /\
    Forall (fun x => (x < arg_count func)%nat) (arg_lookup pq) /\
    (arg_lookup pq = qb_arg_lookup q \/ arg_lookup pq = qb_arg_lookup q ++ [fn]).
Proof.
  intros (Hnd & Hall & Hrefs & Hsorted & Hcount & Hcover) Htr Hsa Hlen Hsome Hstart Hfirst.
  unfold plproxy_split_query. rewrite Htr. simpl negb. cbv iota.
  fold (split_start (qb_sql q)).
  destruct (split_refs_ok func (qb_sql q) (qb_arg_lookup q) sa (qb_refs q)
              (split_start (qb_sql q)) "select i, "%string None Hsa)
    as (buf' & pos' & fs' & text & -> & -> & Hpos' & Hfs).
  { rewrite Hlen. exact Hall. }
  { intros r Hr. rewrite Forall_forall in Hrefs. destruct (Hrefs r Hr) as [? ?].
    pose proof (Hfirst r Hr). repeat split; lia. }
  { exact Hsorted. }
  { exact Hstart. }
  destruct fs' as [k|].
  - destruct Hfs as [Hfs|(_ & fn & Hk & Hfn)]; [discriminate|].
    destruct (Nat.leb_spec pos' (String.length (qb_sql q))) as [_|?]; [|lia].
    eexists. exists k, fn.
    exists (text ++ String.substring pos' (String.length (qb_sql q) - pos') (qb_sql q))%string.
    split; [reflexivity|]. simpl.
    split; [rewrite !string_app_assoc; reflexivity|].
    split; [exact Hk|]. split; [exact Hfn|]. split; [exact Hnd|]. split; [exact Hall|].
    left. reflexivity.
  - destruct Hfs as [_ Hnone]. rewrite Hsa.
    rewrite firstn_all2 by lia.
    destruct (first_true_Some sa 0 Hsome) as (fn & -> & Hfn). simpl.
    assert (Hfnlt : (fn < arg_count func)%nat).
    { rewrite <- Hlen. eapply lookup_lt_Some. exact Hfn. }
    assert (Hnin : fn ∉ qb_arg_lookup q).
    { intros Hin. apply list_elem_of_lookup_1 in Hin as [k Hk].
      destruct (Hcover Htr k (lookup_lt_Some _ _ _ Hk)) as (r & Hr & Hrk).
      destruct (Hnone r Hr) as (fn' & Hfn' & Hfalse).
      rewrite Hrk, Hk in Hfn'. injection Hfn' as <-. congruence. }
    pose proof (pigeonhole _ _ _ Hnd Hall Hfnlt Hnin) as Hroom.
    unfold push_arg.
    destruct (Nat.ltb_spec (length (qb_arg_lookup q)) (arg_count func)) as [_|?]; [|lia].
    destruct (Nat.leb_spec pos' (String.length (qb_sql q))) as [_|?]; [|lia].
    eexists. exists (length (qb_arg_lookup q)), fn.
    exists (text ++ String.substring pos' (String.length (qb_sql q) - pos') (qb_sql q))%string.
    split; [reflexivity|]. simpl.
    split; [rewrite !string_app_assoc; reflexivity|].
    split; [rewrite lookup_app_r by lia; rewrite Nat.sub_diag; reflexivity|].
    split; [exact Hfn|]. split.
    { apply NoDup_app. split; [exact Hnd|]. split; [|apply NoDup_singleton].
      intros y Hy Hy'. apply list_elem_of_singleton in Hy'. subst y. contradiction. }
    split; [apply Forall_app; split; [exact Hall|apply Forall_singleton; exact Hfnlt]|].
    right. reflexivity.
Qed.

(** ** The queries of the split scenario *)

(** The buffer functions build the two queries that the split scenario
    runs. *)
Example hash_buffer_split_query :
  exists pq, hash_sql split_func_new = Some pq /\
             plproxy_split_query split_func_new hash_buffer = QRet pq.
Proof. eexists. split; [reflexivity|]. vm_compute. reflexivity. Qed.

Example split_func_standard_query :
  plproxy_standard_query split_func_new split_names false = QRet (remote_sql split_func_new).
Proof. vm_compute. reflexivity. Qed.

Lemma xs_index_range ident : xs_index ident < Z.of_nat (arg_count split_func_new).
Proof. unfold xs_index. destruct (String.eqb ident "xs"); simpl; lia. Qed.

Lemma hash_buffer0_ok : qb_ok split_func_new hash_buffer0.
Proof. apply plproxy_query_add_const_ok, plproxy_query_start_ok. Qed.

Lemma hash_buffer_ok : qb_ok split_func_new hash_buffer.
Proof.
  apply plproxy_query_add_const_ok.
  unfold qb_ok. change (qb_arg_lookup hash_buffer1) with [0%nat].
  change (qb_refs hash_buffer1) with [{| ref_end := 18; ref_sql_idx := 0 |}].
  change (qb_sql hash_buffer1) with "select * from h($1".
  split; [apply NoDup_singleton|].
  split; [apply Forall_singleton; simpl; lia|].
  split; [apply Forall_singleton; simpl; lia|].
  split.
  { intros [|i] [|j] r1 r2 _ H1 H2; simpl in H1, H2; try discriminate.
    injection H1 as <-. injection H2 as <-. lia. }
  split; [unfold FUNC_MAX_ARGS; simpl; lia|].
  intros _ k Hk. simpl in Hk. exists {| ref_end := 18; ref_sql_idx := 0 |}.
  split; [apply list_elem_of_here|simpl; lia].
Qed.

Lemma add_ref_not_truncated_witness :
  add_ref split_names "h(" 0 0 true = Some "h($1::int4[]".
Proof.
  exact (proj2 (add_ref_not_truncated split_names "h(" 0 0 "int4[]"
                  ltac:(simpl; lia) eq_refl ltac:(simpl; lia))).
Defined.

Lemma plproxy_query_add_ident_ok_witness :
  qb_ok split_func_new hash_buffer1 /\
  qb_arg_lookup hash_buffer1 !! 0%nat = Some 0%nat /\
  qb_sql hash_buffer1 = "select * from h($1".
Proof.
  pose proof (plproxy_query_add_ident_ok split_func_new split_names xs_index
                xs_index_range eq_refl hash_buffer0 "xs" hash_buffer0_ok) as H.
  change (plproxy_query_add_ident split_func_new split_names xs_index hash_buffer0 "xs")
    with (QRet (true, hash_buffer1)) in H.
  destruct H as [Hok _]. split; [exact Hok|]. split; reflexivity.
Defined.

Lemma plproxy_standard_query_lookup_witness :
  exists pq,
    plproxy_standard_query split_func_new split_names true = QRet pq /\
    arg_lookup pq = [0%nat].
Proof.
  exact (plproxy_standard_query_lookup split_func_new split_names true eq_refl
           ltac:(discriminate) ltac:(discriminate)).
Defined.

Lemma plproxy_split_query_ok_witness :
  exists pq k fn body,
    plproxy_split_query split_func_new hash_buffer = QRet pq /\
    sql pq = ("select i, " ++ body ++ " from generate_subscripts($"
              ++ decimal (k + 1) ++ ", 1) i")%string /\
    arg_lookup pq !! k = Some fn /\
    [true] !! fn = Some true.
Proof.
  destruct (plproxy_split_query_ok split_func_new hash_buffer [true]
              hash_buffer_ok eq_refl eq_refl eq_refl (ex_intro _ 0%nat eq_refl))
    as (pq & k & fn & body & H1 & H2 & H3 & H4 & _).
  - vm_compute. lia.
  - intros r Hr.
    change (qb_refs hash_buffer) with [{| ref_end := 18; ref_sql_idx := 0 |}] in Hr.
    apply list_elem_of_singleton in Hr. subst r. vm_compute. lia.
  - exists pq, k, fn, body. repeat split; assumption.
Defined.
